(** * Ingestion pipeline of polymarket-agent: a shallow embedding

    Covers [database/load_data_to_db.py] (API helpers, record transformers,
    [upsert_events], [upsert_markets], [upsert_users], [insert_trades],
    [take_market_snapshot], [load_events_with_markets], [load_trades],
    [take_snapshots_for_active_markets]),
    [database/supabase_utils.py] ([retrieve_all_rows],
    [retrieve_all_distinct_values], [bulk_insert], [bulk_upsert]),
    [database/init_data.py] ([init_load_all_events_with_markets], per-market
    trade pagination) and [database/init_data_async.py]
    ([fetch_trades_async], [fetch_all_trades_for_market],
    [upsert_markets_batch], [upsert_events_batch], [insert_trades_batch],
    [process_market_batch], [init_load_all_events_with_markets_async],
    [init_load_all_trades_async]). *)

From Stdlib Require Import ZArith List String Ascii Bool Lia.
Set Warnings "-register-all".
Import ListNotations.
Open Scope string_scope.
Open Scope Z_scope.
Open Scope list_scope.

(** ** Python values

    JSON-decoded values as the API hands them to the code: [None], booleans,
    integers, strings, lists and dicts.  A dict is an association list; the
    decoder produces each key once, and [dict.get] returns the value of the
    key. *)

Inductive pyval : Type :=
| PNone
| PBool (b : bool)
| PInt (z : Z)
| PStr (s : string)
| PList (l : list pyval)
| PDict (d : list (string * pyval)).

Definition dict : Type := list (string * pyval).

(** Exceptions raised by the code paths modelled here. *)
Inductive exn : Type :=
| TypeError
| ValueError
| OutOfBoundsDatetime
| StorageError        (* a request to the storage backend raised *)
| RequestError        (* [requests.get] raised (connection error, timeout) *)
| ZeroDivisionError
| AttributeError.     (* [.get] on a value that is not a dict *)

Inductive result (A : Type) : Type :=
| Ok (a : A)
| Raise (e : exn).
Arguments Ok {A} a.
Arguments Raise {A} e.

Fixpoint dict_lookup (d : dict) (k : string) : option pyval :=
  match d with
  | [] => None
  | (k', v) :: d' => if String.eqb k k' then Some v else dict_lookup d' k
  end.

(** [d.get(k, default)] *)
Definition get_or (d : dict) (k : string) (default : pyval) : pyval :=
  match dict_lookup d k with Some v => v | None => default end.

(** [d.get(k)] *)
Definition get (d : dict) (k : string) : pyval := get_or d k PNone.

(** Python truthiness ([bool(v)]). *)
Definition truthy (v : pyval) : bool :=
  match v with
  | PNone => false
  | PBool b => b
  | PInt z => negb (z =? 0)
  | PStr s => negb (String.eqb s "")
  | PList l => match l with [] => false | _ => true end
  | PDict d => match d with [] => false | _ => true end
  end.

(** [a or b] *)
Definition py_or (a b : pyval) : pyval := if truthy a then a else b.

Definition is_none (v : pyval) : bool :=
  match v with PNone => true | _ => false end.

(** [len(v)]: strings, lists and dicts have a length, anything else raises
    [TypeError]. *)
Definition py_len (v : pyval) : result Z :=
  match v with
  | PStr s => Ok (Z.of_nat (String.length s))
  | PList l => Ok (Z.of_nat (List.length l))
  | PDict d => Ok (Z.of_nat (List.length d))
  | _ => Raise TypeError
  end.

(** [{k: v for k, v in d.items() if v is not None}] *)
Definition drop_none (d : dict) : dict :=
  filter (fun kv => negb (is_none (snd kv))) d.

(** ** Timestamps: [pd.to_datetime(ts, unit='s').isoformat()]

    What [pd.to_datetime(v, unit='s')] makes of a value depends on the
    pandas version: pandas 2.x parses numeric strings, refuses booleans and
    raises [OutOfBoundsDatetime] for an integer beyond the nanosecond range,
    which pandas 3 converts.  The development is therefore parametric in the
    conversion: from the section [Ingestion] on, the conversion and
    [Timestamp.isoformat()] are those of a section variable [pandas], and
    every statement holds for each of them.  The definitions below give one instance of the two,
    on whole seconds, used to run the examples. *)

Definition digit_char (n : Z) : ascii := ascii_of_nat (48 + Z.to_nat n).

Fixpoint digits_aux (fuel : nat) (n : Z) (acc : string) : string :=
  match fuel with
  | O => acc
  | S f =>
      let acc' := String (digit_char (n mod 10)) acc in
      if n <? 10 then acc' else digits_aux f (n / 10) acc'
  end.

(** Decimal rendering of a non-negative integer, zero-padded to [w]. *)
Definition pad (w : nat) (n : Z) : string :=
  let s := digits_aux 20 n "" in
  append (String.concat "" (repeat "0" (w - String.length s))) s.

(** Proleptic Gregorian date of a day count since 1970-01-01. *)
Definition civil_from_days (days : Z) : Z * Z * Z :=
  let z := days + 719468 in
  let era := z / 146097 in
  let doe := z - era * 146097 in
  let yoe := (doe - doe / 1460 + doe / 36524 - doe / 146096) / 365 in
  let doy := doe - (365 * yoe + yoe / 4 - yoe / 100) in
  let mp := (5 * doy + 2) / 153 in
  let d := doy - (153 * mp + 2) / 5 + 1 in
  let m := if mp <? 10 then mp + 3 else mp - 9 in
  let y := yoe + era * 400 + (if m <=? 2 then 1 else 0) in
  (y, m, d).

(** [Timestamp.isoformat()] of a whole-second timestamp. *)
Definition isoformat_seconds (ts : Z) : string :=
  let days := ts / 86400 in
  let secs := ts mod 86400 in
  let '(y, m, d) := civil_from_days days in
  String.concat "" [pad 4 y; "-"; pad 2 m; "-"; pad 2 d; "T";
    pad 2 (secs / 3600); ":"; pad 2 ((secs mod 3600) / 60); ":";
    pad 2 (secs mod 60)].

(** Largest magnitude of a pandas [Timestamp] in nanoseconds ([-2^63] is
    [NaT]). *)
Definition ns_bound : Z := 9223372036854775807.

(** [pd.to_datetime(v, unit='s')] on a truthy timestamp [v] (a [Timestamp]
    or the exception the installed pandas raises) and
    [Timestamp.isoformat()]. *)
Class Pandas := {
  Timestamp : Type;
  to_datetime_s : pyval -> result Timestamp;
  isoformat : Timestamp -> string
}.

(** The instance used by the examples: an integer number of seconds
    converts when its nanosecond count fits the int64 range, as in pandas
    2.x, and raises [OutOfBoundsDatetime] otherwise; every other value is
    refused with [ValueError]. *)
Definition int_seconds_to_datetime (v : pyval) : result Z :=
  match v with
  | PInt z =>
      if (- ns_bound <=? z * 1000000000) && (z * 1000000000 <=? ns_bound)
      then Ok z else Raise OutOfBoundsDatetime
  | _ => Raise ValueError
  end.

Definition seconds_pandas : Pandas :=
  {| Timestamp := Z; to_datetime_s := int_seconds_to_datetime;
     isoformat := isoformat_seconds |}.

(** Outcome of one loop iteration of the loaders below. *)
Inductive step (S : Type) : Type :=
| Continue (s : S)
| Break (s : S).
Arguments Continue {S} s.
Arguments Break {S} s.

Section Ingestion.

Context {pandas : Pandas}.

(** ** Record transformers ([load_data_to_db.py]) *)

Definition transform_event_data (event : dict) : result dict :=
  let markets := get_or event "markets" (PList []) in
  match py_len markets with
  | Raise e => Raise e
  | Ok n =>
      let event_type :=
        if n =? 1 then PStr "SMP" else if n >? 1 then PStr "GMP" else PNone in
      Ok [("id", get event "id");
          ("ticker", get event "ticker");
          ("slug", get event "slug");
          ("title", get event "title");
          ("description", get event "description");
          ("event_type", event_type);
          ("market_count", PInt n);
          ("active", get_or event "active" (PBool true));
          ("closed", get_or event "closed" (PBool false));
          ("archived", get_or event "archived" (PBool false));
          ("new", get_or event "new" (PBool false));
          ("featured", get_or event "featured" (PBool false));
          ("restricted", get_or event "restricted" (PBool false));
          ("start_date", get event "startDate");
          ("creation_date", get event "creationDate");
          ("end_date", get event "endDate");
          ("created_at", get event "createdAt");
          ("updated_at", get event "updatedAt");
          ("liquidity", get event "liquidity");
          ("volume", get event "volume");
          ("volume_24hr", get event "volume24hr");
          ("volume_1wk", get event "volume1wk");
          ("volume_1mo", get event "volume1mo");
          ("volume_1yr", get event "volume1yr");
          ("open_interest", get event "openInterest");
          ("liquidity_clob", get event "liquidityClob");
          ("image", get event "image");
          ("icon", get event "icon");
          ("enable_order_book", get_or event "enableOrderBook" (PBool true));
          ("competitive", get event "competitive");
          ("comment_count", get_or event "commentCount" (PInt 0));
          ("cyom", get_or event "cyom" (PBool false));
          ("show_all_outcomes", get_or event "showAllOutcomes" (PBool true));
          ("show_market_images", get_or event "showMarketImages" (PBool true));
          ("enable_neg_risk", get_or event "enableNegRisk" (PBool false));
          ("automatically_active", get_or event "automaticallyActive" (PBool true));
          ("neg_risk_augmented", get_or event "negRiskAugmented" (PBool false));
          ("pending_deployment", get_or event "pendingDeployment" (PBool false));
          ("deploying", get_or event "deploying" (PBool false));
          ("tags", get event "tags");
          ("resolution_source", get event "resolutionSource")]
  end.

Definition transform_market_data (market : dict) (event_id : pyval) : dict :=
  [("id", get market "id");
   ("event_id", event_id);
   ("condition_id", py_or (get market "conditionId") (get market "condition_id"));
   ("question", get market "question");
   ("slug", get market "slug");
   ("description", get market "description");
   ("outcomes", get market "outcomes");
   ("outcome_prices", get market "outcomePrices");
   ("clob_token_ids", get market "clobTokenIds");
   ("active", get_or market "active" (PBool true));
   ("closed", get_or market "closed" (PBool false));
   ("archived", get_or market "archived" (PBool false));
   ("funded", get_or market "funded" (PBool false));
   ("ready", get_or market "ready" (PBool false));
   ("restricted", get_or market "restricted" (PBool false));
   ("start_date_iso", py_or (get market "startDateIso") (get market "startDate"));
   ("end_date_iso", py_or (get market "endDateIso") (get market "endDate"));
   ("created_at", get market "createdAt");
   ("updated_at", get market "updatedAt");
   ("accepting_orders_timestamp", get market "acceptingOrdersTimestamp");
   ("enable_order_book", get_or market "enableOrderBook" (PBool true));
   ("order_price_min_tick_size", get market "orderPriceMinTickSize");
   ("order_min_size", get market "orderMinSize");
   ("accepting_orders", get_or market "acceptingOrders" (PBool true));
   ("neg_risk", get_or market "negRisk" (PBool false));
   ("volume_num", py_or (get market "volumeNum") (get market "volume"));
   ("liquidity_num", py_or (get market "liquidityNum") (get market "liquidity"));
   ("volume_24hr", get market "volume24hr");
   ("volume_1wk", get market "volume1wk");
   ("volume_1mo", get market "volume1mo");
   ("volume_1yr", get market "volume1yr");
   ("volume_clob", get market "volumeClob");
   ("volume_24hr_clob", get market "volume24hrClob");
   ("volume_1wk_clob", get market "volume1wkClob");
   ("volume_1mo_clob", get market "volume1moClob");
   ("volume_1yr_clob", get market "volume1yrClob");
   ("liquidity_clob", get market "liquidityClob");
   ("spread", get market "spread");
   ("one_day_price_change", get market "oneDayPriceChange");
   ("one_week_price_change", get market "oneWeekPriceChange");
   ("one_month_price_change", get market "oneMonthPriceChange");
   ("last_trade_price", get market "lastTradePrice");
   ("best_bid", get market "bestBid");
   ("best_ask", get market "bestAsk");
   ("resolution_source", get market "resolutionSource");
   ("resolved_by", get market "resolvedBy");
   ("uma_bond", get market "umaBond");
   ("uma_reward", get market "umaReward");
   ("uma_resolution_statuses", get market "umaResolutionStatuses");
   ("image", get market "image");
   ("icon", get market "icon");
   ("events", get market "events");
   ("group_item_title", get market "groupItemTitle");
   ("group_item_threshold", get market "groupItemThreshold");
   ("series_color", get market "seriesColor");
   ("new", get_or market "new" (PBool false));
   ("featured", get_or market "featured" (PBool false));
   ("competitive", get_or market "competitive" (PBool false));
   ("cyom", get_or market "cyom" (PBool false));
   ("rfq_enabled", get_or market "rfqEnabled" (PBool false));
   ("holding_rewards_enabled", get_or market "holdingRewardsEnabled" (PBool false));
   ("fees_enabled", get_or market "feesEnabled" (PBool false));
   ("show_gmp_series", get_or market "showGmpSeries" (PBool false));
   ("show_gmp_outcome", get_or market "showGmpOutcome" (PBool false));
   ("submitted_by", get market "submitted_by");
   ("approved", get_or market "approved" (PBool false));
   ("pager_duty_notification_enabled",
      get_or market "pagerDutyNotificationEnabled" (PBool false));
   ("pending_deployment", get_or market "pendingDeployment" (PBool false));
   ("deploying", get_or market "deploying" (PBool false));
   ("market_maker_address", get market "marketMakerAddress");
   ("rewards_min_size", get market "rewardsMinSize");
   ("rewards_max_spread", get market "rewardsMaxSpread")].

(** [transform_trade_data]: [datetime_val] is computed only for a truthy
    timestamp; a pandas [Timestamp] is always truthy, so [isoformat()] is
    taken whenever the conversion succeeded. *)
Definition transform_trade_data (trade : dict) : result dict :=
  let timestamp := get trade "timestamp" in
  let datetime_val :=
    if truthy timestamp then
      match to_datetime_s timestamp with
      | Ok t => Ok (Some t)
      | Raise e => Raise e
      end
    else Ok None in
  match datetime_val with
  | Raise e => Raise e
  | Ok dv =>
      Ok [("transaction_hash", get trade "transactionHash");
          ("proxy_wallet", get trade "proxyWallet");
          ("condition_id", get trade "conditionId");
          ("slug", get trade "slug");
          ("side", get trade "side");
          ("asset", get trade "asset");
          ("outcome", get trade "outcome");
          ("outcome_index", get trade "outcomeIndex");
          ("size", get trade "size");
          ("price", get trade "price");
          ("timestamp", timestamp);
          ("datetime", match dv with Some t => PStr (isoformat t) | None => PNone end);
          ("title", get trade "title");
          ("icon", get trade "icon");
          ("event_slug", get trade "eventSlug")]
  end.

Definition transform_user_data (trade : dict) : dict :=
  [("proxy_wallet", get trade "proxyWallet");
   ("name", get trade "name");
   ("pseudonym", get trade "pseudonym");
   ("bio", get trade "bio");
   ("profile_image", get trade "profileImage");
   ("profile_image_optimized", get trade "profileImageOptimized")].

(** The mandatory-field check of [insert_trades] and [insert_trades_batch]:
    [all([t.get('proxy_wallet'), t.get('side'), t.get('size'),
    t.get('price'), t.get('timestamp')])]. *)
Definition mandatory_ok (t : dict) : bool :=
  forallb truthy [get t "proxy_wallet"; get t "side"; get t "size";
                  get t "price"; get t "timestamp"].

(** ** Dict keys

    [all_users[wallet] = ...] and [{u['proxy_wallet']: u ...}] key dicts by
    the wallet value: lists and dicts are unhashable ([TypeError]) and
    [True == 1], [False == 0] as keys. *)
Definition py_key (v : pyval) : result pyval :=
  match v with
  | PBool b => Ok (PInt (if b then 1 else 0))
  | PList _ | PDict _ => Raise TypeError
  | _ => Ok v
  end.

(** Equality of normalised keys ([None], integers, strings). *)
Definition key_eqb (a b : pyval) : bool :=
  match a, b with
  | PNone, PNone => true
  | PInt x, PInt y => Z.eqb x y
  | PStr x, PStr y => String.eqb x y
  | _, _ => false
  end.

(** Python [==] between two hashable wallet values. *)
Definition same_wallet (a b : pyval) : bool :=
  match py_key a, py_key b with
  | Ok x, Ok y => key_eqb x y
  | _, _ => false
  end.

(** ** Storage requests and the effect monad

    Every request sent to the storage backend ([supabase.table(t).insert(..)
    .execute()] and [.upsert(.., on_conflict=..)]) and every page request to
    the trades API is recorded, in order, in a trace. *)

Inductive wmode : Type :=
| WInsert
| WUpsert (on_conflict : string).

Inductive payload : Type :=
| Many (rs : list dict)   (* a list of records: a bulk request *)
| One (r : dict).         (* a single record *)

Record op : Type := mk_op { op_table : string; op_mode : wmode; op_payload : payload }.

Inductive event : Type :=
| EWrite (o : op)
| EFetch (limit offset : Z).

(** Trace-writing computations that may raise. *)
Definition M (A : Type) : Type := list event -> list event * result A.

Definition ret {A} (a : A) : M A := fun tr => (tr, Ok a).
Definition raise {A} (e : exn) : M A := fun tr => (tr, Raise e).
Definition bind {A B} (m : M A) (k : A -> M B) : M B :=
  fun tr => match m tr with
            | (tr', Ok a) => k a tr'
            | (tr', Raise e) => (tr', Raise e)
            end.
Definition lift {A} (r : result A) : M A := fun tr => (tr, r).

(** [try: m except Exception as e: h(e)] *)
Definition try_ {A} (m : M A) (h : exn -> M A) : M A :=
  fun tr => match m tr with
            | (tr', Raise e) => h e tr'
            | r => r
            end.

Notation "x <- m ;; k" := (bind m (fun x => k))
  (at level 61, m at next level, right associativity).

(** A [for] loop threading an accumulator. *)
Fixpoint foldM {A S} (f : S -> A -> M S) (s : S) (xs : list A) : M S :=
  match xs with
  | [] => ret s
  | x :: xs' => bind (f s x) (fun s' => foldM f s' xs')
  end.

(** [[records[i:i + k] for i in range(0, len(records), k)]] for [k > 0]. *)
Fixpoint chunks_aux {A} (fuel k : nat) (l : list A) : list (list A) :=
  match fuel with
  | O => []
  | S f =>
      match l with
      | [] => []
      | _ => firstn k l :: chunks_aux f k (skipn k l)
      end
  end.

Definition chunks {A} (k : nat) (l : list A) : list (list A) :=
  chunks_aux (List.length l) k l.

Definition len {A} (l : list A) : Z := Z.of_nat (List.length l).

Section Storage.

(** The storage backend: the rows returned in [result.data], or [None]
    when [execute()] raises. *)
Variable exec : op -> option (list dict).

(** [supabase.table(..)...execute()] *)
Definition execute (o : op) : M (list dict) :=
  fun tr => (tr ++ [EWrite o],
             match exec o with Some d => Ok d | None => Raise StorageError end).

(** [len(result.data) if result.data else len(chunk)] *)
Definition chunk_count (chunk data : list dict) : Z :=
  match data with [] => len chunk | _ => len data end.

(** One record of the one-by-one fallback of [bulk_insert]: a failing
    record is skipped, whether or not its error is a duplicate-key error. *)
Definition insert_one (table : string) (n : Z) (r : dict) : M Z :=
  try_ (_ <- execute (mk_op table WInsert (One r)) ;; ret (n + 1))
       (fun _ => ret n).

Definition insert_one_by_one (table : string) (rs : list dict) : M Z :=
  foldM (insert_one table) 0 rs.

(** One 100-record sub-chunk: the sub-chunk, and on failure its records one
    by one. *)
Definition insert_small_chunk (table : string) (n : Z) (small : list dict) : M Z :=
  try_ (data <- execute (mk_op table WInsert (Many small)) ;;
        ret (n + chunk_count small data))
       (fun _ => k <- insert_one_by_one table small ;; ret (n + k)).

(** One chunk of [bulk_insert]: the whole chunk; on failure, for more than
    100 records, sub-chunks of 100; otherwise one by one. *)
Definition insert_chunk (table : string) (chunk : list dict) : M Z :=
  try_ (data <- execute (mk_op table WInsert (Many chunk)) ;;
        ret (chunk_count chunk data))
       (fun _ =>
          if 100 <? len chunk then foldM (insert_small_chunk table) 0 (chunks 100 chunk)
          else insert_one_by_one table chunk).

Definition insert_chunk_acc (table : string) (n : Z) (chunk : list dict) : M Z :=
  k <- insert_chunk table chunk ;; ret (n + k).

(** [bulk_insert(supabase, table, records, chunk_size, ignore_duplicates,
    show_progress)]; [num_chunks] divides by [chunk_size] before the loop,
    and a negative [chunk_size] gives an empty [range]. *)
Definition bulk_insert (table : string) (records : list dict) (chunk_size : Z)
  : M Z :=
  match records with
  | [] => ret 0
  | _ =>
      if chunk_size =? 0 then raise ZeroDivisionError
      else if chunk_size <? 0 then ret 0
      else foldM (insert_chunk_acc table) 0 (chunks (Z.to_nat chunk_size) records)
  end.

Definition upsert_one (table on_conflict : string) (n : Z) (r : dict) : M Z :=
  try_ (_ <- execute (mk_op table (WUpsert on_conflict) (One r)) ;; ret (n + 1))
       (fun _ => ret n).

(** One chunk of [bulk_upsert]: the whole chunk, and on failure every
    record on its own. *)
Definition upsert_chunk (table on_conflict : string) (chunk : list dict) : M Z :=
  try_ (data <- execute (mk_op table (WUpsert on_conflict) (Many chunk)) ;;
        ret (chunk_count chunk data))
       (fun _ => foldM (upsert_one table on_conflict) 0 chunk).

Definition upsert_chunk_acc (table on_conflict : string) (n : Z) (chunk : list dict)
  : M Z :=
  k <- upsert_chunk table on_conflict chunk ;; ret (n + k).

Definition bulk_upsert (table : string) (records : list dict)
  (on_conflict : string) (chunk_size : Z) : M Z :=
  match records with
  | [] => ret 0
  | _ =>
      if chunk_size =? 0 then raise ZeroDivisionError
      else if chunk_size <? 0 then ret 0
      else foldM (upsert_chunk_acc table on_conflict) 0
                 (chunks (Z.to_nat chunk_size) records)
  end.

End Storage.

(** ** Loaders ([load_data_to_db.py], [init_data.py], [init_data_async.py]) *)

Section Loaders.

Variable exec : op -> option (list dict).

(** [upsert_users]: one upsert per user with a truthy wallet, errors
    swallowed. *)
Definition upsert_users (users_data : list dict) : M Z :=
  foldM (fun n user_data =>
           try_ (let u := drop_none user_data in
                 if negb (truthy (get u "proxy_wallet")) then ret n
                 else _ <- execute exec (mk_op "users" (WUpsert "proxy_wallet") (One u)) ;;
                      ret (n + 1))
                (fun _ => ret n)) 0 users_data.

(** [insert_trades]: transform, drop [None]s, skip a record failing the
    mandatory-field check, insert the rest one by one; any exception skips
    the trade. *)
Definition insert_trades (trades : list dict) : M Z :=
  foldM (fun n trade =>
           try_ (transformed <- lift (transform_trade_data trade) ;;
                 let t := drop_none transformed in
                 if negb (mandatory_ok t) then ret n
                 else _ <- execute exec (mk_op "trades" WInsert (One t)) ;;
                      ret (n + 1))
                (fun _ => ret n)) 0 trades.

(** [get_trades(market=.., limit=.., offset=..)] against a trade source
    giving the decoded page (a list of trade dicts) or the exception raised. *)
Definition get_trades_m (fetch : Z -> Z -> result (list dict)) (limit offset : Z)
  : M (list dict) :=
  fun tr => (tr ++ [EFetch limit offset], fetch limit offset).

(** [for user in batch_users: wallet = user.get('proxy_wallet');
    if wallet: all_users[wallet] = user]: the tally itself only feeds the
    final report; what the run sees of it is the [TypeError] of an
    unhashable wallet. *)
Fixpoint collect_users (batch_users : list dict) : result unit :=
  match batch_users with
  | [] => Ok tt
  | user :: rest =>
      let wallet := get user "proxy_wallet" in
      if truthy wallet then
        match py_key wallet with
        | Raise e => Raise e
        | Ok _ => collect_users rest
        end
      else collect_users rest
  end.

(** Locals of the per-market [while True] loop of
    [init_load_all_trades_by_market]. *)
Record market_cursor : Type := mk_cursor {
  offset : Z;
  market_trades_count : Z;
  batch_num : Z
}.

(** One iteration of the per-market loop; an exception anywhere in the body
    breaks out of the loop. *)
Definition trades_page_step (fetch : Z -> Z -> result (list dict)) (batch_size : Z)
  (c : market_cursor) : M (step market_cursor) :=
  try_ (trades_batch <- get_trades_m fetch batch_size (offset c) ;;
        match trades_batch with
        | [] => ret (Break c)
        | _ =>
            let batch_users := map transform_user_data trades_batch in
            _ <- lift (collect_users batch_users) ;;
            _ <- (match batch_users with
                  | [] => ret 0
                  | _ => upsert_users batch_users
                  end) ;;
            batch_trade_count <- insert_trades trades_batch ;;
            let c' := mk_cursor (offset c + batch_size)
                                (market_trades_count c + batch_trade_count)
                                (batch_num c + 1) in
            if len trades_batch <? batch_size then ret (Break c')
            else ret (Continue c')
        end)
       (fun _ => ret (Break c)).

(** The loop, run for at most [fuel] iterations ([None]: still looping). *)
Fixpoint market_loop (fetch : Z -> Z -> result (list dict)) (batch_size : Z)
  (fuel : nat) (c : market_cursor) : M (option market_cursor) :=
  match fuel with
  | O => ret None
  | S f =>
      s <- trades_page_step fetch batch_size c ;;
      match s with
      | Break c' => ret (Some c')
      | Continue c' => market_loop fetch batch_size f c'
      end
  end.

Definition cursor0 : market_cursor := mk_cursor 0 0 1.

(** [init_load_all_trades_by_market] from the retrieved condition ids on:
    returns [(total_trades_inserted, markets_processed)]. *)
Definition init_load_all_trades_by_market
  (fetch : string -> Z -> Z -> result (list dict)) (batch_size : Z)
  (start_market_index : nat) (condition_ids : list string) (fuel : nat)
  : M (option (Z * Z)) :=
  foldM (fun acc condition_id =>
           match acc with
           | None => ret None
           | Some (total, processed) =>
               r <- market_loop (fetch condition_id) batch_size fuel cursor0 ;;
               match r with
               | None => ret None
               | Some c => ret (Some (total + market_trades_count c, processed + 1))
               end
           end)
        (Some (0, 0)) (skipn start_market_index condition_ids).

(** [{u['proxy_wallet']: u for u in users if u.get('proxy_wallet')}]:
    insertion-ordered, the last user of a wallet wins. *)
Fixpoint dict_set (k : pyval) (v : dict) (d : list (pyval * dict)) : list (pyval * dict) :=
  match d with
  | [] => [(k, v)]
  | (k', v') :: d' => if key_eqb k k' then (k', v) :: d' else (k', v') :: dict_set k v d'
  end.

Fixpoint unique_users_aux (users : list dict) (acc : list (pyval * dict))
  : result (list (pyval * dict)) :=
  match users with
  | [] => Ok acc
  | u :: rest =>
      if truthy (get u "proxy_wallet") then
        match py_key (get u "proxy_wallet") with
        | Raise e => Raise e
        | Ok k => unique_users_aux rest (dict_set k u acc)
        end
      else unique_users_aux rest acc
  end.

Definition unique_users (users : list dict) : result (list (pyval * dict)) :=
  unique_users_aux users [].

(** The fetch loop of [load_trades]: [while offset < limit]. *)
Fixpoint load_trades_fetch (fetch : Z -> Z -> result (list dict)) (limit : Z)
  (fuel : nat) (offset : Z) (all_trades : list dict) : M (option (list dict)) :=
  match fuel with
  | O => ret None
  | S f =>
      if offset <? limit then
        let batch_limit := Z.min 100 (limit - offset) in
        trades_batch <- get_trades_m fetch batch_limit offset ;;
        match trades_batch with
        | [] => ret (Some all_trades)
        | _ => load_trades_fetch fetch limit f (offset + batch_limit)
                                 (all_trades ++ trades_batch)
        end
      else ret (Some all_trades)
  end.

(** [load_trades(limit, market_condition_id)]; every iteration advances the
    offset by at least one, so [Z.to_nat limit] iterations suffice. *)
Definition load_trades (fetch : Z -> Z -> result (list dict)) (limit : Z)
  : M (option Z) :=
  r <- load_trades_fetch fetch limit (S (Z.to_nat limit)) 0 [] ;;
  match r with
  | None => ret None
  | Some all_trades =>
      let users := map transform_user_data all_trades in
      uu <- lift (unique_users users) ;;
      _ <- upsert_users (map snd uu) ;;
      trade_count <- insert_trades all_trades ;;
      ret (Some trade_count)
  end.

(** The transform-and-filter loop of [insert_trades_batch] (no [try]: an
    exception of the transformer propagates). *)
Fixpoint valid_trades (trades : list dict) : result (list dict) :=
  match trades with
  | [] => Ok []
  | trade :: rest =>
      match transform_trade_data trade with
      | Raise e => Raise e
      | Ok transformed =>
          let t := drop_none transformed in
          match valid_trades rest with
          | Raise e => Raise e
          | Ok vs => Ok (if mandatory_ok t then t :: vs else vs)
          end
      end
  end.

(** [insert_trades_batch(trades)] returning [(user_count, trade_count)]. *)
Definition insert_trades_batch (trades : list dict) : M (Z * Z) :=
  match trades with
  | [] => ret (0, 0)
  | _ =>
      let users := map transform_user_data trades in
      uu <- lift (unique_users users) ;;
      let user_records := map (fun kv => drop_none (snd kv)) uu in
      user_count <- bulk_upsert exec "users" user_records "proxy_wallet" 500 ;;
      vs <- lift (valid_trades trades) ;;
      trade_count <- bulk_insert exec "trades" vs 500 ;;
      ret (user_count, trade_count)
  end.

End Loaders.

(** ** Remote data source client *)

(** What one HTTP GET yields: a response with its status and its body
    decoded as JSON ([None]: not valid JSON), a timeout, or another
    transport error. *)
Inductive http_outcome : Type :=
| HttpResponse (status : Z) (body : option pyval)
| HttpTimeout
| HttpError.

(** [response.json()] *)
Definition response_json (body : option pyval) : result pyval :=
  match body with Some v => Ok v | None => Raise ValueError end.

(** Synchronous [get_trades] / [get_events]: [requests.get(url, params)]
    followed by [response.json()], with no status check; transport errors
    propagate. *)
Definition get_trades (resp : http_outcome) : result pyval :=
  match resp with
  | HttpResponse _ body => response_json body
  | HttpTimeout | HttpError => Raise RequestError
  end.

Definition get_events (resp : http_outcome) : result pyval :=
  match resp with
  | HttpResponse _ body => response_json body
  | HttpTimeout | HttpError => Raise RequestError
  end.

(** Asynchronous client: the seconds slept by [asyncio.sleep] and the value
    returned.  A body that fails to decode on status 200 raises inside the
    [try] and is caught by [except Exception]. *)
Definition fetch_trades_async (resp : http_outcome) : list Z * pyval :=
  match resp with
  | HttpResponse status body =>
      if status =? 200 then
        match response_json body with
        | Ok v => ([], v)
        | Raise _ => ([], PList [])
        end
      else if status =? 429 then ([5], PList [])
      else ([], PList [])
  | HttpTimeout => ([], PList [])
  | HttpError => ([], PList [])
  end.

(** [fetch_events_async] (defined twice, identically, in the source). *)
Definition fetch_events_async (resp : http_outcome) : list Z * pyval :=
  match resp with
  | HttpResponse status body =>
      if status =? 200 then
        match response_json body with
        | Ok v => ([], v)
        | Raise _ => ([], PList [])
        end
      else if status =? 429 then ([5], PList [])
      else ([], PList [])
  | HttpTimeout => ([], PList [])
  | HttpError => ([], PList [])
  end.

(** ** Async per-market trade fetch *)

(** Locals of the loop of [fetch_all_trades_for_market]. *)
Record fetch_cursor : Type := mk_fcursor {
  all_trades : list dict;
  f_offset : Z;
  fetches : Z
}.

(** [afetch limit offset] is the page [fetch_trades_async] returns (it never
    raises; errors come back as an empty page). *)
Fixpoint fetch_all_loop (afetch : Z -> Z -> list dict) (batch_size cap : Z)
  (fuel : nat) (c : fetch_cursor) : option fetch_cursor :=
  match fuel with
  | O => None
  | S f =>
      let trades_batch := afetch batch_size (f_offset c) in
      match trades_batch with
      | [] => Some c
      | _ =>
          let c' := mk_fcursor (all_trades c ++ trades_batch)
                               (f_offset c + batch_size) (fetches c + 1) in
          if cap <=? len (all_trades c') then Some c'
          else if len trades_batch <? batch_size then Some c'
          else fetch_all_loop afetch batch_size cap f c'
      end
  end.

Definition fcursor0 : fetch_cursor := mk_fcursor [] 0 0.

(** [fetch_all_trades_for_market(.., batch_size, max_trades_per_market)]
    returning [(all_trades, len(all_trades))]. *)
Definition fetch_all_trades_for_market (afetch : Z -> Z -> list dict)
  (batch_size max_trades_per_market : Z) (fuel : nat) : option (list dict * Z) :=
  match fetch_all_loop afetch batch_size max_trades_per_market fuel fcursor0 with
  | Some c => Some (all_trades c, len (all_trades c))
  | None => None
  end.

(** ** Row retrieval ([supabase_utils.py]) *)

(** [retrieve_all_rows(supabase, table, columns, filters, order_by,
    ascending, batch_size)]: [query lo hi] is
    [query.range(lo, hi).execute().data] for the table, columns, filters and
    order given, or the exception [execute()] raised (there is no [try]).
    [None]: still looping after [fuel] iterations. *)
Fixpoint retrieve_all_rows_loop (query : Z -> Z -> result (list dict)) (batch_size : Z)
  (fuel : nat) (offset : Z) (all_rows : list dict) : option (result (list dict)) :=
  match fuel with
  | O => None
  | S f =>
      match query offset (offset + batch_size - 1) with
      | Raise e => Some (Raise e)
      | Ok [] => Some (Ok all_rows)
      | Ok batch =>
          if len batch <? batch_size then Some (Ok (all_rows ++ batch))
          else retrieve_all_rows_loop query batch_size f (offset + batch_size)
                 (all_rows ++ batch)
      end
  end.

Definition retrieve_all_rows (query : Z -> Z -> result (list dict)) (batch_size : Z)
  (fuel : nat) : option (result (list dict)) :=
  retrieve_all_rows_loop query batch_size fuel 0 [].

(** [set(values)], built element by element: an element equal ([==]) to one
    already in the set is not added, an unhashable one raises [TypeError].
    The iteration order of a Python set is not modelled: the statements
    below are about membership only. *)
Fixpoint py_set_aux (xs acc : list pyval) : result (list pyval) :=
  match xs with
  | [] => Ok acc
  | x :: xs' =>
      match py_key x with
      | Raise e => Raise e
      | Ok _ => py_set_aux xs' (if existsb (same_wallet x) acc then acc else acc ++ [x])
      end
  end.

Definition py_set (xs : list pyval) : result (list pyval) := py_set_aux xs [].

(** [retrieve_all_distinct_values(supabase, table, column_name, filters)]:
    [list(set(row[column_name] for row in rows if row.get(column_name) is
    not None))] over [retrieve_all_rows] with its default batch size. *)
Definition retrieve_all_distinct_values (query : Z -> Z -> result (list dict))
  (column_name : string) (fuel : nat) : option (result (list pyval)) :=
  match retrieve_all_rows query 1000 fuel with
  | None => None
  | Some (Raise e) => Some (Raise e)
  | Some (Ok rows) =>
      Some (py_set (map (fun row => get row column_name)
                        (filter (fun row => negb (is_none (get row column_name))) rows)))
  end.

(** ** Events and markets ([load_data_to_db.py], [init_data.py],
    [init_data_async.py]) *)

(** Iterating a JSON value in a [for] loop: a list gives its elements, a
    dict its keys, a string its one-character strings; anything else raises
    [TypeError]. *)
Definition py_iter (v : pyval) : result (list pyval) :=
  match v with
  | PList l => Ok l
  | PDict d => Ok (map (fun kv => PStr (fst kv)) d)
  | PStr s => Ok (map (fun c => PStr (String c EmptyString)) (list_ascii_of_string s))
  | _ => Raise TypeError
  end.

(** [v.get(..)]: only a dict has [get]. *)
Definition as_dict (v : pyval) : result dict :=
  match v with PDict d => Ok d | _ => Raise AttributeError end.

(** Locals of the events pagination loops. *)
Record events_cursor : Type := mk_ecursor {
  e_offset : Z;
  total_events : Z;
  total_markets : Z
}.

(** [batch_num = 1 if start_offset == 0 else (start_offset // batch_size) + 1] *)
Definition first_batch_num (batch_size start_offset : Z) : result Z :=
  if start_offset =? 0 then Ok 1
  else if batch_size =? 0 then Raise ZeroDivisionError
  else Ok (start_offset / batch_size + 1).

Section MoreLoaders.

Variable exec : op -> option (list dict).

(** [upsert_events]: one upsert per event whose transform succeeds. *)
Definition upsert_events (events : list dict) : M Z :=
  foldM (fun count event =>
           try_ (transformed <- lift (transform_event_data event) ;;
                 let t := drop_none transformed in
                 _ <- execute exec (mk_op "events" (WUpsert "slug") (One t)) ;;
                 ret (count + 1))
                (fun _ => ret count)) 0 events.

(** [upsert_markets(markets, event_id)] (deprecated, kept in the module). *)
Definition upsert_markets (markets : list dict) (event_id : pyval) : M Z :=
  foldM (fun count market =>
           try_ (let t := drop_none (transform_market_data market event_id) in
                 _ <- execute exec (mk_op "markets" (WUpsert "slug") (One t)) ;;
                 ret (count + 1))
                (fun _ => ret count)) 0 markets.

(** One nested market of [load_events_with_markets] and
    [init_load_all_events_with_markets]: the handler's [market.get('slug')]
    raises again on a market that is not a dict. *)
Definition nested_market_step (event_id : pyval) (count : Z) (market : pyval) : M Z :=
  try_ (m <- lift (as_dict market) ;;
        let t := drop_none (transform_market_data m event_id) in
        if negb (truthy (get t "event_id")) then ret count
        else _ <- execute exec (mk_op "markets" (WUpsert "slug") (One t)) ;;
             ret (count + 1))
       (fun _ => _ <- lift (as_dict market) ;; ret count).

(** The nested markets of one event; iterating [markets] is outside the
    [try]. *)
Definition nested_markets (count : Z) (event : dict) : M Z :=
  let event_id := get event "id" in
  let markets := get_or event "markets" (PList []) in
  if negb (truthy markets) then ret count
  else ms <- lift (py_iter markets) ;;
       foldM (nested_market_step event_id) count ms.

(** [load_events_with_markets(limit, active_only)] on what [get_events]
    returned (the decoded events, or the exception it raised); returns
    [(event_count, market_count)]. *)
Definition load_events_with_markets (events : result (list dict)) : M (Z * Z) :=
  evs <- lift events ;;
  event_count <- upsert_events evs ;;
  market_count <- foldM nested_markets 0 evs ;;
  ret (event_count, market_count).

(** One batch of [init_load_all_events_with_markets]; an exception in the
    markets part ends the loop with [total_events] already counting the
    batch's events. *)
Definition events_page_step (fetch : Z -> Z -> result (list dict)) (batch_size : Z)
  (c : events_cursor) : M (step events_cursor) :=
  try_ (events_batch <- lift (fetch batch_size (e_offset c)) ;;
        match events_batch with
        | [] => ret (Break c)
        | _ =>
            event_count <- upsert_events events_batch ;;
            let c1 := mk_ecursor (e_offset c) (total_events c + event_count)
                                 (total_markets c) in
            try_ (batch_markets <- foldM nested_markets 0 events_batch ;;
                  ret (Continue (mk_ecursor (e_offset c + batch_size) (total_events c1)
                                            (total_markets c + batch_markets))))
                 (fun _ => ret (Break c1))
        end)
       (fun _ => ret (Break c)).

Fixpoint events_loop (fetch : Z -> Z -> result (list dict)) (batch_size : Z)
  (fuel : nat) (c : events_cursor) : M (option events_cursor) :=
  match fuel with
  | O => ret None
  | S f =>
      s <- events_page_step fetch batch_size c ;;
      match s with
      | Break c' => ret (Some c')
      | Continue c' => events_loop fetch batch_size f c'
      end
  end.

(** [init_load_all_events_with_markets(batch_size, start_offset)] returning
    [(total_events, total_markets)]. *)
Definition init_load_all_events_with_markets (fetch : Z -> Z -> result (list dict))
  (batch_size start_offset : Z) (fuel : nat) : M (option (Z * Z)) :=
  _ <- lift (first_batch_num batch_size start_offset) ;;
  r <- events_loop fetch batch_size fuel (mk_ecursor start_offset 0 0) ;;
  ret (match r with
       | Some c => Some (total_events c, total_markets c)
       | None => None
       end).

(** The records [upsert_events_batch] collects: a failing transform is
    skipped. *)
Definition event_records (events : list dict) : list dict :=
  flat_map (fun event => match transform_event_data event with
                         | Ok t => [drop_none t]
                         | Raise _ => []
                         end) events.

Definition upsert_events_batch (events : list dict) : M Z :=
  match events with
  | [] => ret 0
  | _ =>
      match event_records events with
      | [] => ret 0
      | records => bulk_upsert exec "events" records "slug" 100
      end
  end.

(** The records [upsert_markets_batch] collects; the handler's
    [market.get('slug')] raises again on a market that is not a dict. *)
Fixpoint market_records (event_id : pyval) (ms : list pyval) : result (list dict) :=
  match ms with
  | [] => Ok []
  | market :: rest =>
      match as_dict market with
      | Raise e => Raise e
      | Ok m =>
          let t := drop_none (transform_market_data m event_id) in
          match market_records event_id rest with
          | Raise e => Raise e
          | Ok rs => Ok (if truthy (get t "event_id") then t :: rs else rs)
          end
      end
  end.

(** [upsert_markets_batch(markets, event_id)] (defined twice, identically,
    in the source). *)
Definition upsert_markets_batch (markets event_id : pyval) : M Z :=
  if negb (truthy markets) then ret 0
  else ms <- lift (py_iter markets) ;;
       records <- lift (market_records event_id ms) ;;
       match records with
       | [] => ret 0
       | _ => bulk_upsert exec "markets" records "slug" 100
       end.

(** One batch of [init_load_all_events_with_markets_async]; [afetch] is
    [fetch_events_async], which never raises. *)
Definition events_async_step (afetch : Z -> Z -> list dict) (batch_size : Z)
  (c : events_cursor) : M (step events_cursor) :=
  let events_batch := afetch batch_size (e_offset c) in
  match events_batch with
  | [] => ret (Break c)
  | _ =>
      try_ (event_count <- upsert_events_batch events_batch ;;
            let c1 := mk_ecursor (e_offset c) (total_events c + event_count)
                                 (total_markets c) in
            try_ (batch_markets <-
                    foldM (fun acc event =>
                             let markets := get_or event "markets" (PList []) in
                             if truthy markets then
                               count <- upsert_markets_batch markets (get event "id") ;;
                               ret (acc + count)
                             else ret acc)
                          0 (filter (fun e => truthy (get e "markets")) events_batch) ;;
                  ret (Continue (mk_ecursor (e_offset c + batch_size) (total_events c1)
                                            (total_markets c + batch_markets))))
                 (fun _ => ret (Break c1)))
           (fun _ => ret (Break c))
  end.

Fixpoint events_async_loop (afetch : Z -> Z -> list dict) (batch_size : Z)
  (fuel : nat) (c : events_cursor) : M (option events_cursor) :=
  match fuel with
  | O => ret None
  | S f =>
      s <- events_async_step afetch batch_size c ;;
      match s with
      | Break c' => ret (Some c')
      | Continue c' => events_async_loop afetch batch_size f c'
      end
  end.

Definition init_load_all_events_with_markets_async (afetch : Z -> Z -> list dict)
  (batch_size start_offset : Z) (fuel : nat) : M (option (Z * Z)) :=
  _ <- lift (first_batch_num batch_size start_offset) ;;
  r <- events_async_loop afetch batch_size fuel (mk_ecursor start_offset 0 0) ;;
  ret (match r with
       | Some c => Some (total_events c, total_markets c)
       | None => None
       end).

(** ** Snapshots ([load_data_to_db.py]) *)

(** The snapshot record of [take_market_snapshot], [now] being
    [datetime.utcnow().isoformat()]. *)
Definition snapshot_record (now : string) (m : dict) : dict :=
  drop_none
    [("condition_id", py_or (get m "conditionId") (get m "condition_id"));
     ("slug", get m "slug");
     ("snapshot_at", PStr now);
     ("outcome_prices", get m "outcomePrices");
     ("best_bid", get m "bestBid");
     ("best_ask", get m "bestAsk");
     ("spread", get m "spread");
     ("last_trade_price", get m "lastTradePrice");
     ("volume_total", py_or (get m "volumeNum") (get m "volume"));
     ("volume_24hr", get m "volume24hr");
     ("liquidity", py_or (get m "liquidityNum") (get m "liquidity"))].

(** [take_market_snapshot(market)]; the handler's [market.get('slug')]
    raises again on a market that is not a dict. *)
Definition take_market_snapshot (now : string) (market : pyval) : M bool :=
  try_ (m <- lift (as_dict market) ;;
        _ <- execute exec (mk_op "market_snapshots" WInsert (One (snapshot_record now m))) ;;
        ret true)
       (fun _ => _ <- lift (as_dict market) ;; ret false).

(** [take_snapshots_for_active_markets()] on what [get_events] returned;
    the clock reading does not matter below, one reading [now] stands for
    all. *)
Definition take_snapshots_for_active_markets (events : result (list dict)) (now : string)
  : M Z :=
  evs <- lift events ;;
  p <- foldM (fun (acc : Z * Z) event =>
                let '(count, total_markets) := acc in
                let markets := get_or event "markets" (PList []) in
                n <- lift (py_len markets) ;;
                ms <- lift (py_iter markets) ;;
                c <- foldM (fun count market =>
                              ok <- take_market_snapshot now market ;;
                              ret (if ok then count + 1 else count)) count ms ;;
                ret (c, total_markets + n)) (0, 0) evs ;;
  ret (fst p).

(** ** The async trade driver ([init_data_async.py]) *)

(** [condition_id[:20]] in the progress lines: strings and lists can be
    sliced, other values raise [TypeError] (ids here come out of a set, so
    they are never lists or dicts). *)
Definition slice_head (v : pyval) : result unit :=
  match v with
  | PStr _ | PList _ => Ok tt
  | _ => Raise TypeError
  end.

(** [process_market_batch] once the concurrent fetches are over: [None] when
    [asyncio.wait_for] timed out, otherwise per market of [markets_batch]
    the [(trades, count)] fetched or [None] for an exception, zipped with
    the batch.  The clock is not modelled (the rate printed for more than
    1000 trades is taken to divide by a nonzero time). *)
Definition process_market_batch (markets_batch : list pyval)
  (results : option (list (option (list dict * Z)))) : M (Z * Z * Z) :=
  match results with
  | None => ret (0, 0, 0)
  | Some rs =>
      foldM (fun (acc : Z * Z * Z) (r : pyval * option (list dict * Z)) =>
               let '(total_users, total_trades, markets_with_trades) := acc in
               match snd r with
               | None => ret acc
               | Some (trades, count) =>
                   _ <- lift (slice_head (fst r)) ;;
                   if 0 <? count then
                     p <- insert_trades_batch exec trades ;;
                     ret (total_users + fst p, total_trades + snd p, markets_with_trades + 1)
                   else ret acc
               end) (0, 0, 0) (combine markets_batch rs)
  end.

(** [init_load_all_trades_async(max_concurrent_markets, markets_per_batch,
    start_market_index)]: the function first calls
    [retrieve_all_distinct_values] on [recent_markets]; [distinct] is the
    outcome of that call, made before anything below ([None]: it did not
    finish; [Raise]: it failed, and the function returns [(0, 0, 0)]).  Its
    reads of storage are not among the requests recorded here.  [run_batch]
    gives the fetch results of a batch of condition ids; the [Semaphore]
    and connection limit sized by [max_concurrent_markets] only bound how
    many of those fetches run at once, so they do not appear.  A
    [markets_per_batch] of [0] makes [range(0, len(condition_ids), 0)]
    raise [ValueError] outside any [try], after the retrieval and before
    any batch is processed. *)
Definition init_load_all_trades_async (distinct : option (result (list pyval)))
  (markets_per_batch : Z) (start_market_index : nat)
  (run_batch : list pyval -> option (list (option (list dict * Z))))
  : M (option (Z * Z * Z)) :=
  match distinct with
  | None => ret None
  | Some (Raise _) => ret (Some (0, 0, 0))
  | Some (Ok ids) =>
      let condition_ids := skipn start_market_index
                             (filter (fun cid => negb (is_none cid)) ids) in
      match condition_ids with
      | [] => ret (Some (0, 0, 0))
      | _ =>
          if markets_per_batch =? 0 then raise ValueError
          else
            let market_batches :=
              if markets_per_batch <? 0 then []
              else chunks (Z.to_nat markets_per_batch) condition_ids in
            r <- foldM (fun (acc : Z * Z * Z) markets_batch =>
                          let '(total_users, total_trades, total_mk) := acc in
                          try_ (p <- process_market_batch markets_batch (run_batch markets_batch) ;;
                                let '(u, t, m) := p in
                                ret (total_users + u, total_trades + t, total_mk + m))
                               (fun _ => ret acc)) (0, 0, 0) market_batches ;;
            ret (Some r)
      end
  end.

End MoreLoaders.

(** ** Specification-side notions *)

Definition payload_records (p : payload) : list dict :=
  match p with Many rs => rs | One r => [r] end.

(** Records not flagged by [bad]. *)
Definition count_good (bad : dict -> bool) (rs : list dict) : Z :=
  len (filter (fun r => negb (bad r)) rs).

(** A backend that rejects every request containing a record flagged by
    [bad] and otherwise writes the request, returning its rows. *)
Definition rejecting_backend (bad : dict -> bool) (o : op) : option (list dict) :=
  if existsb bad (payload_records (op_payload o)) then None
  else Some (payload_records (op_payload o)).

(** The record [insert_trades] and [insert_trades_batch] keep for a raw
    trade: its transformed record without [None]s, when the transformer
    succeeds and the mandatory-field check passes. *)
Definition written_trade (trade : dict) : option dict :=
  match transform_trade_data trade with
  | Ok transformed =>
      let t := drop_none transformed in
      if mandatory_ok t then Some t else None
  | Raise _ => None
  end.

Definition count_written (trades : list dict) : Z :=
  len (filter (fun t => match written_trade t with Some _ => true | None => false end)
              trades).

(** Requests issued by [insert_trades] for one trade. *)
Definition trade_trace (trade : dict) : list event :=
  match written_trade trade with
  | Some t => [EWrite (mk_op "trades" WInsert (One t))]
  | None => []
  end.

(** Requests issued by [upsert_users] for one user. *)
Definition user_trace (user_data : dict) : list event :=
  let u := drop_none user_data in
  if truthy (get u "proxy_wallet")
  then [EWrite (mk_op "users" (WUpsert "proxy_wallet") (One u))]
  else [].

Definition mandatory_fields : list string :=
  ["proxy_wallet"; "side"; "size"; "price"; "timestamp"].

(** Every record sent to the [trades] table in a trace. *)
Definition trade_writes (tr : list event) : list dict :=
  flat_map (fun e => match e with
                     | EWrite o => if String.eqb (op_table o) "trades"
                                   then payload_records (op_payload o) else []
                     | EFetch _ _ => []
                     end) tr.

(** Wallets of the user records an event upserts, and of the trade records
    it inserts. *)
Definition user_wallets (e : event) : list pyval :=
  match e with
  | EWrite o =>
      match op_mode o with
      | WUpsert _ =>
          if String.eqb (op_table o) "users"
          then map (fun u => get u "proxy_wallet") (payload_records (op_payload o))
          else []
      | WInsert => []
      end
  | EFetch _ _ => []
  end.

Definition trade_wallets (e : event) : list pyval :=
  match e with
  | EWrite o =>
      if String.eqb (op_table o) "trades"
      then map (fun r => get r "proxy_wallet") (payload_records (op_payload o))
      else []
  | EFetch _ _ => []
  end.

(** Every trade request is preceded, strictly earlier in the trace, by a
    user upsert whose record has an equal ([==]) wallet. *)
Fixpoint users_before_trades_from (seen : list pyval) (tr : list event) : bool :=
  match tr with
  | [] => true
  | e :: tr' =>
      forallb (fun w => existsb (same_wallet w) seen) (trade_wallets e)
      && users_before_trades_from (seen ++ user_wallets e) tr'
  end.

Definition users_before_trades (tr : list event) : bool :=
  users_before_trades_from [] tr.

(** A synthetic trade source serving a fixed list of pages: the page at
    [offset / limit], and the empty page past the end. *)
Definition page_source (pages : list (list dict)) (limit offset : Z)
  : result (list dict) :=
  Ok (nth (Z.to_nat (offset / limit)) pages []).

(** The pages the per-market loop reads: up to and including the first one
    shorter than the batch size (the empty page past the end included). *)
Fixpoint pages_read (bs : Z) (pages : list (list dict)) : list (list dict) :=
  match pages with
  | [] => [[]]
  | p :: ps => if len p <? bs then [p] else p :: pages_read bs ps
  end.

Definition sum_written (pages : list (list dict)) : Z :=
  fold_right (fun p s => count_written p + s) 0 pages.

(** Offsets of the page requests of a trace. *)
Definition fetch_offsets (tr : list event) : list Z :=
  flat_map (fun e => match e with EFetch _ o => [o] | EWrite _ => [] end) tr.

(** A table served by ranges: [query.range(lo, hi)] returns the rows
    [lo..hi] (both included) of [rows]. *)
Definition range_source (rows : list dict) (lo hi : Z) : result (list dict) :=
  Ok (firstn (Z.to_nat (hi - lo + 1)) (skipn (Z.to_nat lo) rows)).

(** The write requests of a trace that the backend accepts. *)
Definition accepted (exec : op -> option (list dict)) (tr : list event) : Z :=
  len (filter (fun e => match e with
                        | EWrite o => match exec o with Some _ => true | None => false end
                        | EFetch _ _ => false
                        end) tr).

(** The requests that go to a table. *)
Definition writes_to (table : string) (e : event) : Prop :=
  match e with EWrite o => op_table o = table | EFetch _ _ => False end.

(** A market write whose every record carries a truthy [event_id]
    satisfying [P]. *)
Definition market_write_ok (P : pyval -> Prop) (e : event) : Prop :=
  match e with
  | EWrite o =>
      op_table o = "markets" /\
      Forall (fun r => truthy (get r "event_id") = true /\ P (get r "event_id"))
             (payload_records (op_payload o))
  | EFetch _ _ => False
  end.

(** Trade-page requests of at most 100 rows within the first [limit]
    rows. *)
Definition fetch_within (limit : Z) (e : event) : Prop :=
  match e with
  | EFetch l o => 0 <= o /\ 0 < l <= 100 /\ o + l <= limit
  | EWrite _ => True
  end.

(** The number of page requests of a trace. *)
Definition fetch_count (tr : list event) : Z :=
  len (filter (fun e => match e with EFetch _ _ => true | EWrite _ => false end) tr).

(** ** Auxiliary definitions of the proofs *)

(** [pure_trace m]: [m] appends its requests to the trace it is given,
    independently of what was there before. *)

Definition pure_trace {A} (m : M A) : Prop :=
  forall tr, m tr = (tr ++ fst (m []), snd (m [])).

(** A pure computation whose own requests keep users before trades. *)
Definition ubt_comp {A} (m : M A) : Prop :=
  pure_trace m /\ users_before_trades (fst (m [])) = true.

(** Sample records for the concrete runs below. *)
Definition sample_trade (i : Z) : dict :=
  [("proxyWallet", PStr "0xa11ce"); ("side", PStr "BUY"); ("size", PInt 10);
   ("price", PInt 1); ("timestamp", PInt (1700000000 + i))].

Definition sample_trades (n : nat) : list dict :=
  map (fun i => sample_trade (Z.of_nat i)) (seq 0 n).

Definition malformed : dict := [("malformed", PBool true)].

Definition is_malformed (r : dict) : bool :=
  match dict_lookup r "malformed" with Some _ => true | None => false end.

(** A source that always answers with a full page of [limit] trades. *)
Definition full_pages (limit offset : Z) : list dict :=
  map (fun i => sample_trade (offset + Z.of_nat i)) (seq 0 (Z.to_nat limit)).

(** ** Request traces of the bulk writer *)

Definition one_by_one_trace (table : string) (mode : wmode) (rs : list dict)
  : list event :=
  map (fun r => EWrite (mk_op table mode (One r))) rs.

(** Requests of one 100-record sub-chunk of [bulk_insert]: the sub-chunk,
    then its records one by one only if the sub-chunk request failed. *)
Definition subchunk_trace (exec : op -> option (list dict)) (table : string)
  (small : list dict) : list event :=
  EWrite (mk_op table WInsert (Many small)) ::
  match exec (mk_op table WInsert (Many small)) with
  | Some _ => []
  | None => one_by_one_trace table WInsert small
  end.

(** Requests of one chunk of [bulk_insert]: the chunk, then on failure its
    100-record sub-chunks (more than 100 records) or its records one by one. *)
Definition insert_chunk_trace (exec : op -> option (list dict)) (table : string)
  (c : list dict) : list event :=
  EWrite (mk_op table WInsert (Many c)) ::
  match exec (mk_op table WInsert (Many c)) with
  | Some _ => []
  | None =>
      if 100 <? len c then List.concat (map (subchunk_trace exec table) (chunks 100 c))
      else one_by_one_trace table WInsert c
  end.

(** Requests of one chunk of [bulk_upsert]: the chunk, then on failure its
    records one by one. *)
Definition upsert_chunk_trace (exec : op -> option (list dict)) (table oc : string)
  (c : list dict) : list event :=
  EWrite (mk_op table (WUpsert oc) (Many c)) ::
  match exec (mk_op table (WUpsert oc) (Many c)) with
  | Some _ => []
  | None => one_by_one_trace table (WUpsert oc) c
  end.

(** The wallet table of [unique_users]: every entry holds a record
    satisfying [Q] whose truthy wallet hashes to a key equal to the entry's;
    [uu_cover u acc]: the wallet of [u] hashes to a key equal to an entry's. *)
Definition uu_inv (Q : dict -> Prop) (acc : list (pyval * dict)) : Prop :=
  forall kv, In kv acc ->
    Q (snd kv) /\ truthy (get (snd kv) "proxy_wallet") = true
    /\ exists k0, py_key (get (snd kv) "proxy_wallet") = Ok k0 /\ key_eqb k0 (fst kv) = true.

Definition uu_cover (u : dict) (acc : list (pyval * dict)) : Prop :=
  exists kv k1, In kv acc /\ py_key (get u "proxy_wallet") = Ok k1
                /\ key_eqb k1 (fst kv) = true.

(** [trace_all P m]: a pure computation all of whose own requests satisfy
    [P]. *)
Definition trace_all {A} (P : event -> Prop) (m : M A) : Prop :=
  pure_trace m /\ Forall P (fst (m [])).

(** [counts exec proj m]: a pure computation whose result, when it returns,
    has grown [proj] by the number of its accepted requests. *)
Definition counts {A} (exec : op -> option (list dict)) (proj : A -> Z) (base : Z)
  (m : M A) : Prop :=
  pure_trace m /\ forall a, snd (m []) = Ok a -> proj a = base + accepted exec (fst (m [])).

(** Duplicate-free lists of keys, decided. *)
Fixpoint nodupb (l : list string) : bool :=
  match l with
  | [] => true
  | x :: xs => negb (existsb (String.eqb x) xs) && nodupb xs
  end.

(** The loop bodies of [upsert_events] and [upsert_markets]. *)
Definition upsert_event_step (exec : op -> option (list dict)) (count : Z) (event : dict)
  : M Z :=
  try_ (transformed <- lift (transform_event_data event) ;;
        let t := drop_none transformed in
        _ <- execute exec (mk_op "events" (WUpsert "slug") (One t)) ;;
        ret (count + 1))
       (fun _ => ret count).

Definition upsert_market_step (exec : op -> option (list dict)) (event_id : pyval)
  (count : Z) (market : dict) : M Z :=
  try_ (let t := drop_none (transform_market_data market event_id) in
        _ <- execute exec (mk_op "markets" (WUpsert "slug") (One t)) ;;
        ret (count + 1))
       (fun _ => ret count).

(** The id of an event some page of [fetch] (or of [afetch]) returned. *)
Definition fetched_event_id (fetch : Z -> Z -> result (list dict)) (batch_size : Z)
  (v : pyval) : Prop :=
  exists offset evs ev, fetch batch_size offset = Ok evs /\ In ev evs /\ get ev "id" = v.

Definition afetched_event_id (afetch : Z -> Z -> list dict) (batch_size : Z)
  (v : pyval) : Prop :=
  exists offset ev, In ev (afetch batch_size offset) /\ get ev "id" = v.

(** A request of the event loaders: an upsert into the events table, or a
    market write whose records carry the id of an event fetched. *)
Definition upsert_into (table on_conflict : string) (e : event) : Prop :=
  match e with
  | EWrite o => op_table o = table /\ op_mode o = WUpsert on_conflict
  | EFetch _ _ => False
  end.

Definition loader_request (P : pyval -> Prop) (e : event) : Prop :=
  upsert_into "events" "slug" e \/ market_write_ok P e.

(** A request of the snapshot loader: the insert of the snapshot record
    of some market. *)
Definition snapshot_insert (now : string) (e : event) : Prop :=
  exists m, e = EWrite (mk_op "market_snapshots" WInsert (One (snapshot_record now m))).

(** The loop bodies of [process_market_batch] and of the batch loop of
    [init_load_all_trades_async]. *)
Definition process_result_step (exec : op -> option (list dict)) (acc : Z * Z * Z)
  (r : pyval * option (list dict * Z)) : M (Z * Z * Z) :=
  let '(total_users, total_trades, markets_with_trades) := acc in
  match snd r with
  | None => ret acc
  | Some (trades, count) =>
      _ <- lift (slice_head (fst r)) ;;
      if 0 <? count then
        p <- insert_trades_batch exec trades ;;
        ret (total_users + fst p, total_trades + snd p, markets_with_trades + 1)
      else ret acc
  end.

Definition trades_batch_step (exec : op -> option (list dict))
  (run_batch : list pyval -> option (list (option (list dict * Z))))
  (acc : Z * Z * Z) (markets_batch : list pyval) : M (Z * Z * Z) :=
  let '(total_users, total_trades, total_mk) := acc in
  try_ (p <- process_market_batch exec markets_batch (run_batch markets_batch) ;;
        let '(u, t, m) := p in
        ret (total_users + u, total_trades + t, total_mk + m))
       (fun _ => ret acc).

(** A market whose fetch succeeded with a positive trade count. *)
Definition positive_result (r : pyval * option (list dict * Z)) : bool :=
  match snd r with Some (_, c) => 0 <? c | None => false end.

Definition is_write (e : event) : Prop :=
  match e with EWrite _ => True | EFetch _ _ => False end.

(** [m] issues at most [n] page requests. *)
Definition fetches_le {A} (n : Z) (m : M A) : Prop :=
  pure_trace m /\ fetch_count (fst (m [])) <= n.

(** * Facts *)

Lemma rejecting_backend_eq bad t m p :
  rejecting_backend bad (mk_op t m p)
  = if existsb bad (payload_records p) then None else Some (payload_records p).
Proof. reflexivity. Qed.

Lemma try_err {A} (m : M A) h tr tr' e :
  m tr = (tr', Raise e) -> try_ m h tr = h e tr'.
Proof. intros E. unfold try_. rewrite E. reflexivity. Qed.

Lemma try_ok {A} (m : M A) h tr tr' a :
  m tr = (tr', Ok a) -> try_ m h tr = (tr', Ok a).
Proof. intros E. unfold try_. rewrite E. reflexivity. Qed.

Lemma bind_ok {A B} (m : M A) (k : A -> M B) tr tr' a :
  m tr = (tr', Ok a) -> bind m k tr = k a tr'.
Proof. intros E. unfold bind. rewrite E. reflexivity. Qed.

Lemma bind_err {A B} (m : M A) (k : A -> M B) tr tr' e :
  m tr = (tr', Raise e) -> bind m k tr = (tr', Raise e).
Proof. intros E. unfold bind. rewrite E. reflexivity. Qed.

(** Unfold the monad plumbing, leaving the program's functions folded. *)
Ltac mstep :=
  cbv beta iota zeta delta [try_ bind execute ret raise lift];
  try rewrite !rejecting_backend_eq; cbn [payload_records].

Lemma foldM_sum {A} (f : Z -> A -> M Z) (h : A -> Z) :
  (forall n x tr, exists tr', f n x tr = (tr', Ok (n + h x))) ->
  forall xs n tr, exists tr',
    foldM f n xs tr = (tr', Ok (n + fold_right (fun x s => h x + s) 0 xs)).
Proof.
  intros Hf xs. induction xs as [|x xs IH]; intros n tr; simpl.
  - exists tr. unfold ret. f_equal. f_equal. lia.
  - unfold bind. destruct (Hf n x tr) as [tr1 E]. rewrite E.
    destruct (IH (n + h x) tr1) as [tr2 E2]. rewrite E2.
    exists tr2. f_equal. f_equal. lia.
Qed.

Lemma chunks_aux_concat {A} (k : nat) (l : list A) fuel :
  (1 <= k)%nat -> (List.length l <= fuel)%nat ->
  List.concat (chunks_aux fuel k l) = l.
Proof.
  revert l. induction fuel as [|f IH]; intros l Hk Hl; simpl.
  - destruct l; simpl in *; [reflexivity | lia].
  - destruct l as [|a l'] eqn:El; [reflexivity|].
    rewrite <- El. simpl. rewrite IH; auto.
    + apply firstn_skipn.
    + rewrite length_skipn. subst l. cbn [List.length] in *. lia.
Qed.

Lemma chunks_concat {A} (k : nat) (l : list A) :
  (1 <= k)%nat -> List.concat (chunks k l) = l.
Proof. intros Hk. unfold chunks. apply chunks_aux_concat; auto. Qed.

Lemma count_good_app bad a b :
  count_good bad (a ++ b) = count_good bad a + count_good bad b.
Proof. unfold count_good, len. rewrite filter_app, length_app. lia. Qed.

Lemma count_good_concat bad (ls : list (list dict)) :
  count_good bad (List.concat ls) = fold_right (fun x s => count_good bad x + s) 0 ls.
Proof.
  induction ls as [|l ls IH]; simpl; [reflexivity|].
  rewrite count_good_app, IH. reflexivity.
Qed.

Lemma count_good_clean bad rs :
  existsb bad rs = false -> count_good bad rs = len rs.
Proof.
  intros H. unfold count_good, len. f_equal. f_equal.
  induction rs as [|r rs IH]; simpl in *; [reflexivity|].
  apply orb_false_iff in H as [H1 H2]. rewrite H1. simpl. f_equal. auto.
Qed.

Section Rejecting.
Variable bad : dict -> bool.

Lemma one_by_one_rejecting table rs tr :
  exists tr', insert_one_by_one (rejecting_backend bad) table rs tr = (tr', Ok (count_good bad rs)).
Proof.
  unfold insert_one_by_one.
  assert (Hstep : forall n r tr, exists tr',
    insert_one (rejecting_backend bad) table n r tr = (tr', Ok (n + count_good bad [r]))).
  { intros n0 r tr0. unfold insert_one. mstep.
    unfold count_good, len. simpl.
    destruct (bad r); simpl; eexists; f_equal; f_equal; lia. }
  assert (Hsum : fold_right (fun r s => count_good bad [r] + s) 0 rs = count_good bad rs).
  { induction rs as [|r rs IH]; simpl; [reflexivity|].
    rewrite IH. change (r :: rs) with ([r] ++ rs). rewrite count_good_app. reflexivity. }
  destruct (foldM_sum _ (fun r => count_good bad [r]) Hstep rs 0 tr) as [tr' E].
  exists tr'. rewrite Hsum, Z.add_0_l in E. exact E.
Qed.

Lemma chunk_count_self (c : list dict) : chunk_count c c = len c.
Proof. destruct c; reflexivity. Qed.

Lemma small_chunk_rejecting table n small tr :
  exists tr', insert_small_chunk (rejecting_backend bad) table n small tr
              = (tr', Ok (n + count_good bad small)).
Proof.
  unfold insert_small_chunk.
  set (tr1 := tr ++ [EWrite (mk_op table WInsert (Many small))]).
  destruct (existsb bad small) eqn:Es.
  - rewrite (try_err _ _ _ tr1 StorageError)
      by (mstep; rewrite Es; reflexivity).
    destruct (one_by_one_rejecting table small tr1) as [tr2 E2].
    rewrite (bind_ok _ _ _ _ _ E2). eexists. reflexivity.
  - exists tr1. apply try_ok. mstep. rewrite Es.
    rewrite chunk_count_self, count_good_clean by assumption. reflexivity.
Qed.

Lemma insert_chunk_rejecting table chunk tr :
  exists tr', insert_chunk (rejecting_backend bad) table chunk tr = (tr', Ok (count_good bad chunk)).
Proof.
  unfold insert_chunk.
  set (tr1 := tr ++ [EWrite (mk_op table WInsert (Many chunk))]).
  destruct (existsb bad chunk) eqn:Eb.
  - rewrite (try_err _ _ _ tr1 StorageError)
      by (mstep; rewrite Eb; reflexivity).
    destruct (100 <? len chunk).
    + destruct (foldM_sum _ _ (small_chunk_rejecting table) (chunks 100 chunk) 0 tr1)
        as [tr2 E2].
      exists tr2. rewrite <- count_good_concat, chunks_concat, Z.add_0_l in E2 by lia.
      exact E2.
    + apply one_by_one_rejecting.
  - exists tr1. apply try_ok. mstep. rewrite Eb.
    rewrite chunk_count_self, count_good_clean by assumption. reflexivity.
Qed.

Lemma bulk_insert_rejecting table records chunk_size tr :
  0 < chunk_size ->
  exists tr', bulk_insert (rejecting_backend bad) table records chunk_size tr
              = (tr', Ok (count_good bad records)).
Proof.
  intros Hcs. unfold bulk_insert.
  destruct records as [|r0 rs0] eqn:Er.
  - eexists. reflexivity.
  - rewrite <- Er.
    replace (chunk_size =? 0) with false by lia.
    replace (chunk_size <? 0) with false by lia.
    assert (Hs : forall n c tr0, exists tr1,
      insert_chunk_acc (rejecting_backend bad) table n c tr0 = (tr1, Ok (n + count_good bad c))).
    { intros n c tr0. destruct (insert_chunk_rejecting table c tr0) as [tr1 E1].
      unfold insert_chunk_acc. rewrite (bind_ok _ _ _ _ _ E1). eexists. reflexivity. }
    destruct (foldM_sum _ (count_good bad) Hs
                (chunks (Z.to_nat chunk_size) records) 0 tr) as [tr' E].
    exists tr'. rewrite <- count_good_concat, chunks_concat, Z.add_0_l in E by lia.
    exact E.
Qed.

End Rejecting.

Lemma count_good_split bad rs :
  count_good bad rs = len rs - len (filter bad rs).
Proof.
  unfold count_good, len.
  induction rs as [|r rs IH]; cbn [filter]; [reflexivity|].
  destruct (bad r); cbn [filter negb List.length]; rewrite ?Nat2Z.inj_succ; lia.
Qed.

(** ** Traces only grow

    Every computation of the model appends its requests to the trace it is
    given, independently of what was there before. *)

Lemma pure_ret {A} (a : A) : pure_trace (ret a).
Proof. intros tr. unfold ret. simpl. rewrite app_nil_r. reflexivity. Qed.

Lemma pure_raise {A} (e : exn) : pure_trace (@raise A e).
Proof. intros tr. unfold raise. simpl. rewrite app_nil_r. reflexivity. Qed.

Lemma pure_lift {A} (r : result A) : pure_trace (lift r).
Proof. intros tr. unfold lift. simpl. rewrite app_nil_r. reflexivity. Qed.

Lemma pure_execute exec o : pure_trace (execute exec o).
Proof. intros tr. reflexivity. Qed.

Lemma pure_bind {A B} (m : M A) (k : A -> M B) :
  pure_trace m -> (forall a, pure_trace (k a)) -> pure_trace (bind m k).
Proof.
  intros Hm Hk tr. unfold bind.
  rewrite (Hm tr). destruct (m []) as [t1 r1] eqn:E1. simpl.
  destruct r1 as [a|e]; simpl.
  - rewrite (Hk a (tr ++ t1)), (Hk a t1). simpl. rewrite app_assoc. reflexivity.
  - reflexivity.
Qed.

Lemma pure_try {A} (m : M A) (h : exn -> M A) :
  pure_trace m -> (forall e, pure_trace (h e)) -> pure_trace (try_ m h).
Proof.
  intros Hm Hh tr. unfold try_.
  rewrite (Hm tr). destruct (m []) as [t1 r1] eqn:E1. simpl.
  destruct r1 as [a|e]; simpl.
  - reflexivity.
  - rewrite (Hh e (tr ++ t1)), (Hh e t1). simpl. rewrite app_assoc. reflexivity.
Qed.

Lemma pure_foldM {A S} (f : S -> A -> M S) :
  (forall s x, pure_trace (f s x)) -> forall xs s, pure_trace (foldM f s xs).
Proof.
  intros Hf xs. induction xs as [|x xs IH]; intros s; simpl.
  - apply pure_ret.
  - apply pure_bind; auto.
Qed.

Create HintDb traces.
#[local] Hint Resolve pure_ret pure_raise pure_lift pure_execute pure_bind pure_try
  pure_foldM : traces.

Ltac pure_auto :=
  repeat (intros; first
    [ apply pure_bind | apply pure_try | apply pure_foldM | apply pure_ret
    | apply pure_raise | apply pure_lift | apply pure_execute
    | match goal with |- pure_trace (if ?c then _ else _) => destruct c end
    | match goal with |- pure_trace (match ?x with _ => _ end) => destruct x end ]).

(** A loop whose body always succeeds, with a trace not depending on the
    accumulator, issues the bodies' requests in order. *)
Lemma foldM_trace {A S} (f : S -> A -> M S) (g : A -> list event) :
  (forall s x, pure_trace (f s x)) ->
  (forall s x, fst (f s x []) = g x /\ exists s', snd (f s x []) = Ok s') ->
  forall xs s, fst (foldM f s xs []) = List.concat (map g xs)
               /\ exists s', snd (foldM f s xs []) = Ok s'.
Proof.
  intros Hp Hg xs. induction xs as [|x xs IH]; intros s; simpl.
  - split; [reflexivity | eexists; reflexivity].
  - unfold bind. destruct (Hg s x) as [Ht [s' Hs]].
    destruct (f s x []) as [t1 r1] eqn:E. simpl in Ht, Hs. subst.
    rewrite (pure_foldM f Hp xs s' (g x)).
    destruct (IH s') as [IHt IHs]. simpl. rewrite IHt. split; [reflexivity|exact IHs].
Qed.

Section BulkTraces.
Variable exec : op -> option (list dict).

Lemma pure_insert_one table n r : pure_trace (insert_one exec table n r).
Proof. unfold insert_one. pure_auto. Qed.

Lemma pure_insert_one_by_one table rs : pure_trace (insert_one_by_one exec table rs).
Proof. apply pure_foldM. intros. apply pure_insert_one. Qed.

Lemma pure_insert_small_chunk table n small :
  pure_trace (insert_small_chunk exec table n small).
Proof.
  unfold insert_small_chunk. apply pure_try; [pure_auto|].
  intros. apply pure_bind; [apply pure_insert_one_by_one | intros; apply pure_ret].
Qed.

Lemma pure_insert_chunk table c : pure_trace (insert_chunk exec table c).
Proof.
  unfold insert_chunk. apply pure_try; [pure_auto|].
  intros. destruct (100 <? len c).
  - apply pure_foldM. intros. apply pure_insert_small_chunk.
  - apply pure_insert_one_by_one.
Qed.

Lemma pure_upsert_one table oc n r : pure_trace (upsert_one exec table oc n r).
Proof. unfold upsert_one. pure_auto. Qed.

Lemma pure_upsert_chunk table oc c : pure_trace (upsert_chunk exec table oc c).
Proof.
  unfold upsert_chunk. apply pure_try; [pure_auto|].
  intros. apply pure_foldM. intros. apply pure_upsert_one.
Qed.

Lemma concat_map_single {A B} (f : A -> B) (l : list A) :
  List.concat (map (fun x => [f x]) l) = map f l.
Proof. induction l; simpl; congruence. Qed.

Lemma one_by_one_run table rs :
  fst (insert_one_by_one exec table rs []) = one_by_one_trace table WInsert rs
  /\ exists k, snd (insert_one_by_one exec table rs []) = Ok k.
Proof.
  unfold insert_one_by_one, one_by_one_trace.
  rewrite <- concat_map_single.
  apply foldM_trace.
  - intros. apply pure_insert_one.
  - intros s x. unfold insert_one. mstep. destruct (exec _); simpl; split; eauto.
Qed.

Lemma upsert_one_by_one_run table oc rs :
  fst (foldM (upsert_one exec table oc) 0 rs []) = one_by_one_trace table (WUpsert oc) rs
  /\ exists k, snd (foldM (upsert_one exec table oc) 0 rs []) = Ok k.
Proof.
  unfold one_by_one_trace.
  rewrite <- concat_map_single.
  apply foldM_trace.
  - intros. apply pure_upsert_one.
  - intros s x. unfold upsert_one. mstep. destruct (exec _); simpl; split; eauto.
Qed.

Lemma small_chunk_run table n small :
  fst (insert_small_chunk exec table n small []) = subchunk_trace exec table small
  /\ exists k, snd (insert_small_chunk exec table n small []) = Ok k.
Proof.
  unfold insert_small_chunk, subchunk_trace.
  destruct (exec (mk_op table WInsert (Many small))) eqn:Ex.
  - rewrite (try_ok _ _ [] [EWrite (mk_op table WInsert (Many small))]
               (n + chunk_count small l)) by (mstep; rewrite Ex; reflexivity).
    simpl. split; eauto.
  - rewrite (try_err _ _ [] [EWrite (mk_op table WInsert (Many small))] StorageError)
      by (mstep; rewrite Ex; reflexivity).
    destruct (one_by_one_run table small) as [Ht [k Hk]].
    pose proof (pure_insert_one_by_one table small
                  [EWrite (mk_op table WInsert (Many small))]) as P.
    rewrite Ht, Hk in P. unfold bind. rewrite P. simpl. split; eauto.
Qed.

(** The requests of a chunk of [bulk_insert] whose whole-chunk request
    failed. *)
Lemma insert_chunk_failed_run table c :
  exec (mk_op table WInsert (Many c)) = None ->
  fst (insert_chunk exec table c [])
  = EWrite (mk_op table WInsert (Many c)) ::
    (if 100 <? len c then List.concat (map (subchunk_trace exec table) (chunks 100 c))
     else one_by_one_trace table WInsert c)
  /\ exists k, snd (insert_chunk exec table c []) = Ok k.
Proof.
  intros Ex. unfold insert_chunk.
  rewrite (try_err _ _ [] [EWrite (mk_op table WInsert (Many c))] StorageError)
    by (mstep; rewrite Ex; reflexivity).
  destruct (100 <? len c).
  - pose proof (pure_foldM _ (pure_insert_small_chunk table) (chunks 100 c) 0
                  [EWrite (mk_op table WInsert (Many c))]) as P.
    destruct (foldM_trace _ (subchunk_trace exec table) (pure_insert_small_chunk table)
                (small_chunk_run table) (chunks 100 c) 0) as [Ht [k Hk]].
    rewrite Ht, Hk in P. rewrite P. simpl. eauto.
  - pose proof (pure_insert_one_by_one table c
                  [EWrite (mk_op table WInsert (Many c))]) as P.
    destruct (one_by_one_run table c) as [Ht [k Hk]].
    rewrite Ht, Hk in P. rewrite P. simpl. eauto.
Qed.

Lemma insert_chunk_ok table c : exists k, snd (insert_chunk exec table c []) = Ok k.
Proof.
  destruct (exec (mk_op table WInsert (Many c))) eqn:Ex.
  - unfold insert_chunk.
    rewrite (try_ok _ _ [] [EWrite (mk_op table WInsert (Many c))] (chunk_count c l))
      by (mstep; rewrite Ex; reflexivity).
    simpl; eauto.
  - apply (insert_chunk_failed_run table c Ex).
Qed.

Lemma upsert_chunk_failed_run table oc c :
  exec (mk_op table (WUpsert oc) (Many c)) = None ->
  fst (upsert_chunk exec table oc c [])
  = EWrite (mk_op table (WUpsert oc) (Many c)) :: one_by_one_trace table (WUpsert oc) c
  /\ exists k, snd (upsert_chunk exec table oc c []) = Ok k.
Proof.
  intros Ex. unfold upsert_chunk.
  rewrite (try_err _ _ [] [EWrite (mk_op table (WUpsert oc) (Many c))] StorageError)
    by (mstep; rewrite Ex; reflexivity).
  pose proof (pure_foldM _ (pure_upsert_one table oc) c 0
                [EWrite (mk_op table (WUpsert oc) (Many c))]) as P.
  destruct (upsert_one_by_one_run table oc c) as [Ht [k Hk]].
  rewrite Ht, Hk in P. rewrite P. simpl. eauto.
Qed.

Lemma upsert_chunk_ok table oc c : exists k, snd (upsert_chunk exec table oc c []) = Ok k.
Proof.
  destruct (exec (mk_op table (WUpsert oc) (Many c))) eqn:Ex.
  - unfold upsert_chunk.
    rewrite (try_ok _ _ [] [EWrite (mk_op table (WUpsert oc) (Many c))] (chunk_count c l))
      by (mstep; rewrite Ex; reflexivity).
    simpl; eauto.
  - apply (upsert_chunk_failed_run table oc c Ex).
Qed.

Lemma pure_insert_chunk_acc table n c : pure_trace (insert_chunk_acc exec table n c).
Proof.
  unfold insert_chunk_acc. apply pure_bind; [apply pure_insert_chunk | intros; apply pure_ret].
Qed.

Lemma pure_upsert_chunk_acc table oc n c : pure_trace (upsert_chunk_acc exec table oc n c).
Proof.
  unfold upsert_chunk_acc. apply pure_bind; [apply pure_upsert_chunk | intros; apply pure_ret].
Qed.

Lemma insert_chunk_acc_run table n c :
  fst (insert_chunk_acc exec table n c []) = fst (insert_chunk exec table c [])
  /\ exists k, snd (insert_chunk_acc exec table n c []) = Ok k.
Proof.
  unfold insert_chunk_acc, bind.
  destruct (insert_chunk_ok table c) as [k Hk].
  destruct (insert_chunk exec table c []) as [t r]. simpl in Hk. subst. simpl. eauto.
Qed.

Lemma upsert_chunk_acc_run table oc n c :
  fst (upsert_chunk_acc exec table oc n c []) = fst (upsert_chunk exec table oc c [])
  /\ exists k, snd (upsert_chunk_acc exec table oc n c []) = Ok k.
Proof.
  unfold upsert_chunk_acc, bind.
  destruct (upsert_chunk_ok table oc c) as [k Hk].
  destruct (upsert_chunk exec table oc c []) as [t r]. simpl in Hk. subst. simpl. eauto.
Qed.

Lemma bulk_insert_run table records chunk_size :
  0 < chunk_size ->
  fst (bulk_insert exec table records chunk_size [])
  = List.concat (map (fun c => fst (insert_chunk exec table c []))
                     (chunks (Z.to_nat chunk_size) records))
  /\ exists k, snd (bulk_insert exec table records chunk_size []) = Ok k.
Proof.
  intros Hcs. unfold bulk_insert.
  destruct records as [|r0 rs0] eqn:Er; [simpl; eauto|]. rewrite <- Er.
  replace (chunk_size =? 0) with false by lia.
  replace (chunk_size <? 0) with false by lia.
  apply foldM_trace; [apply pure_insert_chunk_acc | apply insert_chunk_acc_run].
Qed.

Lemma bulk_upsert_run table records oc chunk_size :
  0 < chunk_size ->
  fst (bulk_upsert exec table records oc chunk_size [])
  = List.concat (map (fun c => fst (upsert_chunk exec table oc c []))
                     (chunks (Z.to_nat chunk_size) records))
  /\ exists k, snd (bulk_upsert exec table records oc chunk_size []) = Ok k.
Proof.
  intros Hcs. unfold bulk_upsert.
  destruct records as [|r0 rs0] eqn:Er; [simpl; eauto|]. rewrite <- Er.
  replace (chunk_size =? 0) with false by lia.
  replace (chunk_size <? 0) with false by lia.
  apply foldM_trace; [apply pure_upsert_chunk_acc | apply upsert_chunk_acc_run].
Qed.

Lemma insert_chunk_run table c :
  fst (insert_chunk exec table c []) = insert_chunk_trace exec table c.
Proof.
  unfold insert_chunk_trace.
  destruct (exec (mk_op table WInsert (Many c))) eqn:Ex.
  - unfold insert_chunk.
    rewrite (try_ok _ _ [] [EWrite (mk_op table WInsert (Many c))] (chunk_count c l))
      by (mstep; rewrite Ex; reflexivity).
    reflexivity.
  - apply (proj1 (insert_chunk_failed_run table c Ex)).
Qed.

Lemma upsert_chunk_run table oc c :
  fst (upsert_chunk exec table oc c []) = upsert_chunk_trace exec table oc c.
Proof.
  unfold upsert_chunk_trace.
  destruct (exec (mk_op table (WUpsert oc) (Many c))) eqn:Ex.
  - unfold upsert_chunk.
    rewrite (try_ok _ _ [] [EWrite (mk_op table (WUpsert oc) (Many c))] (chunk_count c l))
      by (mstep; rewrite Ex; reflexivity).
    reflexivity.
  - apply (proj1 (upsert_chunk_failed_run table oc c Ex)).
Qed.

End BulkTraces.

(** ** Records of the bulk writer's requests *)

Lemma chunks_incl {A} (k : nat) (l c : list A) :
  (1 <= k)%nat -> In c (chunks k l) -> incl c l.
Proof.
  intros Hk Hc x Hx. rewrite <- (chunks_concat k l Hk).
  apply in_concat. eauto.
Qed.

Lemma pure_bulk_insert exec table rs cs : pure_trace (bulk_insert exec table rs cs).
Proof.
  unfold bulk_insert. destruct rs; [apply pure_ret|].
  destruct (cs =? 0); [apply pure_raise|]. destruct (cs <? 0); [apply pure_ret|].
  apply pure_foldM. intros. apply pure_insert_chunk_acc.
Qed.

Lemma pure_bulk_upsert exec table rs oc cs : pure_trace (bulk_upsert exec table rs oc cs).
Proof.
  unfold bulk_upsert. destruct rs; [apply pure_ret|].
  destruct (cs =? 0); [apply pure_raise|]. destruct (cs <? 0); [apply pure_ret|].
  apply pure_foldM. intros. apply pure_upsert_chunk_acc.
Qed.

(** Every request of [bulk_insert] goes to its table, in insert mode, with
    records taken from its input. *)
Lemma bulk_insert_requests exec table rs cs e :
  0 < cs -> In e (fst (bulk_insert exec table rs cs [])) ->
  exists p, e = EWrite (mk_op table WInsert p) /\ incl (payload_records p) rs.
Proof.
  intros Hcs He.
  rewrite (proj1 (bulk_insert_run exec table rs cs Hcs)) in He.
  apply in_concat in He as [t [Ht He]]. apply in_map_iff in Ht as [c [<- Hc]].
  assert (Hcr : incl c rs) by (apply (chunks_incl (Z.to_nat cs)); [lia | exact Hc]).
  rewrite insert_chunk_run in He. unfold insert_chunk_trace in He.
  destruct He as [<- | He]; [eexists; split; [reflexivity | exact Hcr]|].
  destruct (exec (mk_op table WInsert (Many c))); [contradiction|].
  destruct (100 <? len c).
  - apply in_concat in He as [t [Ht He]]. apply in_map_iff in Ht as [s [<- Hs]].
    assert (Hsr : incl s rs)
      by (intros x Hx; apply Hcr; exact (chunks_incl 100 c s ltac:(lia) Hs x Hx)).
    unfold subchunk_trace in He. destruct He as [<- | He];
      [eexists; split; [reflexivity | exact Hsr]|].
    destruct (exec (mk_op table WInsert (Many s))); [contradiction|].
    unfold one_by_one_trace in He. apply in_map_iff in He as [r [<- Hr]].
    eexists; split; [reflexivity|]. intros x [<- | []]. auto.
  - unfold one_by_one_trace in He. apply in_map_iff in He as [r [<- Hr]].
    eexists; split; [reflexivity|]. intros x [<- | []]. auto.
Qed.

Lemma bulk_upsert_requests exec table rs oc cs e :
  0 < cs -> In e (fst (bulk_upsert exec table rs oc cs [])) ->
  exists p, e = EWrite (mk_op table (WUpsert oc) p) /\ incl (payload_records p) rs.
Proof.
  intros Hcs He.
  rewrite (proj1 (bulk_upsert_run exec table rs oc cs Hcs)) in He.
  apply in_concat in He as [t [Ht He]]. apply in_map_iff in Ht as [c [<- Hc]].
  assert (Hcr : incl c rs) by (apply (chunks_incl (Z.to_nat cs)); [lia | exact Hc]).
  rewrite upsert_chunk_run in He. unfold upsert_chunk_trace in He.
  destruct He as [<- | He]; [eexists; split; [reflexivity | exact Hcr]|].
  destruct (exec (mk_op table (WUpsert oc) (Many c))); [contradiction|].
  unfold one_by_one_trace in He. apply in_map_iff in He as [r [<- Hr]].
  eexists; split; [reflexivity|]. intros x [<- | []]. auto.
Qed.

(** Every input record of [bulk_upsert] is in the first request of its
    chunk. *)
Lemma bulk_upsert_covers exec table rs oc cs r :
  0 < cs -> In r rs ->
  exists c, In (EWrite (mk_op table (WUpsert oc) (Many c)))
               (fst (bulk_upsert exec table rs oc cs [])) /\ In r c.
Proof.
  intros Hcs Hr.
  rewrite (proj1 (bulk_upsert_run exec table rs oc cs Hcs)).
  rewrite <- (chunks_concat (Z.to_nat cs) rs) in Hr by lia.
  apply in_concat in Hr as [c [Hc Hr]]. exists c. split; [|exact Hr].
  apply in_concat. exists (fst (upsert_chunk exec table oc c [])). split.
  - exact (in_map (fun c => fst (upsert_chunk exec table oc c [])) _ _ Hc).
  - rewrite upsert_chunk_run. left. reflexivity.
Qed.

(** ** Requests of the loaders *)

Section LoaderTraces.
Variable exec : op -> option (list dict).

Lemma upsert_users_run users :
  pure_trace (upsert_users exec users)
  /\ fst (upsert_users exec users []) = List.concat (map user_trace users)
  /\ exists k, snd (upsert_users exec users []) = Ok k.
Proof.
  unfold upsert_users.
  assert (Hp : forall n u, pure_trace
    (try_ (let u' := drop_none u in
           if negb (truthy (get u' "proxy_wallet")) then ret n
           else _ <- execute exec (mk_op "users" (WUpsert "proxy_wallet") (One u')) ;;
                ret (n + 1))
          (fun _ => ret n))).
  { intros n u. cbv zeta. pure_auto. }
  split; [apply pure_foldM; exact Hp|].
  apply foldM_trace; [exact Hp|].
  intros n u. unfold user_trace. mstep.
  destruct (truthy (get (drop_none u) "proxy_wallet")); simpl.
  - destruct (exec _); simpl; split; eauto.
  - split; eauto.
Qed.

Lemma insert_trades_body_pure n trade :
  pure_trace
    (try_ (transformed <- lift (transform_trade_data trade) ;;
           let t := drop_none transformed in
           if negb (mandatory_ok t) then ret n
           else _ <- execute exec (mk_op "trades" WInsert (One t)) ;; ret (n + 1))
          (fun _ => ret n)).
Proof. cbv zeta. pure_auto. Qed.

Lemma insert_trades_run trades :
  pure_trace (insert_trades exec trades)
  /\ fst (insert_trades exec trades []) = List.concat (map trade_trace trades)
  /\ exists k, snd (insert_trades exec trades []) = Ok k.
Proof.
  unfold insert_trades.
  split; [apply pure_foldM; apply insert_trades_body_pure|].
  apply foldM_trace; [apply insert_trades_body_pure|].
  intros n t. unfold trade_trace, written_trade. mstep.
  destruct (transform_trade_data t) as [tr|e]; simpl; [|split; eauto].
  destruct (mandatory_ok (drop_none tr)); simpl; [|split; eauto].
  destruct (exec _); simpl; split; eauto.
Qed.

(** With a backend that accepts every request, [insert_trades] counts the
    trades it keeps. *)
Lemma insert_trades_count trades :
  (forall o, exec o <> None) ->
  snd (insert_trades exec trades []) = Ok (count_written trades).
Proof.
  intros Hexec. unfold insert_trades.
  assert (Hs : forall n t tr, exists tr',
    (try_ (transformed <- lift (transform_trade_data t) ;;
           let t' := drop_none transformed in
           if negb (mandatory_ok t') then ret n
           else _ <- execute exec (mk_op "trades" WInsert (One t')) ;; ret (n + 1))
          (fun _ => ret n)) tr
    = (tr', Ok (n + (fun t => count_written [t]) t))).
  { intros n t tr.
    assert (Hc : count_written [t] = match written_trade t with Some _ => 1 | None => 0 end)
      by (unfold count_written, len; simpl; destruct (written_trade t); reflexivity).
    cbv beta. rewrite Hc. unfold written_trade. mstep.
    destruct (transform_trade_data t) as [r|e]; simpl.
    - destruct (mandatory_ok (drop_none r)); simpl.
      + destruct (exec (mk_op "trades" WInsert (One (drop_none r)))) eqn:E.
        * eexists. reflexivity.
        * exfalso. exact (Hexec _ E).
      + eexists. f_equal. f_equal. lia.
    - eexists. f_equal. f_equal. lia. }
  destruct (foldM_sum _ _ Hs trades 0 []) as [tr' E].
  transitivity (snd (tr', Ok (0 + fold_right (fun x s => count_written [x] + s) 0 trades)));
    [f_equal; exact E|].
  simpl. f_equal.
  clear. induction trades as [|t ts IH]; [reflexivity|].
  cbn [fold_right]. rewrite IH. unfold count_written, len. cbn [filter].
  destruct (written_trade t); cbn [List.length]; lia.
Qed.

End LoaderTraces.

Lemma get_drop_none d k :
  get d k <> PNone -> get (drop_none d) k = get d k.
Proof.
  unfold get, get_or. induction d as [|[k' v] d IH]; simpl; [auto|].
  destruct (String.eqb k k') eqn:Ek.
  - intros Hv. destruct v; simpl; rewrite ?Ek; try reflexivity. congruence.
  - intros Hv. destruct (is_none v); simpl; rewrite ?Ek; auto.
Qed.

Lemma truthy_not_none v : truthy v = true -> v <> PNone.
Proof. intros H ->. discriminate. Qed.

Lemma get_user_wallet trade :
  get (transform_user_data trade) "proxy_wallet" = get trade "proxyWallet".
Proof. reflexivity. Qed.

Lemma transform_trade_wallet trade r :
  transform_trade_data trade = Ok r -> get r "proxy_wallet" = get trade "proxyWallet".
Proof.
  unfold transform_trade_data.
  destruct (truthy (get trade "timestamp")); [destruct (to_datetime_s _)|];
    intros H; inversion H; reflexivity.
Qed.

(** What [mandatory_ok] guarantees of a record. *)
Lemma mandatory_ok_fields t :
  mandatory_ok t = true ->
  forall k, In k mandatory_fields ->
  exists v, dict_lookup t k = Some v /\ v <> PNone /\ truthy v = true.
Proof.
  unfold mandatory_ok. intros H k Hk. rewrite forallb_forall in H.
  assert (Hg : truthy (get t k) = true).
  { apply H. simpl in Hk |- *. intuition (subst; auto). }
  unfold get, get_or in Hg. destruct (dict_lookup t k) as [v|]; [|discriminate].
  exists v. split; [reflexivity|]. split; [apply truthy_not_none|]; exact Hg.
Qed.

Lemma lookup_absent d k : ~ In k (map fst d) -> dict_lookup d k = None.
Proof.
  induction d as [|[k' v] d IH]; simpl; [reflexivity|].
  intros Hn. destruct (String.eqb k k') eqn:E.
  - apply String.eqb_eq in E. subst. exfalso. apply Hn. left. reflexivity.
  - apply IH. intros Hi. apply Hn. right. exact Hi.
Qed.

Lemma drop_none_keys d : incl (map fst (drop_none d)) (map fst d).
Proof.
  intros k Hk. unfold drop_none in Hk. apply in_map_iff in Hk as [[k' v] [<- Hk]].
  apply filter_In in Hk as [Hk _]. apply in_map_iff. exists (k', v). auto.
Qed.

(** On a dict with distinct keys, dropping the [None] values leaves [get]
    unchanged. *)
Lemma get_drop_none_nodup d k :
  NoDup (map fst d) -> get (drop_none d) k = get d k.
Proof.
  unfold get, get_or. induction d as [|[k' v] d IH]; simpl; [reflexivity|].
  intros Hnd. inversion Hnd as [|? ? Hn Hnd']; subst.
  destruct (String.eqb k k') eqn:Ek.
  - apply String.eqb_eq in Ek. subst k'.
    destruct v; simpl; rewrite ?String.eqb_refl; try reflexivity.
    rewrite lookup_absent; [reflexivity|].
    intros Hi. apply Hn. apply drop_none_keys. exact Hi.
  - destruct (is_none v); simpl; rewrite ?Ek; auto.
Qed.

Lemma transform_trade_keys trade r :
  transform_trade_data trade = Ok r ->
  map fst r = ["transaction_hash"; "proxy_wallet"; "condition_id"; "slug"; "side";
               "asset"; "outcome"; "outcome_index"; "size"; "price"; "timestamp";
               "datetime"; "title"; "icon"; "event_slug"].
Proof.
  unfold transform_trade_data.
  destruct (truthy (get trade "timestamp")); [destruct (to_datetime_s _)|];
    intros H; inversion H; reflexivity.
Qed.

Lemma transform_trade_nodup trade r :
  transform_trade_data trade = Ok r -> NoDup (map fst r).
Proof.
  intros H. rewrite (transform_trade_keys _ _ H).
  repeat constructor; simpl; intuition discriminate.
Qed.

Lemma transform_user_nodup trade : NoDup (map fst (transform_user_data trade)).
Proof. simpl. repeat constructor; simpl; intuition discriminate. Qed.

Lemma drop_none_user_wallet trade :
  get (drop_none (transform_user_data trade)) "proxy_wallet" = get trade "proxyWallet".
Proof. rewrite get_drop_none_nodup by apply transform_user_nodup. reflexivity. Qed.

Lemma written_trade_wallet trade t :
  written_trade trade = Some t ->
  get t "proxy_wallet" = get trade "proxyWallet"
  /\ truthy (get trade "proxyWallet") = true /\ mandatory_ok t = true.
Proof.
  unfold written_trade. destruct (transform_trade_data trade) as [r|e] eqn:Er;
    [|discriminate].
  destruct (mandatory_ok (drop_none r)) eqn:Em; [|discriminate]. intros H.
  inversion H; subst t. clear H.
  assert (Hw : get (drop_none r) "proxy_wallet" = get trade "proxyWallet").
  { rewrite get_drop_none_nodup by exact (transform_trade_nodup _ _ Er).
    exact (transform_trade_wallet _ _ Er). }
  split; [exact Hw|]. split; [|exact Em].
  rewrite <- Hw. unfold mandatory_ok in Em. simpl in Em.
  destruct (truthy _); [reflexivity|discriminate].
Qed.

Lemma valid_trades_written trades vs :
  valid_trades trades = Ok vs ->
  forall r, In r vs -> exists t, In t trades /\ written_trade t = Some r.
Proof.
  revert vs. induction trades as [|t ts IH]; simpl; intros vs H r Hr.
  - inversion H; subst. contradiction.
  - destruct (transform_trade_data t) as [tr|e] eqn:Et; [|discriminate].
    destruct (valid_trades ts) as [vs'|e] eqn:Ev; [|discriminate].
    inversion H; subst vs. clear H.
    destruct (mandatory_ok (drop_none tr)) eqn:Em.
    + destruct Hr as [<- | Hr].
      * exists t. split; [left; reflexivity|]. unfold written_trade. rewrite Et, Em.
        reflexivity.
      * destruct (IH vs' eq_refl r Hr) as [t' [Ht' Hw]]. eauto.
    + destruct (IH vs' eq_refl r Hr) as [t' [Ht' Hw]]. eauto.
Qed.

Lemma insert_trades_batch_run exec trades :
  fst (insert_trades_batch exec trades [])
  = match trades with
    | [] => []
    | _ =>
        match unique_users (map transform_user_data trades) with
        | Raise _ => []
        | Ok uu =>
            fst (bulk_upsert exec "users" (map (fun kv => drop_none (snd kv)) uu)
                   "proxy_wallet" 500 [])
            ++ match valid_trades trades with
               | Raise _ => []
               | Ok vs => fst (bulk_insert exec "trades" vs 500 [])
               end
        end
    end.
Proof.
  unfold insert_trades_batch. destruct trades as [|t ts]; [reflexivity|].
  cbv beta iota delta [bind lift ret].
  destruct (unique_users (map transform_user_data (t :: ts))) as [uu|e]; [|reflexivity].
  destruct (bulk_upsert_run exec "users" (map (fun kv => drop_none (snd kv)) uu)
              "proxy_wallet" 500 ltac:(lia)) as [_ [k Hk]].
  destruct (bulk_upsert exec "users" (map (fun kv => drop_none (snd kv)) uu)
              "proxy_wallet" 500 []) as [t1 r1] eqn:E1.
  simpl in Hk. subst r1. cbv beta iota. cbn [fst].
  destruct (valid_trades (t :: ts)) as [vs|e]; [|rewrite app_nil_r; reflexivity].
  rewrite (pure_bulk_insert exec "trades" vs 500 t1).
  destruct (bulk_insert_run exec "trades" vs 500 ltac:(lia)) as [_ [k2 Hk2]].
  rewrite Hk2. reflexivity.
Qed.

Lemma insert_trades_writes exec trades r :
  In r (trade_writes (fst (insert_trades exec trades []))) ->
  exists t, In t trades /\ written_trade t = Some r.
Proof.
  rewrite (proj1 (proj2 (insert_trades_run exec trades))).
  unfold trade_writes. intros H. apply in_flat_map in H as [e [He Hr]].
  apply in_concat in He as [l [Hl He]]. apply in_map_iff in Hl as [t [<- Ht]].
  unfold trade_trace in He. destruct (written_trade t) as [t'|] eqn:Ew; [|contradiction].
  destruct He as [<- | []]. simpl in Hr. destruct Hr as [<- | []]. eauto.
Qed.

Lemma insert_trades_batch_writes exec trades r :
  In r (trade_writes (fst (insert_trades_batch exec trades []))) ->
  exists t, In t trades /\ written_trade t = Some r.
Proof.
  rewrite insert_trades_batch_run. destruct trades as [|t0 ts]; [contradiction|].
  destruct (unique_users _) as [uu|e]; [|contradiction].
  unfold trade_writes. rewrite flat_map_app. intros H. apply in_app_or in H as [H|H].
  - apply in_flat_map in H as [e [He Hr]].
    destruct (bulk_upsert_requests exec "users" _ "proxy_wallet" 500 e ltac:(lia) He) as [p [-> _]].
    contradiction.
  - destruct (valid_trades (t0 :: ts)) as [vs|e] eqn:Ev; [|contradiction].
    apply in_flat_map in H as [e [He Hr]].
    destruct (bulk_insert_requests exec "trades" vs 500 e ltac:(lia) He) as [p [-> Hp]].
    simpl in Hr. apply Hp in Hr. exact (valid_trades_written _ _ Ev r Hr).
Qed.

Lemma transform_trade_fields trade r :
  transform_trade_data trade = Ok r ->
  get r "size" = get trade "size" /\ get r "price" = get trade "price"
  /\ get r "timestamp" = get trade "timestamp".
Proof.
  unfold transform_trade_data.
  destruct (truthy (get trade "timestamp")); [destruct (to_datetime_s _)|];
    intros H; inversion H; repeat split; reflexivity.
Qed.

Lemma lookup_drop_none_some d k v :
  dict_lookup (drop_none d) k = Some v -> v <> PNone.
Proof.
  induction d as [|[k' w] d IH]; simpl; [discriminate|].
  destruct (is_none w) eqn:Ew; simpl; [exact IH|].
  destruct (String.eqb k k'); [|exact IH].
  intros H. inversion H; subst. destruct v; discriminate.
Qed.

Lemma valid_trades_skip pre x post :
  written_trade x = None ->
  valid_trades (pre ++ x :: post) = valid_trades (pre ++ post)
  \/ exists e, valid_trades (pre ++ x :: post) = Raise e.
Proof.
  unfold written_trade. intros Hx.
  induction pre as [|y pre IH]; simpl.
  - destruct (transform_trade_data x) as [r|e]; [|right; eauto].
    destruct (mandatory_ok (drop_none r)); [discriminate|].
    left. destruct (valid_trades post); reflexivity.
  - destruct (transform_trade_data y) as [ry|e]; [|left; reflexivity].
    destruct IH as [IH | [e IH]]; rewrite IH; [left; reflexivity | right; eauto].
Qed.

Lemma mandatory_ok_zero t :
  get t "size" = PInt 0 \/ get t "price" = PInt 0 \/ get t "timestamp" = PInt 0 ->
  mandatory_ok t = false.
Proof.
  unfold mandatory_ok. cbn [forallb].
  intros [H|[H|H]]; rewrite H; simpl; rewrite ?andb_false_r; reflexivity.
Qed.

(** ** One page of the per-market loop *)

Lemma trades_page_step_page exec fetch bs c p ps k :
  fetch bs (offset c) = Ok (p :: ps) ->
  collect_users (map transform_user_data (p :: ps)) = Ok tt ->
  snd (insert_trades exec (p :: ps) []) = Ok k ->
  trades_page_step exec fetch bs c []
  = (EFetch bs (offset c)
       :: List.concat (map user_trace (map transform_user_data (p :: ps)))
       ++ List.concat (map trade_trace (p :: ps)),
     Ok (let c' := mk_cursor (offset c + bs) (market_trades_count c + k)
                             (batch_num c + 1) in
         if len (p :: ps) <? bs then Break c' else Continue c')).
Proof.
  intros Hf Hc Hk.
  destruct (upsert_users_run exec (map transform_user_data (p :: ps)))
    as [Pu [Tu [ku Ku]]].
  destruct (insert_trades_run exec (p :: ps)) as [Pt [Tt _]].
  unfold trades_page_step, try_, bind, get_trades_m, lift, ret. rewrite Hf, Hc.
  change (map transform_user_data (p :: ps))
    with (transform_user_data p :: map transform_user_data ps) in *.
  cbv beta iota. cbn [app].
  rewrite (Pu [EFetch bs (offset c)]), Ku, Tu. cbv beta iota.
  rewrite Pt, Hk, Tt. cbv beta iota.
  destruct (len (p :: ps) <? bs); reflexivity.
Qed.

(** A page that does not come back, or comes back empty, ends the loop
    with the cursor unchanged. *)
Lemma trades_page_step_stop exec fetch bs c :
  (fetch bs (offset c) = Ok [] \/ exists e, fetch bs (offset c) = Raise e) ->
  trades_page_step exec fetch bs c [] = ([EFetch bs (offset c)], Ok (Break c)).
Proof.
  intros [H | [e H]]; unfold trades_page_step, try_, bind, get_trades_m, ret;
    rewrite H; reflexivity.
Qed.

(** A page with an unhashable truthy wallet ends the loop before any
    write. *)
Lemma trades_page_step_unhashable exec fetch bs c p ps e :
  fetch bs (offset c) = Ok (p :: ps) ->
  collect_users (map transform_user_data (p :: ps)) = Raise e ->
  trades_page_step exec fetch bs c [] = ([EFetch bs (offset c)], Ok (Break c)).
Proof.
  intros Hf Hc. unfold trades_page_step, try_, bind, get_trades_m, lift, ret.
  rewrite Hf, Hc. reflexivity.
Qed.

(** ** The per-market loop over a page source *)

Lemma pure_get_trades_m fetch l o : pure_trace (get_trades_m fetch l o).
Proof. intros tr. reflexivity. Qed.

Lemma pure_trades_page_step exec fetch bs c :
  pure_trace (trades_page_step exec fetch bs c).
Proof.
  unfold trades_page_step. apply pure_try; [|intros; apply pure_ret].
  apply pure_bind; [apply pure_get_trades_m|]. intros [|t ts]; [apply pure_ret|].
  apply pure_bind; [apply pure_lift|intros _].
  apply pure_bind.
  - destruct (map transform_user_data (t :: ts)); [apply pure_ret|].
    apply upsert_users_run.
  - intros _. apply pure_bind; [apply insert_trades_run|intros k].
    destruct (_ <? bs); apply pure_ret.
Qed.

Lemma pure_market_loop exec fetch bs fuel c :
  pure_trace (market_loop exec fetch bs fuel c).
Proof.
  revert c. induction fuel as [|f IH]; intros c; simpl; [apply pure_ret|].
  apply pure_bind; [apply pure_trades_page_step|]. intros [c'|c']; auto.
  apply pure_ret.
Qed.

Lemma skipn_cons_nth {A} (l : list A) i x xs d :
  skipn i l = x :: xs -> nth i l d = x /\ skipn (S i) l = xs.
Proof.
  revert l. induction i as [|i IH]; intros [|y l] H; simpl in *; try discriminate.
  - inversion H. auto.
  - apply IH. exact H.
Qed.

Lemma skipn_nil_nth {A} (l : list A) i d : skipn i l = [] -> nth i l d = d.
Proof.
  revert l. induction i as [|i IH]; intros [|y l] H; simpl in *; try discriminate; auto.
Qed.

Lemma in_skipn {A} (l : list A) i x : In x (skipn i l) -> In x l.
Proof. intros H. rewrite <- (firstn_skipn i l). apply in_or_app. auto. Qed.

Lemma fetch_offsets_app a b : fetch_offsets (a ++ b) = fetch_offsets a ++ fetch_offsets b.
Proof. apply flat_map_app. Qed.

Lemma fetch_offsets_users us : fetch_offsets (List.concat (map user_trace us)) = [].
Proof.
  induction us as [|u us IH]; [reflexivity|]. simpl. rewrite fetch_offsets_app, IH.
  unfold user_trace. destruct (truthy _); reflexivity.
Qed.

Lemma fetch_offsets_trades ts : fetch_offsets (List.concat (map trade_trace ts)) = [].
Proof.
  induction ts as [|t ts IH]; [reflexivity|]. simpl. rewrite fetch_offsets_app, IH.
  unfold trade_trace. destruct (written_trade t); reflexivity.
Qed.

Lemma page_source_at pages bs i :
  0 < bs -> page_source pages bs (bs * Z.of_nat i) = Ok (nth i pages []).
Proof.
  intros Hbs. unfold page_source. rewrite Z.mul_comm, Z.div_mul by lia.
  rewrite Nat2Z.id. reflexivity.
Qed.

Section PageSource.
Variable exec : op -> option (list dict).
Variable pages : list (list dict).
Variable bs : Z.
Hypothesis Hbs : 0 < bs.
Hypothesis Hexec : forall o, exec o <> None.
Hypothesis Hwallets : forall p, In p pages -> collect_users (map transform_user_data p) = Ok tt.

Lemma market_loop_pages fuel i c :
  offset c = bs * Z.of_nat i ->
  (List.length (skipn i pages) < fuel)%nat ->
  exists c', snd (market_loop exec (page_source pages) bs fuel c []) = Ok (Some c')
    /\ market_trades_count c'
       = market_trades_count c + sum_written (pages_read bs (skipn i pages))
    /\ fetch_offsets (fst (market_loop exec (page_source pages) bs fuel c []))
       = map (fun j => bs * Z.of_nat (i + j))
             (seq 0 (List.length (pages_read bs (skipn i pages)))).
Proof.
  revert i c. induction fuel as [|f IH]; intros i c Hoff Hlen; [lia|].
  assert (Hsrc : page_source pages bs (offset c) = Ok (nth i pages []))
    by (rewrite Hoff; apply page_source_at; exact Hbs).
  assert (Hstop : nth i pages [] = [] ->
                  market_loop exec (page_source pages) bs (S f) c []
                  = ([EFetch bs (offset c)], Ok (Some c))).
  { intros Hn. simpl. unfold bind.
    rewrite (trades_page_step_stop exec (page_source pages) bs c)
      by (left; rewrite Hsrc, Hn; reflexivity).
    reflexivity. }
  destruct (skipn i pages) as [|p ps] eqn:Hs.
  - rewrite Hstop by (apply skipn_nil_nth; exact Hs).
    exists c. simpl. repeat split; try lia. rewrite Hoff. repeat f_equal. lia.
  - destruct (skipn_cons_nth pages i p ps [] Hs) as [Hnth Hs'].
    destruct p as [|t ts].
    + rewrite Hstop by exact Hnth. exists c. simpl.
      replace (len (@nil dict) <? bs) with true by (unfold len; simpl; lia). simpl.
      repeat split; try lia. rewrite Hoff. repeat f_equal. lia.
    + assert (Hc : collect_users (map transform_user_data (t :: ts)) = Ok tt).
      { apply Hwallets. apply (in_skipn pages i). rewrite Hs. left. reflexivity. }
      assert (Hk := insert_trades_count exec (t :: ts) Hexec).
      rewrite Hnth in Hsrc.
      pose proof (trades_page_step_page exec (page_source pages) bs c t ts _ Hsrc Hc Hk)
        as Hstep.
      set (c' := mk_cursor (offset c + bs) (market_trades_count c + count_written (t :: ts))
                           (batch_num c + 1)) in Hstep.
      set (tr1 := EFetch bs (offset c)
                    :: List.concat (map user_trace (map transform_user_data (t :: ts)))
                    ++ List.concat (map trade_trace (t :: ts))) in Hstep.
      assert (Hf1 : fetch_offsets tr1 = [offset c]).
      { unfold tr1.
        change (fetch_offsets (EFetch bs (offset c) :: ?r))
          with ([offset c] ++ fetch_offsets r).
        rewrite fetch_offsets_app, fetch_offsets_users, fetch_offsets_trades.
        reflexivity. }
      cbn [market_loop]. unfold bind. rewrite Hstep. cbn [pages_read].
      destruct (len (t :: ts) <? bs).
      * exists c'. split; [reflexivity|]. split; [unfold c'; simpl; lia|].
        transitivity (fetch_offsets tr1); [reflexivity|]. rewrite Hf1.
        simpl. rewrite Hoff. repeat f_equal. lia.
      * assert (Hoff' : offset c' = bs * Z.of_nat (S i)) by (simpl; lia).
        assert (Hlen' : (List.length (skipn (S i) pages) < f)%nat)
          by (rewrite Hs'; simpl in Hlen; lia).
        destruct (IH (S i) c' Hoff' Hlen') as [c'' [E1 [E2 E3]]].
        rewrite Hs' in E2, E3.
        cbv beta iota zeta.
        rewrite (pure_market_loop exec (page_source pages) bs f c' tr1).
        exists c''. split; [exact E1|]. split.
        -- transitivity (market_trades_count c''); [reflexivity|].
           rewrite E2. unfold sum_written. cbn [fold_right]. unfold c'. simpl. lia.
        -- transitivity (fetch_offsets (tr1 ++ fst (market_loop exec (page_source pages)
                                                     bs f c' [])));
             [reflexivity|].
           rewrite fetch_offsets_app, Hf1, E3, Hoff. cbn [List.length seq map].
           cbn [app]. f_equal; [f_equal; lia|].
           rewrite <- seq_shift, map_map. apply map_ext. intros j. lia.
Qed.

Lemma init_load_pages cid fuel :
  (List.length pages < fuel)%nat ->
  snd (init_load_all_trades_by_market exec (fun _ => page_source pages) bs 0 [cid] fuel [])
  = Ok (Some (sum_written (pages_read bs pages), 1))
  /\ fetch_offsets (fst (init_load_all_trades_by_market exec (fun _ => page_source pages)
                          bs 0 [cid] fuel []))
     = map (fun j => bs * Z.of_nat j) (seq 0 (List.length (pages_read bs pages))).
Proof.
  intros Hlen.
  destruct (market_loop_pages fuel 0 cursor0 ltac:(simpl; lia) Hlen) as [c [E1 [E2 E3]]].
  unfold init_load_all_trades_by_market. cbn [skipn foldM]. unfold bind.
  destruct (market_loop exec (page_source pages) bs fuel cursor0 []) as [t r] eqn:E.
  simpl in E1, E3. subst r. simpl. rewrite E2. split; [reflexivity | exact E3].
Qed.

End PageSource.

(** ** The async per-market fetch loop *)

Section FetchCap.
Variable afetch : Z -> Z -> list dict.
Variables bs cap : Z.
Hypothesis Hbs : 0 < bs.
Hypothesis Hpage : forall o, len (afetch bs o) <= bs.

Lemma fetch_all_loop_bound fuel c :
  len (all_trades c) < cap ->
  (Z.to_nat (cap - len (all_trades c)) < fuel)%nat ->
  exists c', fetch_all_loop afetch bs cap fuel c = Some c'
    /\ len (all_trades c') < cap + bs
    /\ ((bs | cap) -> (bs | len (all_trades c)) -> len (all_trades c') <= cap).
Proof.
  revert c. induction fuel as [|f IH]; intros c Hlt Hfuel; [lia|].
  cbn [fetch_all_loop].
  pose proof (Hpage (f_offset c)) as Hp.
  destruct (afetch bs (f_offset c)) as [|q qs] eqn:Ea.
  - exists c. repeat split; intros; lia.
  - set (L := len (all_trades c)) in *.
    set (P := len (q :: qs)) in *.
    assert (HL : len (all_trades c ++ q :: qs) = L + P)
      by (unfold L, P, len; rewrite length_app; lia).
    assert (HP : 1 <= P) by (unfold P, len; simpl; lia).
    cbn [all_trades]. rewrite HL.
    assert (Hstop : exists c', Some (mk_fcursor (all_trades c ++ q :: qs)
                                           (f_offset c + bs) (fetches c + 1)) = Some c'
              /\ len (all_trades c') < cap + bs
              /\ ((bs | cap) -> (bs | L) -> len (all_trades c') <= cap)).
    { eexists. split; [reflexivity|]. cbn [all_trades]. rewrite HL. split; [lia|].
      intros [b Hb] [a Ha]. assert (a < b) by nia. nia. }
    destruct (cap <=? L + P) eqn:E1; [exact Hstop|].
    destruct (P <? bs) eqn:E2; [exact Hstop|].
    assert (HPb : P = bs) by lia.
    destruct (IH (mk_fcursor (all_trades c ++ q :: qs) (f_offset c + bs) (fetches c + 1)))
      as [c' [E [B1 B2]]].
    + cbn [all_trades]. rewrite HL. lia.
    + cbn [all_trades]. rewrite HL. lia.
    + exists c'. split; [exact E|]. split; [exact B1|].
      intros Hd1 Hd2. apply B2; [exact Hd1|]. cbn [all_trades]. rewrite HL, HPb.
      apply Z.divide_add_r; [exact Hd2 | apply Z.divide_refl].
Qed.

End FetchCap.

(** ** Users before trades *)

Lemma key_eqb_sym a b : key_eqb a b = key_eqb b a.
Proof.
  destruct a, b; simpl; try reflexivity; [apply Z.eqb_sym | apply String.eqb_sym].
Qed.

Lemma key_eqb_trans a b c : key_eqb a b = true -> key_eqb b c = true -> key_eqb a c = true.
Proof.
  destruct a, b, c; simpl; try discriminate; try reflexivity.
  - rewrite !Z.eqb_eq. congruence.
  - rewrite !String.eqb_eq. congruence.
Qed.

Lemma py_key_refl v k : py_key v = Ok k -> key_eqb k k = true.
Proof.
  destruct v; simpl; intros H; inversion H; subst; simpl;
    rewrite ?Z.eqb_refl, ?String.eqb_refl; reflexivity.
Qed.

Lemma same_wallet_refl v k : py_key v = Ok k -> same_wallet v v = true.
Proof. intros H. unfold same_wallet. rewrite H. exact (py_key_refl v k H). Qed.

Lemma collect_users_key us u :
  collect_users us = Ok tt -> In u us -> truthy (get u "proxy_wallet") = true ->
  exists k, py_key (get u "proxy_wallet") = Ok k.
Proof.
  induction us as [|u' us IH]; simpl; [contradiction|].
  intros Hc [<- | Hin] Ht.
  - rewrite Ht in Hc. destruct (py_key _); [eauto | discriminate].
  - apply IH; auto. destruct (truthy (get u' "proxy_wallet")); [|exact Hc].
    destruct (py_key (get u' "proxy_wallet")); [exact Hc | discriminate].
Qed.

(** The order property, through appends. *)
Lemma ubt_mono tr : forall s1 s2,
  (forall w, existsb (same_wallet w) s1 = true -> existsb (same_wallet w) s2 = true) ->
  users_before_trades_from s1 tr = true -> users_before_trades_from s2 tr = true.
Proof.
  induction tr as [|e tr IH]; intros s1 s2 Hs H; simpl in *; [reflexivity|].
  apply andb_true_iff in H as [H1 H2]. apply andb_true_iff. split.
  - rewrite forallb_forall in *. intros w Hw. apply Hs. auto.
  - apply (IH (s1 ++ user_wallets e)); [|exact H2].
    intros w. rewrite !existsb_app. intros Hw.
    apply orb_true_iff in Hw as [Hw|Hw].
    + rewrite (Hs w Hw). reflexivity.
    + rewrite Hw, orb_true_r. reflexivity.
Qed.

Lemma ubt_app s a b :
  users_before_trades_from s (a ++ b)
  = users_before_trades_from s a
    && users_before_trades_from (s ++ flat_map user_wallets a) b.
Proof.
  revert s. induction a as [|e a IH]; intros s; simpl.
  - rewrite app_nil_r. reflexivity.
  - rewrite IH, app_assoc. apply andb_assoc.
Qed.

Lemma ubt_join a b :
  users_before_trades a = true -> users_before_trades b = true ->
  users_before_trades (a ++ b) = true.
Proof.
  unfold users_before_trades. intros Ha Hb. rewrite ubt_app, Ha. simpl.
  apply (ubt_mono b []); [|exact Hb]. intros w H. discriminate.
Qed.

Lemma ubt_covered s tr :
  (forall e w, In e tr -> In w (trade_wallets e) -> existsb (same_wallet w) s = true) ->
  users_before_trades_from s tr = true.
Proof.
  revert s. induction tr as [|e tr IH]; intros s H; simpl; [reflexivity|].
  apply andb_true_iff. split.
  - apply forallb_forall. intros w Hw. apply (H e); [left; reflexivity | exact Hw].
  - apply IH. intros e' w He' Hw. rewrite existsb_app.
    rewrite (H e' w (or_intror He') Hw). reflexivity.
Qed.

(** A trace made of requests without trades, then of trades whose wallets
    all appear among the users upserted in the first part. *)
Lemma ubt_users_then_trades U T :
  (forall e, In e U -> trade_wallets e = []) ->
  (forall e w, In e T -> In w (trade_wallets e) ->
     exists w', In w' (flat_map user_wallets U) /\ same_wallet w w' = true) ->
  users_before_trades (U ++ T) = true.
Proof.
  intros HU HT. unfold users_before_trades. rewrite ubt_app.
  apply andb_true_iff. split.
  - apply ubt_covered. intros e w He Hw. rewrite (HU e He) in Hw. contradiction.
  - apply ubt_covered. intros e w He Hw. destruct (HT e w He Hw) as [w' [Hin Hs]].
    apply existsb_exists. exists w'. split; [exact Hin | exact Hs].
Qed.

Lemma user_trace_no_trades us e :
  In e (List.concat (map user_trace us)) -> trade_wallets e = [].
Proof.
  intros H. apply in_concat in H as [l [Hl He]]. apply in_map_iff in Hl as [u [<- _]].
  unfold user_trace in He. destruct (truthy _); [|contradiction].
  destruct He as [<- | []]. reflexivity.
Qed.

(** Wallet of a trade request of [insert_trades]. *)
Lemma trade_trace_wallets ts e w :
  In e (List.concat (map trade_trace ts)) -> In w (trade_wallets e) ->
  exists t, In t ts /\ w = get t "proxyWallet" /\ truthy (get t "proxyWallet") = true.
Proof.
  intros H Hw. apply in_concat in H as [l [Hl He]]. apply in_map_iff in Hl as [t [<- Ht]].
  unfold trade_trace in He. destruct (written_trade t) as [r|] eqn:Er; [|contradiction].
  destruct He as [<- | []]. simpl in Hw. destruct Hw as [<- | []].
  destruct (written_trade_wallet t r Er) as [Hr [Htr _]]. eauto.
Qed.

(** A user with a truthy wallet is upserted by [upsert_users]. *)
Lemma user_trace_wallet us u :
  In u us -> truthy (get (drop_none u) "proxy_wallet") = true ->
  In (get (drop_none u) "proxy_wallet")
     (flat_map user_wallets (List.concat (map user_trace us))).
Proof.
  intros Hu Ht. apply in_flat_map.
  exists (EWrite (mk_op "users" (WUpsert "proxy_wallet") (One (drop_none u)))).
  split.
  - apply in_concat. exists (user_trace u). split; [apply in_map; exact Hu|].
    unfold user_trace. rewrite Ht. left. reflexivity.
  - simpl. left. reflexivity.
Qed.

(** One page of the per-market loop: its users, then its trades. *)
Lemma page_users_before_trades l o page :
  collect_users (map transform_user_data page) = Ok tt ->
  users_before_trades (EFetch l o :: List.concat (map user_trace (map transform_user_data page))
                       ++ List.concat (map trade_trace page)) = true.
Proof.
  intros Hc. change (EFetch l o :: ?a ++ ?b) with ((EFetch l o :: a) ++ b).
  apply ubt_users_then_trades.
  - intros e [<- | He]; [reflexivity|]. exact (user_trace_no_trades _ _ He).
  - intros e w He Hw. destruct (trade_trace_wallets page e w He Hw) as [t [Ht [-> Htr]]].
    exists (get t "proxyWallet"). split.
    + cbn [flat_map user_wallets app]. rewrite <- (drop_none_user_wallet t).
      apply user_trace_wallet; [apply in_map; exact Ht|].
      rewrite drop_none_user_wallet. exact Htr.
    + destruct (collect_users_key _ (transform_user_data t) Hc
                  (in_map _ _ _ Ht) Htr) as [k Hk].
      exact (same_wallet_refl _ k Hk).
Qed.

(** Users before trades, through the monad. *)
Lemma ubt_ret {A} (a : A) : ubt_comp (ret a).
Proof. split; [apply pure_ret | reflexivity]. Qed.

Lemma ubt_lift {A} (r : result A) : ubt_comp (lift r).
Proof. split; [apply pure_lift | reflexivity]. Qed.

Lemma ubt_get_trades_m fetch l o : ubt_comp (get_trades_m fetch l o).
Proof. split; [apply pure_get_trades_m | reflexivity]. Qed.

Lemma ubt_bind {A B} (m : M A) (k : A -> M B) :
  ubt_comp m -> (forall a, ubt_comp (k a)) -> ubt_comp (bind m k).
Proof.
  intros [Pm Um] Hk. split; [apply pure_bind; [exact Pm | intros a; apply Hk]|].
  unfold bind. destruct (m []) as [t1 [a|e]] eqn:E1; simpl in Um |- *; [|exact Um].
  destruct (Hk a) as [Pk Uk]. rewrite (Pk t1). apply ubt_join; assumption.
Qed.

Lemma ubt_try {A} (m : M A) (h : exn -> M A) :
  ubt_comp m -> (forall e, ubt_comp (h e)) -> ubt_comp (try_ m h).
Proof.
  intros [Pm Um] Hh. split; [apply pure_try; [exact Pm | intros e; apply Hh]|].
  unfold try_. destruct (m []) as [t1 [a|e]] eqn:E1; simpl in Um |- *; [exact Um|].
  destruct (Hh e) as [Ph Uh]. rewrite (Ph t1). apply ubt_join; assumption.
Qed.

Lemma ubt_foldM {A S} (f : S -> A -> M S) :
  (forall s x, ubt_comp (f s x)) -> forall xs s, ubt_comp (foldM f s xs).
Proof.
  intros Hf xs. induction xs as [|x xs IH]; intros s; simpl.
  - apply ubt_ret.
  - apply ubt_bind; auto.
Qed.

(** The per-market loop. *)
Lemma ubt_trades_page_step exec fetch bs c :
  ubt_comp (trades_page_step exec fetch bs c).
Proof.
  split; [apply pure_trades_page_step|].
  destruct (fetch bs (offset c)) as [[|p ps]|e] eqn:Ef.
  - rewrite trades_page_step_stop by (left; exact Ef). reflexivity.
  - destruct (collect_users (map transform_user_data (p :: ps))) as [[]|e] eqn:Ec.
    + destruct (insert_trades_run exec (p :: ps)) as [_ [_ [k Hk]]].
      rewrite (trades_page_step_page exec fetch bs c p ps k Ef Ec Hk). cbn [fst].
      apply page_users_before_trades. exact Ec.
    + rewrite (trades_page_step_unhashable exec fetch bs c p ps e Ef Ec). reflexivity.
  - rewrite trades_page_step_stop by (right; exists e; exact Ef). reflexivity.
Qed.

Lemma ubt_market_loop exec fetch bs fuel c :
  ubt_comp (market_loop exec fetch bs fuel c).
Proof.
  revert c. induction fuel as [|f IH]; intros c; simpl; [apply ubt_ret|].
  apply ubt_bind; [apply ubt_trades_page_step|]. intros [c'|c']; auto. apply ubt_ret.
Qed.

Lemma ubt_init_load exec fetch bs start cids fuel :
  ubt_comp (init_load_all_trades_by_market exec fetch bs start cids fuel).
Proof.
  unfold init_load_all_trades_by_market. apply ubt_foldM.
  intros [[total processed]|] cid; [|apply ubt_ret].
  apply ubt_bind; [apply ubt_market_loop|]. intros [c|]; apply ubt_ret.
Qed.

Lemma ubt_load_trades_fetch fetch limit fuel : forall o all,
  ubt_comp (load_trades_fetch fetch limit fuel o all).
Proof.
  induction fuel as [|f IH]; intros o all; simpl; [apply ubt_ret|].
  destruct (o <? limit); [|apply ubt_ret].
  apply ubt_bind; [apply ubt_get_trades_m|]. intros [|t ts]; [apply ubt_ret | apply IH].
Qed.

(** The wallet table built by [load_trades] and [insert_trades_batch]. *)
Section UniqueUsers.
Variable Q : dict -> Prop.

Lemma dict_set_keys k v acc kv :
  In kv acc -> exists kv', In kv' (dict_set k v acc) /\ fst kv' = fst kv.
Proof.
  induction acc as [|[k' v'] acc IH]; simpl; [contradiction|]. intros [<- | H].
  - destruct (key_eqb k k'); [exists (k', v) | exists (k', v')]; simpl; auto.
  - destruct (IH H) as [kv' [H1 H2]].
    destruct (key_eqb k k'); [exists kv | exists kv']; simpl; auto.
Qed.

Lemma dict_set_new k v acc :
  key_eqb k k = true -> exists kv', In kv' (dict_set k v acc) /\ key_eqb k (fst kv') = true.
Proof.
  intros Hk. induction acc as [|[k' v'] acc IH]; simpl.
  - exists (k, v). simpl. auto.
  - destruct (key_eqb k k') eqn:E.
    + exists (k', v). simpl. auto.
    + destruct IH as [kv' [H1 H2]]. exists kv'. simpl. auto.
Qed.

Lemma dict_set_inv k v acc :
  uu_inv Q acc -> Q v -> truthy (get v "proxy_wallet") = true ->
  py_key (get v "proxy_wallet") = Ok k -> uu_inv Q (dict_set k v acc).
Proof.
  intros Hi Hq Ht Hk. induction acc as [|[k' v'] acc IH]; simpl; intros kv Hkv.
  - destruct Hkv as [<- | []]. simpl. split; [exact Hq|]. split; [exact Ht|].
    exists k. split; [exact Hk | exact (py_key_refl _ _ Hk)].
  - destruct (key_eqb k k') eqn:E.
    + destruct Hkv as [<- | H]; [|apply Hi; right; exact H].
      simpl. split; [exact Hq|]. split; [exact Ht|]. exists k. auto.
    + destruct Hkv as [<- | H]; [apply Hi; left; reflexivity|].
      apply IH; [|exact H]. intros kv' H'. apply Hi. right. exact H'.
Qed.

Lemma cover_dict_set u k v acc : uu_cover u acc -> uu_cover u (dict_set k v acc).
Proof.
  intros [kv [k1 [Hin [Hk Heq]]]]. destruct (dict_set_keys k v acc kv Hin) as [kv' [H1 H2]].
  exists kv', k1. rewrite H2. auto.
Qed.

Lemma unique_users_aux_cover users : forall acc res,
  (forall u, In u users -> Q u) -> uu_inv Q acc ->
  unique_users_aux users acc = Ok res ->
  uu_inv Q res
  /\ (forall u, In u users -> truthy (get u "proxy_wallet") = true -> uu_cover u res)
  /\ (forall u, uu_cover u acc -> uu_cover u res).
Proof.
  induction users as [|u users IH]; intros acc res Hq Hi H; simpl in H.
  - inversion H; subst. split; [exact Hi|]. split; [intros u []|auto].
  - destruct (truthy (get u "proxy_wallet")) eqn:Ht.
    + destruct (py_key (get u "proxy_wallet")) as [k|e] eqn:Hk; [|discriminate].
      assert (Hi' : uu_inv Q (dict_set k u acc))
        by (apply dict_set_inv; auto; apply Hq; left; reflexivity).
      destruct (IH _ _ (fun u' H' => Hq u' (or_intror H')) Hi' H) as [R1 [R2 R3]].
      split; [exact R1|]. split.
      * intros u' [<- | Hu'] Ht'; [|auto]. apply R3.
        destruct (dict_set_new k u acc (py_key_refl _ _ Hk)) as [kv' [H1 H2]].
        exists kv', k. auto.
      * intros u' Hc. apply R3. apply cover_dict_set. exact Hc.
    + destruct (IH _ _ (fun u' H' => Hq u' (or_intror H')) Hi H) as [R1 [R2 R3]].
      split; [exact R1|]. split; [|exact R3].
      intros u' [<- | Hu'] Ht'; [congruence | auto].
Qed.

(** Every user with a truthy wallet has an entry whose record has an equal
    ([==]) truthy wallet. *)
Lemma unique_users_cover users uu u :
  (forall u, In u users -> Q u) -> unique_users users = Ok uu ->
  In u users -> truthy (get u "proxy_wallet") = true ->
  exists kv, In kv uu /\ Q (snd kv) /\ truthy (get (snd kv) "proxy_wallet") = true
             /\ same_wallet (get u "proxy_wallet") (get (snd kv) "proxy_wallet") = true.
Proof.
  intros Hq H Hu Ht.
  destruct (unique_users_aux_cover users [] uu Hq ltac:(intros kv []) H) as [R1 [R2 _]].
  destruct (R2 u Hu Ht) as [kv [k1 [Hin [Hk1 Heq]]]].
  destruct (R1 kv Hin) as [Hqk [Htk [k0 [Hk0 Heq0]]]].
  exists kv. split; [exact Hin|]. split; [exact Hqk|]. split; [exact Htk|].
  unfold same_wallet. rewrite Hk1, Hk0. rewrite key_eqb_sym in Heq0.
  exact (key_eqb_trans _ _ _ Heq Heq0).
Qed.

End UniqueUsers.

(** For the users of a list of trades: dropping [None]s keeps the wallet. *)
Lemma unique_users_trades_cover ts uu t :
  unique_users (map transform_user_data ts) = Ok uu ->
  In t ts -> truthy (get t "proxyWallet") = true ->
  exists kv, In kv uu
    /\ get (drop_none (snd kv)) "proxy_wallet" = get (snd kv) "proxy_wallet"
    /\ truthy (get (snd kv) "proxy_wallet") = true
    /\ same_wallet (get t "proxyWallet") (get (snd kv) "proxy_wallet") = true.
Proof.
  intros H Ht Htr.
  apply (unique_users_cover (fun u => get (drop_none u) "proxy_wallet" = get u "proxy_wallet")
           (map transform_user_data ts) uu (transform_user_data t)).
  - intros u Hu. apply in_map_iff in Hu as [t' [<- _]].
    rewrite drop_none_user_wallet. reflexivity.
  - exact H.
  - apply in_map. exact Ht.
  - exact Htr.
Qed.

Lemma ubt_load_trades exec fetch limit : ubt_comp (load_trades exec fetch limit).
Proof.
  unfold load_trades. apply ubt_bind; [apply ubt_load_trades_fetch|].
  intros [all|]; [|apply ubt_ret].
  destruct (insert_trades_run exec all) as [Pt [Tt [kt Kt]]].
  split.
  { apply pure_bind; [apply pure_lift|]. intros uu.
    apply pure_bind; [apply upsert_users_run|]. intros _.
    apply pure_bind; [exact Pt|]. intros k. apply pure_ret. }
  unfold bind, lift, ret.
  destruct (unique_users (map transform_user_data all)) as [uu|e] eqn:Eu; [|reflexivity].
  destruct (upsert_users_run exec (map snd uu)) as [Pu [Tu [ku Ku]]].
  destruct (upsert_users exec (map snd uu) []) as [t1 r1] eqn:E1.
  simpl in Tu, Ku. subst t1 r1. cbv beta iota.
  rewrite (Pt (List.concat (map user_trace (map snd uu)))), Kt. cbn [fst].
  rewrite Tt.
  apply ubt_users_then_trades; [apply user_trace_no_trades|].
  intros e w He Hw. destruct (trade_trace_wallets all e w He Hw) as [t [Ht [-> Htr]]].
  destruct (unique_users_trades_cover all uu t Eu Ht Htr) as [kv [Hin [Hq [Hkt Hs]]]].
  exists (get (drop_none (snd kv)) "proxy_wallet"). rewrite Hq. split; [|exact Hs].
  rewrite <- Hq. apply user_trace_wallet; [apply in_map; exact Hin|].
  rewrite Hq. exact Hkt.
Qed.

Lemma ubt_insert_trades_batch exec trades :
  users_before_trades (fst (insert_trades_batch exec trades [])) = true.
Proof.
  rewrite insert_trades_batch_run. destruct trades as [|t0 ts]; [reflexivity|].
  destruct (unique_users (map transform_user_data (t0 :: ts))) as [uu|e] eqn:Eu;
    [|reflexivity].
  apply ubt_users_then_trades.
  - intros e He.
    destruct (bulk_upsert_requests exec "users" _ "proxy_wallet" 500 e ltac:(lia) He)
      as [p [-> _]].
    reflexivity.
  - intros e w He Hw.
    destruct (valid_trades (t0 :: ts)) as [vs|err] eqn:Ev; [|contradiction].
    destruct (bulk_insert_requests exec "trades" vs 500 e ltac:(lia) He) as [p [-> Hp]].
    simpl in Hw. apply in_map_iff in Hw as [r [<- Hr]].
    destruct (valid_trades_written _ _ Ev r (Hp r Hr)) as [t [Ht Hw]].
    destruct (written_trade_wallet t r Hw) as [Hrw [Htr _]]. rewrite Hrw.
    destruct (unique_users_trades_cover _ uu t Eu Ht Htr) as [kv [Hin [Hq [Hkt Hs]]]].
    destruct (bulk_upsert_covers exec "users" (map (fun kv => drop_none (snd kv)) uu)
                "proxy_wallet" 500 (drop_none (snd kv)) ltac:(lia)
                (in_map (fun kv => drop_none (snd kv)) _ _ Hin)) as [c [Hc Hrc]].
    exists (get (drop_none (snd kv)) "proxy_wallet"). rewrite Hq. split; [|exact Hs].
    rewrite <- Hq. apply in_flat_map. eexists. split; [exact Hc|].
    simpl. exact (in_map (fun u => get u "proxy_wallet") c _ Hrc).
Qed.

(** * Claims *)

(** C1: with a storage backend that rejects every request containing the
    single malformed record of the batch and accepts every other request,
    [bulk_insert] reports [N - 1] records written. *)
Theorem bulk_insert_drops_only_bad (bad : dict -> bool) (table : string)
  (records : list dict) (chunk_size : Z) :
  0 < chunk_size ->
  List.length (filter bad records) = 1%nat ->
  snd (bulk_insert (rejecting_backend bad) table records chunk_size [])
  = Ok (len records - 1).
Proof.
  intros Hcs Hone.
  destruct (bulk_insert_rejecting bad table records chunk_size [] Hcs) as [tr E].
  rewrite E. simpl. rewrite count_good_split. unfold len at 2. rewrite Hone. reflexivity.
Qed.

Lemma bulk_insert_drops_only_bad_witness :
  let records := sample_trades 150 ++ [malformed] ++ sample_trades 200 in
  0 < 1000 /\ List.length (filter is_malformed records) = 1%nat /\
  snd (bulk_insert (rejecting_backend is_malformed) "trades" records 1000 [])
  = Ok 350.
Proof.
  intros records. split; [lia|]. split; [vm_compute; reflexivity|].
  apply (bulk_insert_drops_only_bad is_malformed "trades" records 1000).
  - lia.
  - vm_compute. reflexivity.
Defined.

(** C2 (counterexample): in upsert mode a failed chunk of 101 records is not
    split into sub-chunks of 100; the request after the failed chunk is
    already a single-record upsert, and the whole run is the chunk followed
    by its 101 records one by one. *)
Lemma bulk_upsert_no_subchunks :
  let records := sample_trades 100 ++ [malformed] in
  100 < len records /\
  rejecting_backend is_malformed (mk_op "users" (WUpsert "proxy_wallet") (Many records))
  = None /\
  fst (bulk_upsert (rejecting_backend is_malformed) "users" records "proxy_wallet" 1000 [])
  = EWrite (mk_op "users" (WUpsert "proxy_wallet") (Many records)) ::
    one_by_one_trace "users" (WUpsert "proxy_wallet") records.
Proof. vm_compute. split; [reflexivity | split; reflexivity]. Qed.

(** C2 (amended): the requests of both write modes, chunk by chunk.  In
    insert mode a failed chunk of more than 100 records is retried as
    100-record sub-chunks, each degraded to one-by-one writes only if its
    own request fails, and a failed chunk of at most 100 records goes one by
    one; in upsert mode every failed chunk, whatever its size, goes one by
    one. *)
Theorem bulk_writer_degradation (exec : op -> option (list dict)) (table oc : string)
  (records : list dict) (chunk_size : Z) :
  0 < chunk_size ->
  fst (bulk_insert exec table records chunk_size [])
  = List.concat (map (insert_chunk_trace exec table) (chunks (Z.to_nat chunk_size) records))
  /\ fst (bulk_upsert exec table records oc chunk_size [])
  = List.concat (map (upsert_chunk_trace exec table oc)
                     (chunks (Z.to_nat chunk_size) records)).
Proof.
  intros Hcs. split.
  - rewrite (proj1 (bulk_insert_run exec table records chunk_size Hcs)).
    f_equal. apply map_ext. apply insert_chunk_run.
  - rewrite (proj1 (bulk_upsert_run exec table records oc chunk_size Hcs)).
    f_equal. apply map_ext. apply upsert_chunk_run.
Qed.

Lemma bulk_writer_degradation_witness :
  let records := sample_trades 150 ++ [malformed] in
  0 < 1000 /\
  fst (bulk_insert (rejecting_backend is_malformed) "trades" records 1000 [])
  = List.concat (map (insert_chunk_trace (rejecting_backend is_malformed) "trades")
                     (chunks 1000 records))
  /\ fst (bulk_upsert (rejecting_backend is_malformed) "trades" records "id" 1000 [])
  = List.concat (map (upsert_chunk_trace (rejecting_backend is_malformed) "trades" "id")
                     (chunks 1000 records)).
Proof.
  intros records. split; [lia|].
  apply (bulk_writer_degradation (rejecting_backend is_malformed) "trades" "id" records 1000).
  lia.
Defined.

(** C4: every record sent to the [trades] table, by the synchronous
    [insert_trades] or by the bulk path of [insert_trades_batch], whatever
    the trades and whatever the backend answers, has each of the five
    mandatory fields [proxy_wallet], [side], [size], [price] and [timestamp]
    present with a non-null (indeed truthy) value; a trade lacking one of
    them is never sent. *)
Theorem trades_written_have_mandatory_fields (exec : op -> option (list dict))
  (trades batch : list dict) (r : dict) :
  In r (trade_writes (fst (insert_trades exec trades [])))
  \/ In r (trade_writes (fst (insert_trades_batch exec batch []))) ->
  forall k, In k mandatory_fields ->
  exists v, dict_lookup r k = Some v /\ v <> PNone /\ truthy v = true.
Proof.
  intros H. apply mandatory_ok_fields.
  destruct H as [H|H];
    [destruct (insert_trades_writes exec trades r H) as [t [_ Hw]]
    |destruct (insert_trades_batch_writes exec batch r H) as [t [_ Hw]]];
    exact (proj2 (proj2 (written_trade_wallet t r Hw))).
Qed.

(** C10: a trade whose [size], [price] or [timestamp] is present but equal
    to [0] is dropped: it fails the truthiness check, [insert_trades] sends
    the same requests as without it, and [valid_trades] (the filter of
    [insert_trades_batch]) returns the same list as without it (or raises
    because of another field).  With [timestamp = 0] the transformer
    succeeds and the record without [None]s has no [datetime] key. *)
Theorem falsy_mandatory_dropped (exec : op -> option (list dict))
  (pre post : list dict) (trade : dict) :
  get trade "size" = PInt 0 \/ get trade "price" = PInt 0
  \/ get trade "timestamp" = PInt 0 ->
  written_trade trade = None
  /\ fst (insert_trades exec (pre ++ trade :: post) [])
     = fst (insert_trades exec (pre ++ post) [])
  /\ (valid_trades (pre ++ trade :: post) = valid_trades (pre ++ post)
      \/ exists e, valid_trades (pre ++ trade :: post) = Raise e)
  /\ (get trade "timestamp" = PInt 0 ->
      exists r, transform_trade_data trade = Ok r
                /\ dict_lookup (drop_none r) "datetime" = None).
Proof.
  intros Hz.
  assert (Hw : written_trade trade = None).
  { unfold written_trade. destruct (transform_trade_data trade) as [r|e] eqn:Er;
      [|reflexivity].
    destruct (transform_trade_fields _ _ Er) as [Hs [Hp Ht]].
    rewrite mandatory_ok_zero; [reflexivity|].
    rewrite !get_drop_none_nodup by exact (transform_trade_nodup _ _ Er).
    rewrite Hs, Hp, Ht. exact Hz. }
  split; [exact Hw|]. split.
  { rewrite !(proj1 (proj2 (insert_trades_run exec _))).
    rewrite !map_app, !concat_app. simpl. unfold trade_trace at 2. rewrite Hw.
    reflexivity. }
  split; [apply valid_trades_skip; exact Hw|].
  intros Ht. unfold transform_trade_data. rewrite Ht. simpl.
  eexists. split; [reflexivity|].
  set (r := drop_none _).
  destruct (dict_lookup r "datetime") as [v|] eqn:Ev; [|reflexivity].
  exfalso. apply (lookup_drop_none_some _ _ _ Ev).
  assert (Hg : get r "datetime" = PNone).
  { unfold r. rewrite get_drop_none_nodup; [reflexivity|].
    repeat constructor; simpl; intuition discriminate. }
  unfold get, get_or in Hg. rewrite Ev in Hg. exact Hg.
Qed.

(** C8 (counterexample): the synchronous [get_trades] has no status check;
    on an HTTP 429 response it returns the decoded error body instead of an
    empty list, and on a timeout it raises. *)
Lemma sync_get_trades_ignores_status :
  get_trades (HttpResponse 429 (Some (PDict [("error", PStr "rate limited")])))
  = Ok (PDict [("error", PStr "rate limited")])
  /\ get_trades (HttpResponse 500 (Some (PDict [("error", PStr "internal")])))
     = Ok (PDict [("error", PStr "internal")])
  /\ get_trades HttpTimeout = Raise RequestError.
Proof. repeat split. Qed.

(** C8 (amended): the asynchronous clients return the decoded body on 200
    (an empty list when it does not decode), sleep 5 seconds and return an
    empty list on 429, and return an empty list on any other status, on a
    timeout and on any other transport error.  The synchronous clients
    return the decoded body whatever the status, and raise on a timeout, a
    transport error or a body that does not decode. *)
Theorem client_contract (status : Z) (body : option pyval) :
  fetch_trades_async (HttpResponse status body)
  = (if status =? 429 then [5] else [],
     if status =? 200 then match body with Some v => v | None => PList [] end
     else PList [])
  /\ fetch_trades_async HttpTimeout = ([], PList [])
  /\ fetch_trades_async HttpError = ([], PList [])
  /\ fetch_events_async (HttpResponse status body)
     = (if status =? 429 then [5] else [],
        if status =? 200 then match body with Some v => v | None => PList [] end
        else PList [])
  /\ fetch_events_async HttpTimeout = ([], PList [])
  /\ fetch_events_async HttpError = ([], PList [])
  /\ get_trades (HttpResponse status body)
     = match body with Some v => Ok v | None => Raise ValueError end
  /\ get_events (HttpResponse status body)
     = match body with Some v => Ok v | None => Raise ValueError end
  /\ get_trades HttpTimeout = Raise RequestError
  /\ get_trades HttpError = Raise RequestError
  /\ get_events HttpTimeout = Raise RequestError
  /\ get_events HttpError = Raise RequestError.
Proof.
  assert (Ha : forall f : http_outcome -> list Z * pyval,
    (forall r, f r = match r with
                     | HttpResponse status body =>
                         if status =? 200 then
                           match response_json body with
                           | Ok v => ([], v) | Raise _ => ([], PList [])
                           end
                         else if status =? 429 then ([5], PList []) else ([], PList [])
                     | HttpTimeout => ([], PList [])
                     | HttpError => ([], PList [])
                     end) ->
    f (HttpResponse status body)
    = (if status =? 429 then [5] else [],
       if status =? 200 then match body with Some v => v | None => PList [] end
       else PList [])).
  { intros f Hf. rewrite Hf.
    destruct (Z.eqb_spec status 200) as [->|H200]; [destruct body; reflexivity|].
    destruct (status =? 429); reflexivity. }
  repeat split; try reflexivity; apply Ha; intros []; reflexivity.
Qed.



(** C5 (amended): after a non-empty page both drivers advance the offset by
    [batch_size], whatever the page's size; a page shorter than
    [batch_size] (or, in the async driver, reaching the cap) ends the loop
    instead. *)
Theorem offset_advances_by_batch_size (exec : op -> option (list dict))
  (fetch : Z -> Z -> result (list dict)) (afetch : Z -> Z -> list dict)
  (bs cap : Z) (fuel : nat) (c : market_cursor) (fc : fetch_cursor)
  (p : dict) (ps : list dict) (q : dict) (qs : list dict) :
  fetch bs (offset c) = Ok (p :: ps) ->
  collect_users (map transform_user_data (p :: ps)) = Ok tt ->
  afetch bs (f_offset fc) = q :: qs ->
  (exists c', snd (trades_page_step exec fetch bs c [])
              = Ok (if len (p :: ps) <? bs then Break c' else Continue c')
              /\ offset c' = offset c + bs)
  /\ (let fc' := mk_fcursor (all_trades fc ++ q :: qs) (f_offset fc + bs)
                            (fetches fc + 1) in
      fetch_all_loop afetch bs cap (S fuel) fc
      = if (cap <=? len (all_trades fc')) || (len (q :: qs) <? bs) then Some fc'
        else fetch_all_loop afetch bs cap fuel fc').
Proof.
  intros Hf Hc Ha. split.
  - destruct (proj2 (proj2 (insert_trades_run exec (p :: ps)))) as [k Hk].
    rewrite (trades_page_step_page exec fetch bs c p ps k Hf Hc Hk). simpl.
    eexists. split; reflexivity.
  - simpl. rewrite Ha.
    destruct (cap <=? len (all_trades fc ++ q :: qs)); reflexivity.
Qed.

(** C6 (amended): for a source serving a fixed list of pages, a positive
    batch size, a backend that accepts every request and hashable wallets,
    the per-market driver terminates within [length pages + 1] iterations;
    it requests the pages up to and including the first one shorter than
    the batch size (an empty page included), at offsets [0, bs, 2 bs, ...],
    and reports the number of trades of those pages that pass the
    transformer and the mandatory-field check. *)
Theorem pagination_total (exec : op -> option (list dict)) (pages : list (list dict))
  (bs : Z) (cid : string) (fuel : nat) :
  0 < bs ->
  (forall o, exec o <> None) ->
  (forall p, In p pages -> collect_users (map transform_user_data p) = Ok tt) ->
  (List.length pages < fuel)%nat ->
  snd (init_load_all_trades_by_market exec (fun _ => page_source pages) bs 0 [cid] fuel [])
  = Ok (Some (sum_written (pages_read bs pages), 1))
  /\ fetch_offsets (fst (init_load_all_trades_by_market exec (fun _ => page_source pages)
                          bs 0 [cid] fuel []))
     = map (fun j => bs * Z.of_nat j) (seq 0 (List.length (pages_read bs pages))).
Proof. intros Hbs Hexec Hw Hlen. apply init_load_pages; assumption. Qed.

(** C7 (amended): with a positive batch size and cap, and pages of at most
    [batch_size] records, the fetch stops within [cap + 1] iterations and
    accumulates fewer than [cap + batch_size] records; when [batch_size]
    divides the cap (as the defaults 100 and 10,000 do) it accumulates at
    most [cap] records. *)
Theorem fetch_cap_bound (afetch : Z -> Z -> list dict) (bs cap : Z) (fuel : nat) :
  0 < bs -> 0 < cap ->
  (forall o, len (afetch bs o) <= bs) ->
  (Z.to_nat cap < fuel)%nat ->
  exists ts, fetch_all_trades_for_market afetch bs cap fuel = Some (ts, len ts)
    /\ len ts < cap + bs
    /\ ((bs | cap) -> len ts <= cap).
Proof.
  intros Hbs Hcap Hpage Hfuel.
  destruct (fetch_all_loop_bound afetch bs cap Hbs Hpage fuel fcursor0)
    as [c [E [B1 B2]]].
  - simpl. unfold len. simpl. lia.
  - simpl. unfold len. simpl. rewrite Z.sub_0_r. exact Hfuel.
  - exists (all_trades c). unfold fetch_all_trades_for_market. rewrite E.
    split; [reflexivity|]. split; [exact B1|].
    intros Hd. apply B2; [exact Hd | apply Z.divide_0_r].
Qed.

(** C9: in the three paths that write trades (the per-market
    loop of [init_load_all_trades_by_market], [load_trades] and
    [insert_trades_batch]), every trade write request of a run, for a trade
    with wallet [W], comes after a user upsert request, issued earlier in the
    same run, whose record has a wallet equal ([==]) to [W]: the users of a
    page or batch are upserted before its trades are inserted. *)
Theorem users_upserted_before_trades (exec : op -> option (list dict))
  (fetch : string -> Z -> Z -> result (list dict)) (fetch1 : Z -> Z -> result (list dict))
  (bs limit : Z) (start : nat) (cids : list string) (fuel : nat) (trades : list dict) :
  users_before_trades (fst (init_load_all_trades_by_market exec fetch bs start cids fuel []))
    = true
  /\ users_before_trades (fst (load_trades exec fetch1 limit [])) = true
  /\ users_before_trades (fst (insert_trades_batch exec trades [])) = true.
Proof.
  split; [exact (proj2 (ubt_init_load exec fetch bs start cids fuel))|].
  split; [exact (proj2 (ubt_load_trades exec fetch1 limit))|].
  apply ubt_insert_trades_batch.
Qed.

(** * Further properties *)

(** ** Row retrieval *)

Lemma firstn_nil_inv {A} (k : nat) (l : list A) :
  (1 <= k)%nat -> firstn k l = [] -> l = [].
Proof. intros Hk. destruct k as [|k]; [lia|]. destruct l; simpl; congruence. Qed.

Lemma retrieve_loop_range rows bs :
  0 < bs ->
  forall fuel off acc, 0 <= off ->
  (List.length rows - Z.to_nat off < fuel)%nat ->
  retrieve_all_rows_loop (range_source rows) bs fuel off acc
  = Some (Ok (acc ++ skipn (Z.to_nat off) rows)).
Proof.
  intros Hbs fuel. induction fuel as [|f IH]; intros off acc Hoff Hf; [lia|].
  cbn [retrieve_all_rows_loop]. unfold range_source.
  replace (off + bs - 1 - off + 1) with bs by lia.
  set (s := skipn (Z.to_nat off) rows).
  destruct (firstn (Z.to_nat bs) s) as [|b bs'] eqn:Eb.
  - apply firstn_nil_inv in Eb; [|lia]. rewrite Eb, app_nil_r. reflexivity.
  - assert (Hlen : List.length (b :: bs') = Nat.min (Z.to_nat bs) (List.length s))
      by (rewrite <- Eb; apply length_firstn).
    destruct (len (b :: bs') <? bs) eqn:Elt.
    + apply Z.ltb_lt in Elt. unfold len in Elt.
      rewrite <- Eb, firstn_all2; [reflexivity|]. lia.
    + apply Z.ltb_ge in Elt. unfold len in Elt.
      assert (Hk : List.length (b :: bs') = Z.to_nat bs) by lia.
      rewrite IH by (try lia; rewrite Z2Nat.inj_add by lia; unfold s in Hlen;
                     rewrite length_skipn in Hlen; lia).
      rewrite <- app_assoc. f_equal. f_equal. f_equal.
      rewrite <- Eb, Z2Nat.inj_add by lia. rewrite Nat.add_comm, <- skipn_skipn.
      apply firstn_skipn.
Qed.

Lemma retrieve_loop_stuck query acc fuel :
  forall r rs, query 0 (-1) = Ok (r :: rs) ->
  retrieve_all_rows_loop query 0 fuel 0 acc = None.
Proof.
  revert acc. induction fuel as [|f IH]; intros acc r rs Hq; [reflexivity|].
  cbn [retrieve_all_rows_loop]. change (0 + 0 - 1) with (-1). rewrite Hq.
  replace (len (r :: rs) <? 0) with false by (symmetry; apply Z.ltb_ge; unfold len; lia).
  exact (IH _ r rs Hq).
Qed.

(** [set] building, element by element. *)
Lemma same_wallet_sym a b : same_wallet a b = same_wallet b a.
Proof.
  unfold same_wallet. destruct (py_key a), (py_key b); auto using key_eqb_sym.
Qed.

Lemma ForallOrdPairs_snoc {A} (R : A -> A -> Prop) l x :
  ForallOrdPairs R l -> Forall (fun a => R a x) l -> ForallOrdPairs R (l ++ [x]).
Proof.
  induction l as [|a l IH]; simpl; intros Hp Hf.
  - constructor; [constructor | constructor].
  - inversion Hp as [|? ? Ha Hl]; subst. inversion Hf as [|? ? Hax Hfl]; subst.
    constructor; [|auto]. apply Forall_app. split; [exact Ha|]. constructor; auto.
Qed.

Lemma py_set_aux_ok xs : forall acc out,
  py_set_aux xs acc = Ok out ->
  (forall v, In v out -> In v acc \/ In v xs)
  /\ (forall x, In x xs -> exists v, In v out /\ same_wallet v x = true)
  /\ incl acc out
  /\ (ForallOrdPairs (fun a b => same_wallet a b = false) acc ->
      ForallOrdPairs (fun a b => same_wallet a b = false) out).
Proof.
  induction xs as [|x xs IH]; intros acc out H; cbn [py_set_aux] in H.
  - inversion H; subst. split; [auto|]. split; [intros x []|]. split; [apply incl_refl | auto].
  - destruct (py_key x) as [k|e] eqn:Ek; [|discriminate].
    destruct (existsb (same_wallet x) acc) eqn:Ex.
    + destruct (IH _ _ H) as [H1 [H2 [H3 H4]]]. split; [|split; [|split]].
      * intros v Hv. destruct (H1 v Hv); simpl; auto.
      * intros y [<- | Hy]; [|exact (H2 y Hy)].
        apply existsb_exists in Ex as [a [Ha Hxa]]. exists a. split; [auto|].
        rewrite same_wallet_sym. exact Hxa.
      * exact H3.
      * exact H4.
    + destruct (IH _ _ H) as [H1 [H2 [H3 H4]]]. split; [|split; [|split]].
      * intros v Hv. destruct (H1 v Hv) as [Hv'|Hv']; [|simpl; auto].
        apply in_app_or in Hv' as [Hv'|[<- | []]]; simpl; auto.
      * intros y [<- | Hy]; [|exact (H2 y Hy)]. exists x. split.
        -- apply H3. apply in_or_app. right. left. reflexivity.
        -- exact (same_wallet_refl x k Ek).
      * intros a Ha. apply H3. apply in_or_app. left. exact Ha.
      * intros Hp. apply H4. apply ForallOrdPairs_snoc; [exact Hp|].
        apply Forall_forall. intros a Ha. rewrite same_wallet_sym.
        destruct (same_wallet x a) eqn:E; [|reflexivity].
        assert (existsb (same_wallet x) acc = true) by (apply existsb_exists; eauto).
        congruence.
Qed.

Lemma py_set_aux_raise xs : forall acc e,
  py_set_aux xs acc = Raise e -> e = TypeError /\ exists x, In x xs /\ py_key x = Raise TypeError.
Proof.
  induction xs as [|x xs IH]; intros acc e H; cbn [py_set_aux] in H; [discriminate|].
  destruct (py_key x) as [k|e'] eqn:Ek.
  - destruct (IH _ _ H) as [He [y [Hy Hk]]]. split; [exact He|]. exists y. simpl. auto.
  - inversion H; subst. destruct x; try discriminate; cbn in Ek; inversion Ek; subst;
      (split; [reflexivity|]); eexists; (split; [left; reflexivity | reflexivity]).
Qed.

Lemma py_set_aux_unhashable xs : forall acc,
  (exists x, In x xs /\ py_key x = Raise TypeError) ->
  exists e, py_set_aux xs acc = Raise e.
Proof.
  induction xs as [|x xs IH]; intros acc [y [Hy Hk]]; [contradiction|].
  cbn [py_set_aux]. destruct (py_key x) as [k|e] eqn:Ek; [|eauto].
  destruct Hy as [<- | Hy]; [congruence|]. apply IH. eauto.
Qed.

(** X1. [retrieve_all_rows] on a table served by ranges, with a positive batch
    size, returns every row of the table, in order, once the loop may run
    more times than there are rows. *)
Theorem retrieve_all_rows_range_roundtrip (rows : list dict) (batch_size : Z)
  (fuel : nat) :
  0 < batch_size -> (List.length rows < fuel)%nat ->
  retrieve_all_rows (range_source rows) batch_size fuel = Some (Ok rows).
Proof.
  intros Hbs Hf. unfold retrieve_all_rows.
  rewrite (retrieve_loop_range rows batch_size Hbs fuel 0 [] ltac:(lia)) by (simpl; lia).
  reflexivity.
Qed.

Lemma retrieve_all_rows_range_roundtrip_witness :
  0 < 2 /\ (List.length [[("a", PInt 1)]; [("a", PInt 2)]; [("a", PInt 3)]] < 4)%nat /\
  retrieve_all_rows (range_source [[("a", PInt 1)]; [("a", PInt 2)]; [("a", PInt 3)]]) 2 4
  = Some (Ok [[("a", PInt 1)]; [("a", PInt 2)]; [("a", PInt 3)]]).
Proof.
  assert (H1 : 0 < 2) by lia.
  assert (H2 : (List.length [[("a", PInt 1)]; [("a", PInt 2)]; [("a", PInt 3)]] < 4)%nat)
    by (simpl; lia).
  split; [exact H1|]. split; [exact H2|].
  exact (retrieve_all_rows_range_roundtrip _ 2 4 H1 H2).
Defined.

(** X2. With [batch_size = 0], [retrieve_all_rows] asks for the range [(0, -1)]
    again and again: as soon as that answer is a non-empty page it never
    returns, whatever the number of iterations allowed. *)
Theorem retrieve_all_rows_zero_batch_loops (query : Z -> Z -> result (list dict))
  (r : dict) (rs : list dict) (fuel : nat) :
  query 0 (-1) = Ok (r :: rs) ->
  retrieve_all_rows query 0 fuel = None.
Proof. intros Hq. exact (retrieve_loop_stuck query [] fuel r rs Hq). Qed.

Lemma retrieve_all_rows_zero_batch_loops_witness :
  (fun (_ _ : Z) => Ok [[("a", PInt 1)]] : result (list dict)) 0 (-1) = Ok [[("a", PInt 1)]]
  /\ retrieve_all_rows (fun _ _ => Ok [[("a", PInt 1)]]) 0 1000 = None.
Proof.
  split; [reflexivity|].
  exact (retrieve_all_rows_zero_batch_loops (fun _ _ => Ok [[("a", PInt 1)]])
           [("a", PInt 1)] [] 1000 eq_refl).
Defined.

(** X3. When [retrieve_all_distinct_values] returns, its values are the
    non-[None] values of the column in the rows read: each value is such a
    value, each such value is equal ([==]) to a returned one, and no two
    returned values are equal. *)
Theorem distinct_values_exact (query : Z -> Z -> result (list dict)) (column : string)
  (fuel : nat) (rows : list dict) (vs : list pyval) :
  retrieve_all_rows query 1000 fuel = Some (Ok rows) ->
  retrieve_all_distinct_values query column fuel = Some (Ok vs) ->
  (forall v, In v vs -> v <> PNone /\ exists row, In row rows /\ get row column = v)
  /\ (forall row, In row rows -> get row column <> PNone ->
        exists v, In v vs /\ same_wallet v (get row column) = true)
  /\ ForallOrdPairs (fun a b => same_wallet a b = false) vs.
Proof.
  intros Hr Hd. unfold retrieve_all_distinct_values in Hd. rewrite Hr in Hd.
  injection Hd as Hd. unfold py_set in Hd.
  destruct (py_set_aux_ok _ _ _ Hd) as [H1 [H2 [_ H4]]]. split; [|split].
  - intros v Hv. destruct (H1 v Hv) as [[]|Hin].
    apply in_map_iff in Hin as [row [<- Hrow]]. apply filter_In in Hrow as [Hrow Hn].
    split; [|eauto]. destruct (get row column); discriminate.
  - intros row Hrow Hn. apply H2. apply (in_map (fun row => get row column)).
    apply filter_In. split; [exact Hrow|].
    destruct (get row column); try reflexivity. congruence.
  - apply H4. constructor.
Qed.

Lemma distinct_values_exact_witness :
  let q := range_source [[("c", PStr "x")]; [("c", PNone)]; [("c", PStr "x")];
                         [("c", PInt 1)]; [("c", PBool true)]] in
  retrieve_all_rows q 1000 2 = Some (Ok [[("c", PStr "x")]; [("c", PNone)];
                                          [("c", PStr "x")]; [("c", PInt 1)];
                                          [("c", PBool true)]])
  /\ retrieve_all_distinct_values q "c" 2 = Some (Ok [PStr "x"; PInt 1])
  /\ ((forall v, In v [PStr "x"; PInt 1] -> v <> PNone /\
        exists row, In row [[("c", PStr "x")]; [("c", PNone)]; [("c", PStr "x")];
                            [("c", PInt 1)]; [("c", PBool true)]] /\ get row "c" = v)
      /\ (forall row, In row [[("c", PStr "x")]; [("c", PNone)]; [("c", PStr "x")];
                             [("c", PInt 1)]; [("c", PBool true)]] ->
            get row "c" <> PNone ->
            exists v, In v [PStr "x"; PInt 1] /\ same_wallet v (get row "c") = true)
      /\ ForallOrdPairs (fun a b => same_wallet a b = false) [PStr "x"; PInt 1]).
Proof.
  intros q.
  assert (H1 : retrieve_all_rows q 1000 2 = Some (Ok [[("c", PStr "x")]; [("c", PNone)];
                                          [("c", PStr "x")]; [("c", PInt 1)];
                                          [("c", PBool true)]])) by reflexivity.
  assert (H2 : retrieve_all_distinct_values q "c" 2 = Some (Ok [PStr "x"; PInt 1]))
    by reflexivity.
  split; [exact H1|]. split; [exact H2|].
  exact (distinct_values_exact q "c" 2 _ _ H1 H2).
Defined.

(** X4. Once the rows are read, [retrieve_all_distinct_values] raises exactly
    when a non-[None] value of the column is unhashable (a list or a dict),
    and then the exception is a [TypeError]. *)
Theorem distinct_values_unhashable (query : Z -> Z -> result (list dict))
  (column : string) (fuel : nat) (rows : list dict) :
  retrieve_all_rows query 1000 fuel = Some (Ok rows) ->
  (forall e, retrieve_all_distinct_values query column fuel = Some (Raise e) ->
             e = TypeError)
  /\ ((exists e, retrieve_all_distinct_values query column fuel = Some (Raise e))
      <-> exists row, In row rows /\ py_key (get row column) = Raise TypeError).
Proof.
  intros Hr. unfold retrieve_all_distinct_values. rewrite Hr. unfold py_set. split; [|split].
  - intros e He. injection He as He. exact (proj1 (py_set_aux_raise _ _ _ He)).
  - intros [e He]. injection He as He.
    destruct (py_set_aux_raise _ _ _ He) as [_ [x [Hx Hk]]].
    apply in_map_iff in Hx as [row [<- Hrow]]. apply filter_In in Hrow as [Hrow _]. eauto.
  - intros [row [Hrow Hk]].
    destruct (py_set_aux_unhashable
                (map (fun row => get row column)
                   (filter (fun row => negb (is_none (get row column))) rows)) [])
      as [e He].
    + exists (get row column). split; [|exact Hk].
      apply (in_map (fun row => get row column)). apply filter_In.
      split; [exact Hrow|]. destruct (get row column); try reflexivity; discriminate.
    + exists e. rewrite He. reflexivity.
Qed.

Lemma distinct_values_unhashable_witness :
  let q := range_source [[("c", PStr "x")]; [("c", PList [])]] in
  retrieve_all_rows q 1000 2 = Some (Ok [[("c", PStr "x")]; [("c", PList [])]])
  /\ (forall e, retrieve_all_distinct_values q "c" 2 = Some (Raise e) -> e = TypeError)
  /\ ((exists e, retrieve_all_distinct_values q "c" 2 = Some (Raise e))
      <-> exists row, In row [[("c", PStr "x")]; [("c", PList [])]]
                      /\ py_key (get row "c") = Raise TypeError).
Proof.
  intros q.
  assert (H1 : retrieve_all_rows q 1000 2 = Some (Ok [[("c", PStr "x")]; [("c", PList [])]]))
    by reflexivity.
  split; [exact H1|]. exact (distinct_values_unhashable q "c" 2 _ H1).
Defined.

(** ** Counts of the bulk writer *)

Lemma foldM_bounded {A} (f : Z -> A -> M Z) (h : A -> Z) :
  (forall n x tr, exists tr' k, f n x tr = (tr', Ok k) /\ n <= k <= n + h x) ->
  forall xs n tr, exists tr' k, foldM f n xs tr = (tr', Ok k)
    /\ n <= k <= n + fold_right (fun x s => h x + s) 0 xs.
Proof.
  intros Hf xs. induction xs as [|x xs IH]; intros n tr; simpl.
  - exists tr, n. split; [reflexivity | lia].
  - destruct (Hf n x tr) as [tr1 [k1 [E1 B1]]]. rewrite (bind_ok _ _ _ _ _ E1).
    destruct (IH k1 tr1) as [tr2 [k2 [E2 B2]]]. exists tr2, k2. split; [exact E2 | lia].
Qed.

Lemma fold_len_ones {A} (l : list A) :
  fold_right (fun (_ : A) s => 1 + s) 0 l = len l.
Proof.
  unfold len. induction l as [|x l IH]; cbn [fold_right List.length]; [reflexivity|].
  rewrite IH. lia.
Qed.

Lemma fold_len_concat {A} (ls : list (list A)) :
  fold_right (fun x s => len x + s) 0 ls = len (List.concat ls).
Proof.
  unfold len. induction ls as [|l ls IH]; simpl; [reflexivity|].
  rewrite IH, length_app. lia.
Qed.

Section EchoBound.
Variable exec : op -> option (list dict).
(** The backend never returns more rows than the request carried. *)
Hypothesis Hecho : forall o d, exec o = Some d -> len d <= len (payload_records (op_payload o)).

Lemma insert_one_bound table n r tr :
  exists tr' k, insert_one exec table n r tr = (tr', Ok k) /\ n <= k <= n + 1.
Proof.
  unfold insert_one. mstep. destruct (exec _); eexists; eexists; (split; [reflexivity|lia]).
Qed.

Lemma one_by_one_bound table rs tr :
  exists tr' k, insert_one_by_one exec table rs tr = (tr', Ok k) /\ 0 <= k <= len rs.
Proof.
  destruct (foldM_bounded _ (fun _ => 1) (insert_one_bound table) rs 0 tr)
    as [tr' [k [E B]]].
  cbv beta in B. rewrite fold_len_ones in B. exists tr', k. split; [exact E | lia].
Qed.

Lemma small_chunk_bound table n small tr :
  exists tr' k, insert_small_chunk exec table n small tr = (tr', Ok k)
    /\ n <= k <= n + len small.
Proof.
  unfold insert_small_chunk.
  destruct (exec (mk_op table WInsert (Many small))) as [d|] eqn:Ex.
  - pose proof (Hecho _ _ Ex) as Hd. cbn [op_payload payload_records] in Hd.
    eexists; eexists. split.
    + apply try_ok. mstep. rewrite Ex. reflexivity.
    + unfold chunk_count, len in *. destruct d; lia.
  - destruct (one_by_one_bound table small (tr ++ [EWrite (mk_op table WInsert (Many small))]))
      as [tr1 [k1 [E1 B1]]].
    rewrite (try_err _ _ _ (tr ++ [EWrite (mk_op table WInsert (Many small))]) StorageError)
      by (mstep; rewrite Ex; reflexivity).
    rewrite (bind_ok _ _ _ _ _ E1). eexists; eexists. split; [reflexivity | lia].
Qed.

Lemma insert_chunk_bound table c tr :
  exists tr' k, insert_chunk exec table c tr = (tr', Ok k) /\ 0 <= k <= len c.
Proof.
  unfold insert_chunk.
  destruct (exec (mk_op table WInsert (Many c))) as [d|] eqn:Ex.
  - pose proof (Hecho _ _ Ex) as Hd. cbn [op_payload payload_records] in Hd.
    eexists; eexists. split.
    + apply try_ok. mstep. rewrite Ex. reflexivity.
    + unfold chunk_count, len in *. destruct d; lia.
  - rewrite (try_err _ _ _ (tr ++ [EWrite (mk_op table WInsert (Many c))]) StorageError)
      by (mstep; rewrite Ex; reflexivity).
    destruct (100 <? len c).
    + destruct (foldM_bounded _ len (small_chunk_bound table) (chunks 100 c) 0
                  (tr ++ [EWrite (mk_op table WInsert (Many c))])) as [tr1 [k1 [E1 B1]]].
      rewrite fold_len_concat, chunks_concat in B1 by lia.
      exists tr1, k1. split; [exact E1 | lia].
    + apply one_by_one_bound.
Qed.

Lemma upsert_one_bound table oc n r tr :
  exists tr' k, upsert_one exec table oc n r tr = (tr', Ok k) /\ n <= k <= n + 1.
Proof.
  unfold upsert_one. mstep. destruct (exec _); eexists; eexists; (split; [reflexivity|lia]).
Qed.

Lemma upsert_chunk_bound table oc c tr :
  exists tr' k, upsert_chunk exec table oc c tr = (tr', Ok k) /\ 0 <= k <= len c.
Proof.
  unfold upsert_chunk.
  destruct (exec (mk_op table (WUpsert oc) (Many c))) as [d|] eqn:Ex.
  - pose proof (Hecho _ _ Ex) as Hd. cbn [op_payload payload_records] in Hd.
    eexists; eexists. split.
    + apply try_ok. mstep. rewrite Ex. reflexivity.
    + unfold chunk_count, len in *. destruct d; lia.
  - rewrite (try_err _ _ _ (tr ++ [EWrite (mk_op table (WUpsert oc) (Many c))]) StorageError)
      by (mstep; rewrite Ex; reflexivity).
    destruct (foldM_bounded _ (fun _ => 1) (upsert_one_bound table oc) c 0
                (tr ++ [EWrite (mk_op table (WUpsert oc) (Many c))])) as [tr1 [k1 [E1 B1]]].
    cbv beta in B1. rewrite fold_len_ones in B1. exists tr1, k1. split; [exact E1 | lia].
Qed.

End EchoBound.

Section RejectingUpsert.
Variable bad : dict -> bool.

Lemma upsert_chunk_rejecting table oc chunk tr :
  exists tr', upsert_chunk (rejecting_backend bad) table oc chunk tr
              = (tr', Ok (count_good bad chunk)).
Proof.
  unfold upsert_chunk.
  set (tr1 := tr ++ [EWrite (mk_op table (WUpsert oc) (Many chunk))]).
  destruct (existsb bad chunk) eqn:Eb.
  - rewrite (try_err _ _ _ tr1 StorageError) by (mstep; rewrite Eb; reflexivity).
    assert (Hstep : forall n r tr, exists tr',
      upsert_one (rejecting_backend bad) table oc n r tr = (tr', Ok (n + count_good bad [r]))).
    { intros n0 r tr0. unfold upsert_one. mstep.
      unfold count_good, len. simpl.
      destruct (bad r); simpl; eexists; f_equal; f_equal; lia. }
    assert (Hsum : forall rs, fold_right (fun r s => count_good bad [r] + s) 0 rs
                              = count_good bad rs).
    { induction rs as [|r rs IH]; simpl; [reflexivity|].
      rewrite IH. change (r :: rs) with ([r] ++ rs). rewrite count_good_app. reflexivity. }
    destruct (foldM_sum _ (fun r => count_good bad [r]) Hstep chunk 0 tr1) as [tr' E].
    exists tr'. rewrite Hsum, Z.add_0_l in E. exact E.
  - exists tr1. apply try_ok. mstep. rewrite Eb.
    rewrite chunk_count_self, count_good_clean by assumption. reflexivity.
Qed.

End RejectingUpsert.

(** X5. When every row the backend returns for a request stands for a record
    of that request, [bulk_insert] and [bulk_upsert] never report more
    records than they were given, nor a negative count, whatever the chunk
    size. *)
Theorem bulk_writers_count_bounded (exec : op -> option (list dict)) (table oc : string)
  (records : list dict) (chunk_size : Z) :
  (forall o d, exec o = Some d -> len d <= len (payload_records (op_payload o))) ->
  (forall k, snd (bulk_insert exec table records chunk_size []) = Ok k ->
             0 <= k <= len records)
  /\ (forall k, snd (bulk_upsert exec table records oc chunk_size []) = Ok k ->
                0 <= k <= len records).
Proof.
  intros Hecho.
  assert (Hpos : forall cs, (cs =? 0) = false -> (cs <? 0) = false -> (1 <= Z.to_nat cs)%nat).
  { intros cs H1 H2. apply Z.eqb_neq in H1. apply Z.ltb_ge in H2. lia. }
  split; intros k; unfold bulk_insert, bulk_upsert;
    (destruct records as [|r0 rs0] eqn:Er;
     [simpl; intros H; inversion H; subst; unfold len; simpl; lia|]);
    rewrite <- Er;
    (destruct (chunk_size =? 0) eqn:E0; [discriminate|]);
    (destruct (chunk_size <? 0) eqn:E1;
     [simpl; intros H; inversion H; subst; unfold len; lia|]).
  - assert (Hs : forall n c tr, exists tr' k, insert_chunk_acc exec table n c tr = (tr', Ok k)
                                             /\ n <= k <= n + len c).
    { intros n c tr. destruct (insert_chunk_bound exec Hecho table c tr) as [tr1 [k1 [E B]]].
      unfold insert_chunk_acc. rewrite (bind_ok _ _ _ _ _ E).
      eexists; eexists. split; [reflexivity | lia]. }
    destruct (foldM_bounded _ len Hs (chunks (Z.to_nat chunk_size) records) 0 [])
      as [tr' [k' [E B]]].
    rewrite fold_len_concat, chunks_concat in B by exact (Hpos _ E0 E1).
    rewrite E. simpl. intros H. inversion H; subst. lia.
  - assert (Hs : forall n c tr, exists tr' k,
                   upsert_chunk_acc exec table oc n c tr = (tr', Ok k) /\ n <= k <= n + len c).
    { intros n c tr.
      destruct (upsert_chunk_bound exec Hecho table oc c tr) as [tr1 [k1 [E B]]].
      unfold upsert_chunk_acc. rewrite (bind_ok _ _ _ _ _ E).
      eexists; eexists. split; [reflexivity | lia]. }
    destruct (foldM_bounded _ len Hs (chunks (Z.to_nat chunk_size) records) 0 [])
      as [tr' [k' [E B]]].
    rewrite fold_len_concat, chunks_concat in B by exact (Hpos _ E0 E1).
    rewrite E. simpl. intros H. inversion H; subst. lia.
Qed.

Lemma bulk_writers_count_bounded_witness :
  (forall o d, (fun o => Some (payload_records (op_payload o))) o = Some d ->
               len d <= len (payload_records (op_payload o)))
  /\ (forall k, snd (bulk_insert (fun o => Some (payload_records (op_payload o))) "trades"
                       (sample_trades 250) 100 []) = Ok k -> 0 <= k <= len (sample_trades 250))
  /\ (forall k, snd (bulk_upsert (fun o => Some (payload_records (op_payload o))) "trades"
                       (sample_trades 250) "slug" 100 []) = Ok k ->
                0 <= k <= len (sample_trades 250)).
Proof.
  assert (H : forall o d, (fun o => Some (payload_records (op_payload o))) o = Some d ->
                          len d <= len (payload_records (op_payload o))).
  { simpl. intros o d E. inversion E. lia. }
  split; [exact H|].
  exact (bulk_writers_count_bounded _ "trades" "slug" (sample_trades 250) 100 H).
Defined.

(** X6. With a backend that rejects exactly the requests containing a bad
    record, [bulk_upsert] with a positive chunk size counts the good records:
    a rejected chunk falls back to one upsert per record. *)
Theorem bulk_upsert_counts_good (bad : dict -> bool) (table oc : string)
  (records : list dict) (chunk_size : Z) :
  0 < chunk_size ->
  snd (bulk_upsert (rejecting_backend bad) table records oc chunk_size [])
  = Ok (count_good bad records).
Proof.
  intros Hcs. unfold bulk_upsert.
  destruct records as [|r0 rs0] eqn:Er; [reflexivity|]. rewrite <- Er.
  replace (chunk_size =? 0) with false by lia.
  replace (chunk_size <? 0) with false by lia.
  assert (Hs : forall n c tr0, exists tr1,
    upsert_chunk_acc (rejecting_backend bad) table oc n c tr0
    = (tr1, Ok (n + count_good bad c))).
  { intros n c tr0. destruct (upsert_chunk_rejecting bad table oc c tr0) as [tr1 E1].
    unfold upsert_chunk_acc. rewrite (bind_ok _ _ _ _ _ E1). eexists. reflexivity. }
  destruct (foldM_sum _ (count_good bad) Hs (chunks (Z.to_nat chunk_size) records) 0 [])
    as [tr' E].
  rewrite <- count_good_concat, chunks_concat, Z.add_0_l in E by lia.
  rewrite E. reflexivity.
Qed.

Lemma bulk_upsert_counts_good_witness :
  0 < 100 /\
  snd (bulk_upsert (rejecting_backend is_malformed) "users"
         (sample_trades 150 ++ [malformed] ++ sample_trades 30) "proxy_wallet" 100 [])
  = Ok (count_good is_malformed (sample_trades 150 ++ [malformed] ++ sample_trades 30)).
Proof.
  assert (H : 0 < 100) by lia. split; [exact H|].
  exact (bulk_upsert_counts_good is_malformed "users" "proxy_wallet" _ 100 H).
Defined.

(** ** Requests and counts through the monad *)

Lemma accepted_app exec a b : accepted exec (a ++ b) = accepted exec a + accepted exec b.
Proof. unfold accepted, len. rewrite filter_app, length_app. lia. Qed.

Lemma accepted_nil exec : accepted exec [] = 0.
Proof. reflexivity. Qed.

Lemma ta_ret {A} P (a : A) : trace_all P (ret a).
Proof. split; [apply pure_ret | constructor]. Qed.

Lemma ta_lift {A} P (r : result A) : trace_all P (lift r).
Proof. split; [apply pure_lift | constructor]. Qed.

Lemma ta_raise {A} P (e : exn) : trace_all P (@raise A e).
Proof. split; [apply pure_raise | constructor]. Qed.

Lemma ta_execute P exec o : P (EWrite o) -> trace_all P (execute exec o).
Proof. intros H. split; [apply pure_execute | constructor; [exact H | constructor]]. Qed.

Lemma ta_bind {A B} P (m : M A) (k : A -> M B) :
  trace_all P m -> (forall a, trace_all P (k a)) -> trace_all P (bind m k).
Proof.
  intros [Pm Fm] Hk. split; [apply pure_bind; [exact Pm | intros a; apply Hk]|].
  unfold bind. destruct (m []) as [t1 [a|e]] eqn:E1; simpl in Fm |- *; [|exact Fm].
  destruct (Hk a) as [Pk Fk]. rewrite (Pk t1). simpl. apply Forall_app. auto.
Qed.

Lemma ta_try {A} P (m : M A) (h : exn -> M A) :
  trace_all P m -> (forall e, trace_all P (h e)) -> trace_all P (try_ m h).
Proof.
  intros [Pm Fm] Hh. split; [apply pure_try; [exact Pm | intros e; apply Hh]|].
  unfold try_. destruct (m []) as [t1 [a|e]] eqn:E1; simpl in Fm |- *; [exact Fm|].
  destruct (Hh e) as [Ph Fh]. rewrite (Ph t1). simpl. apply Forall_app. auto.
Qed.

Lemma ta_foldM {A S} P (f : S -> A -> M S) xs :
  (forall s x, In x xs -> trace_all P (f s x)) -> forall s, trace_all P (foldM f s xs).
Proof.
  induction xs as [|x xs IH]; intros Hf s; simpl; [apply ta_ret|].
  apply ta_bind; [apply Hf; left; reflexivity|]. intros s'. apply IH.
  intros s0 y Hy. apply Hf. right. exact Hy.
Qed.

Lemma ta_impl {A} (P Q : event -> Prop) (m : M A) :
  (forall e, P e -> Q e) -> trace_all P m -> trace_all Q m.
Proof.
  intros H [Pm Fm]. split; [exact Pm|]. eapply Forall_impl; [exact H | exact Fm].
Qed.

Lemma counts_foldM {A S} exec (proj : S -> Z) (f : S -> A -> M S) :
  (forall s x, counts exec proj (proj s) (f s x)) ->
  forall xs s, counts exec proj (proj s) (foldM f s xs).
Proof.
  intros Hf xs. induction xs as [|x xs IH]; intros s; simpl.
  - split; [apply pure_ret|]. intros a H. inversion H; subst.
    unfold accepted, len. simpl. lia.
  - destruct (Hf s x) as [Pf Cf]. split.
    + apply pure_bind; [exact Pf|]. intros s'. apply IH.
    + unfold bind. destruct (f s x []) as [t1 [s'|e]] eqn:E1; simpl; [|discriminate].
      destruct (IH s') as [Pi Ci]. rewrite (Pi t1). simpl. intros a Ha.
      rewrite (Ci a Ha), accepted_app. specialize (Cf s' eq_refl). simpl in Cf. lia.
Qed.

(** Keys of the transformed records. *)
Lemma nodupb_NoDup l : nodupb l = true -> NoDup l.
Proof.
  induction l as [|x l IH]; simpl; intros H; [constructor|].
  apply andb_true_iff in H as [H1 H2]. constructor; [|auto].
  intros Hx. apply negb_true_iff in H1.
  assert (existsb (String.eqb x) l = true)
    by (apply existsb_exists; exists x; split; [exact Hx | apply String.eqb_refl]).
  congruence.
Qed.

Lemma market_event_id m eid :
  truthy (get (drop_none (transform_market_data m eid)) "event_id") = true ->
  get (drop_none (transform_market_data m eid)) "event_id" = eid.
Proof.
  rewrite get_drop_none_nodup by (apply nodupb_NoDup; reflexivity). intros _. reflexivity.
Qed.

Lemma event_record_id event t :
  transform_event_data event = Ok t -> get (drop_none t) "id" <> PNone ->
  get (drop_none t) "id" = get event "id".
Proof.
  unfold transform_event_data. destruct (py_len _) as [n|e]; [|discriminate].
  intros H. inversion H; subst t. clear H.
  rewrite get_drop_none_nodup by (apply nodupb_NoDup; reflexivity). intros _. reflexivity.
Qed.

(** ** The one-by-one event and market loaders *)

Section OneByOne.
Variable exec : op -> option (list dict).

Lemma upsert_events_unfold events : upsert_events exec events = foldM (upsert_event_step exec) 0 events.
Proof. reflexivity. Qed.

Lemma upsert_event_step_pure n e : pure_trace (upsert_event_step exec n e).
Proof. unfold upsert_event_step. cbv zeta. pure_auto. Qed.

Lemma upsert_event_step_run n e :
  fst (upsert_event_step exec n e []) = one_by_one_trace "events" (WUpsert "slug") (event_records [e])
  /\ exists s', snd (upsert_event_step exec n e []) = Ok s'.
Proof.
  unfold upsert_event_step, event_records, one_by_one_trace. cbn [flat_map].
  destruct (transform_event_data e) as [t|err]; mstep; [destruct (exec _)|];
    cbn; split; eauto.
Qed.

Lemma accepted_one o : accepted exec [EWrite o] = match exec o with Some _ => 1 | None => 0 end.
Proof. unfold accepted, len. cbn. destruct (exec o); reflexivity. Qed.

Lemma upsert_event_step_counts n e : counts exec (fun z => z) n (upsert_event_step exec n e).
Proof.
  split; [apply upsert_event_step_pure|].
  unfold upsert_event_step.
  destruct (transform_event_data e) as [t|err]; mstep; [destruct (exec _) eqn:Ex|];
    cbn [fst snd app]; intros z H; inversion H; subst;
    rewrite ?accepted_one, ?Ex, ?accepted_nil; first [reflexivity | lia].
Qed.

Lemma one_by_one_trace_app t m a b :
  one_by_one_trace t m (a ++ b) = one_by_one_trace t m a ++ one_by_one_trace t m b.
Proof. apply map_app. Qed.

Lemma event_records_cons e es : event_records (e :: es) = event_records [e] ++ event_records es.
Proof. unfold event_records. simpl. rewrite app_nil_r. reflexivity. Qed.

Lemma upsert_events_run events :
  pure_trace (upsert_events exec events)
  /\ fst (upsert_events exec events [])
     = one_by_one_trace "events" (WUpsert "slug") (event_records events)
  /\ exists k, snd (upsert_events exec events []) = Ok k
               /\ k = accepted exec (fst (upsert_events exec events [])).
Proof.
  rewrite upsert_events_unfold.
  split; [apply pure_foldM; apply upsert_event_step_pure|].
  destruct (foldM_trace _ (fun e => one_by_one_trace "events" (WUpsert "slug") (event_records [e]))
              upsert_event_step_pure upsert_event_step_run events 0) as [Ht [k Hk]].
  split.
  - rewrite Ht. clear. induction events as [|e es IH]; [reflexivity|].
    cbn [map List.concat]. rewrite IH, (event_records_cons e es), one_by_one_trace_app.
    reflexivity.
  - exists k. split; [exact Hk|].
    destruct (counts_foldM exec (fun z => z) (upsert_event_step exec) upsert_event_step_counts
                events 0) as [_ C].
    specialize (C k Hk). cbv beta in C. lia.
Qed.

Lemma upsert_markets_unfold ms eid :
  upsert_markets exec ms eid = foldM (upsert_market_step exec eid) 0 ms.
Proof. reflexivity. Qed.

Lemma upsert_market_step_pure eid n m : pure_trace (upsert_market_step exec eid n m).
Proof. unfold upsert_market_step. cbv zeta. pure_auto. Qed.

Lemma upsert_market_step_run eid n m :
  fst (upsert_market_step exec eid n m [])
  = one_by_one_trace "markets" (WUpsert "slug") [drop_none (transform_market_data m eid)]
  /\ exists s', snd (upsert_market_step exec eid n m []) = Ok s'.
Proof.
  unfold upsert_market_step, one_by_one_trace. mstep.
  destruct (exec _); cbn [fst snd app map]; split; eauto.
Qed.

Lemma upsert_market_step_counts eid n m :
  counts exec (fun z => z) n (upsert_market_step exec eid n m).
Proof.
  split; [apply upsert_market_step_pure|].
  unfold upsert_market_step. mstep. destruct (exec _) eqn:Ex;
    cbn [fst snd app]; intros z H; inversion H; subst;
    rewrite ?accepted_one, ?Ex; first [reflexivity | lia].
Qed.

End OneByOne.

(** X7. [upsert_events] sends one upsert request (table [events], conflict key
    [slug]) per event whose transform succeeds, with exactly the records
    [upsert_events_batch] collects, in order; it never raises and returns
    the number of requests the backend accepted. *)
Theorem upsert_events_requests (exec : op -> option (list dict)) (events : list dict) :
  fst (upsert_events exec events [])
  = one_by_one_trace "events" (WUpsert "slug") (event_records events)
  /\ snd (upsert_events exec events []) = Ok (accepted exec (fst (upsert_events exec events []))).
Proof.
  destruct (upsert_events_run exec events) as [_ [Ht [k [Hk Hc]]]].
  split; [exact Ht|]. rewrite Hk, Hc. reflexivity.
Qed.

(** X8. The deprecated [upsert_markets] sends one upsert request (table
    [markets], conflict key [slug]) per market, with the given [event_id]
    injected whatever its value (it does not skip a missing one); it never
    raises and returns the number of requests the backend accepted. *)
Theorem upsert_markets_requests (exec : op -> option (list dict)) (markets : list dict)
  (event_id : pyval) :
  fst (upsert_markets exec markets event_id [])
  = one_by_one_trace "markets" (WUpsert "slug")
      (map (fun m => drop_none (transform_market_data m event_id)) markets)
  /\ snd (upsert_markets exec markets event_id [])
     = Ok (accepted exec (fst (upsert_markets exec markets event_id []))).
Proof.
  rewrite upsert_markets_unfold.
  destruct (foldM_trace _ (fun m => one_by_one_trace "markets" (WUpsert "slug")
                                      [drop_none (transform_market_data m event_id)])
              (upsert_market_step_pure exec event_id) (upsert_market_step_run exec event_id)
              markets 0) as [Ht [k Hk]].
  split.
  - rewrite Ht. clear. induction markets as [|m ms IH]; [reflexivity|].
    cbn [map List.concat]. rewrite IH. reflexivity.
  - destruct (counts_foldM exec (fun z => z) (upsert_market_step exec event_id)
                (upsert_market_step_counts exec event_id) markets 0) as [_ C].
    specialize (C k Hk). cbv beta in C. rewrite Hk. f_equal. lia.
Qed.

(** ** Nested markets *)

Lemma counts_ret {A} exec (proj : A -> Z) a : counts exec proj (proj a) (ret a).
Proof. split; [apply pure_ret|]. intros b H. inversion H; subst. rewrite accepted_nil. lia. Qed.

Lemma counts_lift_bind {A B} exec (proj : B -> Z) base (r : result A) (k : A -> M B) :
  (forall a, counts exec proj base (k a)) -> counts exec proj base (bind (lift r) k).
Proof.
  intros Hk. destruct r as [a|e].
  - exact (Hk a).
  - split; [apply pure_bind; [apply pure_lift | intros a; apply Hk]|]. discriminate.
Qed.

Lemma market_write_one P t :
  truthy (get t "event_id") = true -> P (get t "event_id") ->
  market_write_ok P (EWrite (mk_op "markets" (WUpsert "slug") (One t))).
Proof. intros H1 H2. split; [reflexivity|]. constructor; [split; assumption | constructor]. Qed.

Section Nested.
Variable exec : op -> option (list dict).

Lemma nested_market_step_ta eid count market :
  trace_all (market_write_ok (fun v => v = eid)) (nested_market_step exec eid count market).
Proof.
  unfold nested_market_step. apply ta_try.
  - apply ta_bind; [apply ta_lift|]. intros m. cbv zeta.
    destruct (truthy (get (drop_none (transform_market_data m eid)) "event_id")) eqn:Et;
      cbn [negb]; [|apply ta_ret].
    apply ta_bind; [|intros; apply ta_ret]. apply ta_execute.
    apply market_write_one; [exact Et | apply market_event_id; exact Et].
  - intros e. apply ta_bind; [apply ta_lift | intros; apply ta_ret].
Qed.

Lemma nested_market_step_counts eid count market :
  counts exec (fun z => z) count (nested_market_step exec eid count market).
Proof.
  split; [exact (proj1 (nested_market_step_ta eid count market))|].
  unfold nested_market_step.
  destruct market as [| | | | |m];
    cbv beta iota zeta delta [try_ bind lift ret as_dict execute]; cbn [fst snd];
    [intros ? H; discriminate H .. |].
  destruct (truthy (get (drop_none (transform_market_data m eid)) "event_id")) eqn:Et;
    cbn [negb]; cbv beta iota.
  - destruct (exec _) eqn:Ex; cbn [fst snd app]; intros z H; inversion H; subst;
      rewrite accepted_one, Ex; first [reflexivity | lia].
  - cbn [fst snd]. intros z H. inversion H; subst. rewrite accepted_nil. lia.
Qed.

Lemma nested_markets_ta count event :
  trace_all (market_write_ok (fun v => v = get event "id")) (nested_markets exec count event).
Proof.
  unfold nested_markets. cbv zeta.
  destruct (negb (truthy (get_or event "markets" (PList [])))); [apply ta_ret|].
  apply ta_bind; [apply ta_lift|]. intros ms. apply ta_foldM. intros s x _.
  apply nested_market_step_ta.
Qed.

Lemma nested_markets_counts count event :
  counts exec (fun z => z) count (nested_markets exec count event).
Proof.
  unfold nested_markets. cbv zeta.
  destruct (negb (truthy (get_or event "markets" (PList [])))); [apply (counts_ret exec (fun z => z))|].
  apply counts_lift_bind. intros ms.
  exact (counts_foldM exec (fun z => z) _ (fun s x => nested_market_step_counts _ s x) ms count).
Qed.

Lemma nested_markets_all_ta evs count :
  trace_all (market_write_ok (fun v => exists e, In e evs /\ get e "id" = v))
            (foldM (nested_markets exec) count evs).
Proof.
  apply ta_foldM. intros s e He.
  apply (ta_impl (market_write_ok (fun v => v = get e "id"))); [|apply nested_markets_ta].
  intros [o|l o]; [|intros []]. intros [Ht Hf]. split; [exact Ht|].
  eapply Forall_impl; [|exact Hf]. intros r [Hr1 Hr2]. split; [exact Hr1|]. eauto.
Qed.

End Nested.

(** X9. [load_events_with_markets] first upserts the events one by one, then
    the nested markets: every market request carries a truthy [event_id]
    equal to the [id] of one of the events, and the two counts returned are
    the numbers of event and of market requests the backend accepted. *)
Theorem load_events_with_markets_requests (exec : op -> option (list dict))
  (events : list dict) :
  exists T,
    fst (load_events_with_markets exec (Ok events) [])
    = one_by_one_trace "events" (WUpsert "slug") (event_records events) ++ T
    /\ Forall (market_write_ok (fun v => exists e, In e events /\ get e "id" = v)) T
    /\ forall ec mc, snd (load_events_with_markets exec (Ok events) []) = Ok (ec, mc) ->
         ec = accepted exec (one_by_one_trace "events" (WUpsert "slug") (event_records events))
         /\ mc = accepted exec T.
Proof.
  destruct (upsert_events_run exec events) as [Pu [Tu [k [Hk Hc]]]].
  destruct (nested_markets_all_ta exec events 0) as [Pn Fn].
  destruct (counts_foldM exec (fun z => z) (nested_markets exec)
              (nested_markets_counts exec) events 0) as [_ Cn].
  exists (fst (foldM (nested_markets exec) 0 events [])).
  unfold load_events_with_markets.
  cbv beta iota delta [bind lift ret].
  destruct (upsert_events exec events []) as [t1 r1] eqn:E1.
  cbn [fst snd] in Tu, Hk, Hc. subst t1 r1.
  rewrite (Pn (one_by_one_trace "events" (WUpsert "slug") (event_records events))).
  destruct (foldM (nested_markets exec) 0 events []) as [t2 r2] eqn:E2.
  cbn [fst snd] in Fn, Cn |- *.
  split; [destruct r2; reflexivity|]. split; [exact Fn|].
  intros ec mc H. destruct r2 as [mc'|e]; [|discriminate]. inversion H; subst.
  split; [lia|]. specialize (Cn mc eq_refl). lia.
Qed.

(** ** The bulk event and market loaders *)

Lemma market_records_ok eid ms : forall rs,
  market_records eid ms = Ok rs ->
  Forall (fun r => truthy (get r "event_id") = true /\ get r "event_id" = eid) rs.
Proof.
  induction ms as [|m ms IH]; intros rs H; cbn [market_records] in H.
  - inversion H; subst. constructor.
  - destruct (as_dict m) as [d|e]; [|discriminate].
    remember (drop_none (transform_market_data d eid)) as t eqn:Ht.
    destruct (market_records eid ms) as [rs'|e] eqn:Er; [|discriminate].
    destruct (truthy (get t "event_id")) eqn:Et; injection H as H; subst rs.
    + constructor; [|exact (IH rs' eq_refl)]. split; [exact Et|].
      subst t. apply market_event_id. exact Et.
    + exact (IH rs' eq_refl).
Qed.

Lemma market_records_raise eid ms : forall e,
  market_records eid ms = Raise e -> e = AttributeError.
Proof.
  induction ms as [|m ms IH]; intros e H; cbn [market_records] in H; [discriminate|].
  destruct (as_dict m) as [d|e'] eqn:Ed.
  - remember (drop_none (transform_market_data d eid)) as t eqn:Ht.
    destruct (market_records eid ms) as [rs'|e'] eqn:Er; [discriminate|].
    injection H as H. subst e'. exact (IH e eq_refl).
  - inversion H; subst. destruct m; cbn in Ed; congruence.
Qed.

Lemma py_iter_raise v e : py_iter v = Raise e -> e = TypeError.
Proof. destruct v; cbn; congruence. Qed.

Lemma ta_lift_ok {A B} P (a : A) (k : A -> M B) :
  trace_all P (k a) -> trace_all P (bind (lift (Ok a)) k).
Proof. intros H. exact H. Qed.

Lemma ta_lift_raise {A B} P (e : exn) (k : A -> M B) : trace_all P (bind (lift (Raise e)) k).
Proof. exact (ta_raise P e). Qed.

Lemma upsert_markets_batch_ta exec markets eid :
  trace_all (market_write_ok (fun v => v = eid)) (upsert_markets_batch exec markets eid).
Proof.
  unfold upsert_markets_batch.
  destruct (negb (truthy markets)); [apply ta_ret|].
  destruct (py_iter markets) as [ms|e]; [apply ta_lift_ok | apply ta_lift_raise].
  destruct (market_records eid ms) as [rs|e] eqn:Er; [apply ta_lift_ok | apply ta_lift_raise].
  destruct rs as [|r0 rs0] eqn:Ers; [apply ta_ret|]. rewrite <- Ers.
  split; [apply pure_bulk_upsert|].
  apply Forall_forall. intros e He.
  destruct (bulk_upsert_requests exec "markets" rs "slug" 100 e ltac:(lia) He) as [p [-> Hp]].
  split; [reflexivity|]. apply Forall_forall. intros r Hr.
  subst rs. exact (proj1 (Forall_forall _ _) (market_records_ok eid ms _ Er) r (Hp r Hr)).
Qed.

(** X10. [upsert_markets_batch(markets, event_id)] sends only writes to the
    markets table, and every record it sends carries a truthy [event_id]
    equal to the [event_id] argument. *)
Theorem upsert_markets_batch_requests exec markets eid :
  trace_all (market_write_ok (fun v => v = eid)) (upsert_markets_batch exec markets eid).
Proof. apply upsert_markets_batch_ta. Qed.

(** X11. With a falsy [event_id], [upsert_markets_batch] sends no request: it
    returns 0, or raises the [TypeError] of iterating a non-iterable
    [markets], or the [AttributeError] of a market that is not a dict. *)
Theorem upsert_markets_batch_falsy_event exec markets eid :
  truthy eid = false ->
  fst (upsert_markets_batch exec markets eid []) = [] /\
  (snd (upsert_markets_batch exec markets eid []) = Ok 0 \/
   snd (upsert_markets_batch exec markets eid []) = Raise TypeError \/
   snd (upsert_markets_batch exec markets eid []) = Raise AttributeError).
Proof.
  intros Hf. unfold upsert_markets_batch.
  destruct (negb (truthy markets)); [split; [reflexivity | left; reflexivity]|].
  destruct (py_iter markets) as [ms|e] eqn:Ei;
    [| apply py_iter_raise in Ei; subst e; split; [reflexivity | right; left; reflexivity]].
  cbv beta iota delta [bind lift ret].
  destruct (market_records eid ms) as [rs|e] eqn:Er;
    [| apply market_records_raise in Er; subst e; split; [reflexivity | right; right; reflexivity]].
  destruct rs as [|r rs]; [split; [reflexivity | left; reflexivity]|].
  apply market_records_ok, Forall_inv in Er. destruct Er as [Ht Heq].
  rewrite Heq in Ht. congruence.
Qed.

Lemma upsert_markets_batch_falsy_event_witness :
  fst (upsert_markets_batch (fun _ => None) (PList [PDict [("slug", PStr "m")]; PInt 3]) PNone []) = [] /\
  (snd (upsert_markets_batch (fun _ => None) (PList [PDict [("slug", PStr "m")]; PInt 3]) PNone []) = Ok 0 \/
   snd (upsert_markets_batch (fun _ => None) (PList [PDict [("slug", PStr "m")]; PInt 3]) PNone []) = Raise TypeError \/
   snd (upsert_markets_batch (fun _ => None) (PList [PDict [("slug", PStr "m")]; PInt 3]) PNone []) = Raise AttributeError).
Proof. apply upsert_markets_batch_falsy_event. reflexivity. Defined.

(** ** The paginated event loaders *)

Lemma try_never_raises {A} (m : M A) (h : exn -> M A) :
  (forall e tr, exists a, snd (h e tr) = Ok a) ->
  forall tr, exists a, snd (try_ m h tr) = Ok a.
Proof.
  intros Hh tr. unfold try_. destruct (m tr) as [tr' [a|e]]; [exists a; reflexivity | apply Hh].
Qed.

Lemma market_write_ok_impl (P Q : pyval -> Prop) e :
  (forall v, P v -> Q v) -> market_write_ok P e -> market_write_ok Q e.
Proof.
  intros H. destruct e as [o|l o]; [|intros []]. intros [Ht Hf]. split; [exact Ht|].
  eapply Forall_impl; [|exact Hf]. intros r [Hr1 Hr2]. split; [exact Hr1 | apply H; exact Hr2].
Qed.

Section EventLoaders.

Variable exec : op -> option (list dict).

Lemma upsert_events_ta evs :
  trace_all (upsert_into "events" "slug") (upsert_events exec evs).
Proof.
  unfold upsert_events. apply ta_foldM. intros count ev _. cbv zeta.
  apply ta_try; [|intros; apply ta_ret].
  apply ta_bind; [apply ta_lift|]. intros t.
  apply ta_bind; [apply ta_execute; split; reflexivity | intros; apply ta_ret].
Qed.

Variable fetch : Z -> Z -> result (list dict).
Variable batch_size : Z.

Lemma events_page_step_ok c tr :
  exists s, snd (events_page_step exec fetch batch_size c tr) = Ok s.
Proof. unfold events_page_step. apply try_never_raises. intros. exists (Break c). reflexivity. Qed.

Lemma events_loop_ok fuel : forall c tr,
  exists r, snd (events_loop exec fetch batch_size fuel c tr) = Ok r.
Proof.
  induction fuel as [|f IH]; intros c tr; cbn [events_loop].
  - exists None. reflexivity.
  - cbv beta delta [bind].
    destruct (events_page_step_ok c tr) as [s Hs].
    destruct (events_page_step exec fetch batch_size c tr) as [tr' [s'|e]];
      cbn [snd] in Hs; [|discriminate].
    destruct s' as [c'|c']; try apply IH; eexists; reflexivity.
Qed.

Lemma events_page_step_ta c :
  trace_all (loader_request (fetched_event_id fetch batch_size))
            (events_page_step exec fetch batch_size c).
Proof.
  unfold events_page_step. apply ta_try; [|intros; apply ta_ret].
  destruct (fetch batch_size (e_offset c)) as [evs|e] eqn:Ef;
    [apply ta_lift_ok | apply ta_lift_raise].
  cbv beta. destruct evs as [|ev0 evs0]; [apply ta_ret|].
  apply ta_bind.
  - apply (ta_impl (upsert_into "events" "slug")); [intros e He; left; exact He|].
    apply upsert_events_ta.
  - intros k. cbv zeta. apply ta_try; [|intros; apply ta_ret].
    apply ta_bind; [|intros; apply ta_ret].
    eapply ta_impl; [|apply nested_markets_all_ta].
    intros e He. right. eapply market_write_ok_impl; [|exact He].
    intros v [ev [Hin Hv]]. exists (e_offset c), (ev0 :: evs0), ev. auto.
Qed.

Lemma events_loop_ta fuel : forall c,
  trace_all (loader_request (fetched_event_id fetch batch_size))
            (events_loop exec fetch batch_size fuel c).
Proof.
  induction fuel as [|f IH]; intros c; cbn [events_loop]; [apply ta_ret|].
  apply ta_bind; [apply events_page_step_ta|].
  intros [c'|c']; [apply IH | apply ta_ret].
Qed.

Lemma init_events_outcome {A B} bs start (loop : M A) (k : A -> M B) :
  (forall tr, exists r, snd (loop tr) = Ok r) ->
  (forall a tr, exists b, k a tr = (tr, Ok b)) ->
  match snd ((_ <- lift (first_batch_num bs start) ;; bind loop k) []) with
  | Ok _ => ~ (bs = 0 /\ start <> 0)
  | Raise e => e = ZeroDivisionError /\ bs = 0 /\ start <> 0 /\
               fst ((_ <- lift (first_batch_num bs start) ;; bind loop k) []) = []
  end.
Proof.
  intros Hl Hk. unfold first_batch_num.
  destruct (Z.eqb_spec start 0) as [Hs|Hs]; [|destruct (Z.eqb_spec bs 0) as [Hb|Hb]].
  2: { cbv beta iota delta [bind lift]. cbn [fst snd]. auto. }
  all: cbv beta iota delta [bind lift].
  all: destruct (Hl []) as [r Hr]; destruct (loop []) as [tr' [a|e]];
         cbn [snd] in Hr; [|discriminate].
  all: destruct (Hk a tr') as [b Hb']; rewrite Hb'; cbn [snd]; intros [? ?]; lia.
Qed.

End EventLoaders.

Section AsyncEventLoaders.

Variable exec : op -> option (list dict).
Variable afetch : Z -> Z -> list dict.
Variable batch_size : Z.

Lemma upsert_events_batch_ta evs :
  trace_all (upsert_into "events" "slug") (upsert_events_batch exec evs).
Proof.
  unfold upsert_events_batch. destruct evs as [|ev evs]; [apply ta_ret|].
  destruct (event_records (ev :: evs)) as [|r rs]; [apply ta_ret|].
  split; [apply pure_bulk_upsert|]. apply Forall_forall. intros e He.
  destruct (bulk_upsert_requests exec "events" (r :: rs) "slug" 100 e ltac:(lia) He)
    as [p [-> _]].
  split; reflexivity.
Qed.

Lemma events_async_step_ok c tr :
  exists s, snd (events_async_step exec afetch batch_size c tr) = Ok s.
Proof.
  unfold events_async_step. cbv zeta.
  destruct (afetch batch_size (e_offset c)); [exists (Break c); reflexivity|].
  apply try_never_raises. intros. exists (Break c). reflexivity.
Qed.

Lemma events_async_loop_ok fuel : forall c tr,
  exists r, snd (events_async_loop exec afetch batch_size fuel c tr) = Ok r.
Proof.
  induction fuel as [|f IH]; intros c tr; cbn [events_async_loop].
  - exists None. reflexivity.
  - cbv beta delta [bind].
    destruct (events_async_step_ok c tr) as [s Hs].
    destruct (events_async_step exec afetch batch_size c tr) as [tr' [s'|e]];
      cbn [snd] in Hs; [|discriminate].
    destruct s' as [c'|c']; try apply IH; eexists; reflexivity.
Qed.

Lemma events_async_step_ta c :
  trace_all (loader_request (afetched_event_id afetch batch_size))
            (events_async_step exec afetch batch_size c).
Proof.
  unfold events_async_step. cbv zeta.
  destruct (afetch batch_size (e_offset c)) as [|ev0 evs0] eqn:Ef; [apply ta_ret|].
  apply ta_try; [|intros; apply ta_ret].
  apply ta_bind.
  - apply (ta_impl (upsert_into "events" "slug")); [intros e He; left; exact He|].
    apply upsert_events_batch_ta.
  - intros k. cbv zeta. apply ta_try; [|intros; apply ta_ret].
    apply ta_bind; [|intros; apply ta_ret].
    apply ta_foldM. intros acc ev Hin. cbv beta zeta.
    destruct (truthy (get_or ev "markets" (PList []))); [|apply ta_ret].
    apply ta_bind; [|intros; apply ta_ret].
    eapply ta_impl; [|apply upsert_markets_batch_ta].
    intros e He. right. eapply market_write_ok_impl; [|exact He].
    intros v ->. exists (e_offset c), ev. split; [|reflexivity].
    rewrite Ef. apply filter_In in Hin. tauto.
Qed.

Lemma events_async_loop_ta fuel : forall c,
  trace_all (loader_request (afetched_event_id afetch batch_size))
            (events_async_loop exec afetch batch_size fuel c).
Proof.
  induction fuel as [|f IH]; intros c; cbn [events_async_loop]; [apply ta_ret|].
  apply ta_bind; [apply events_async_step_ta|].
  intros [c'|c']; [apply IH | apply ta_ret].
Qed.

End AsyncEventLoaders.

(** X12. The only exception [init_load_all_events_with_markets] and its
    async variant let escape is the [ZeroDivisionError] of
    [start_offset // batch_size]: they raise it exactly when [batch_size] is
    0 and [start_offset] is not, and then before any request.  Every failure
    inside the page loop is caught; this says nothing about termination
    (with [batch_size] 0 and [start_offset] 0 the loop can run forever,
    which the model shows as running out of [fuel]). *)
Theorem events_loaders_outcome exec fetch afetch bs start fuel :
  (forall e,
     snd (init_load_all_events_with_markets exec fetch bs start fuel []) = Raise e <->
     e = ZeroDivisionError /\ bs = 0 /\ start <> 0) /\
  (bs = 0 /\ start <> 0 ->
     fst (init_load_all_events_with_markets exec fetch bs start fuel []) = []) /\
  (forall e,
     snd (init_load_all_events_with_markets_async exec afetch bs start fuel []) = Raise e <->
     e = ZeroDivisionError /\ bs = 0 /\ start <> 0) /\
  (bs = 0 /\ start <> 0 ->
     fst (init_load_all_events_with_markets_async exec afetch bs start fuel []) = []).
Proof.
  assert (G : forall (c : M (option (Z * Z))),
    match snd (c []) with
    | Ok _ => ~ (bs = 0 /\ start <> 0)
    | Raise e => e = ZeroDivisionError /\ bs = 0 /\ start <> 0 /\ fst (c []) = []
    end ->
    (forall e, snd (c []) = Raise e <-> e = ZeroDivisionError /\ bs = 0 /\ start <> 0) /\
    (bs = 0 /\ start <> 0 -> fst (c []) = [])).
  { intros c H. destruct (c []) as [tr [r|e0]]; cbn [fst snd] in *.
    - split; [intros e; split; [discriminate | intros [_ Hc]; contradiction] |].
      intros Hc. contradiction.
    - destruct H as [-> [Hb [Hs Ht]]]. split; [|auto].
      intros e. split; [intros Hr; injection Hr as <-; auto | intros [-> _]; reflexivity]. }
  split; [|split; [|split]].
  - apply G, init_events_outcome; [apply events_loop_ok | intros; eexists; reflexivity].
  - apply G, init_events_outcome; [apply events_loop_ok | intros; eexists; reflexivity].
  - apply G, init_events_outcome;
      [apply events_async_loop_ok | intros; eexists; reflexivity].
  - apply G, init_events_outcome;
      [apply events_async_loop_ok | intros; eexists; reflexivity].
Qed.

(** X13. Every request of [init_load_all_events_with_markets] is an upsert
    into the events table on [slug], or a write to the markets table whose
    every record carries a truthy [event_id] that is the [id] of an event
    some page of [get_events] returned. *)
Theorem init_events_requests exec fetch bs start fuel :
  trace_all (loader_request (fetched_event_id fetch bs))
            (init_load_all_events_with_markets exec fetch bs start fuel).
Proof.
  unfold init_load_all_events_with_markets.
  apply ta_bind; [apply ta_lift|]. intros _.
  apply ta_bind; [apply events_loop_ta | intros; apply ta_ret].
Qed.

(** X14. Every request of [init_load_all_events_with_markets_async] is an
    upsert into the events table on [slug], or a write to the markets table
    whose every record carries a truthy [event_id] that is the [id] of an
    event some page of [fetch_events_async] returned. *)
Theorem init_events_async_requests exec afetch bs start fuel :
  trace_all (loader_request (afetched_event_id afetch bs))
            (init_load_all_events_with_markets_async exec afetch bs start fuel).
Proof.
  unfold init_load_all_events_with_markets_async.
  apply ta_bind; [apply ta_lift|]. intros _.
  apply ta_bind; [apply events_async_loop_ta | intros; apply ta_ret].
Qed.

(** ** Snapshots *)

Lemma counts_bind {A B} exec (p1 : A -> Z) (p2 : B -> Z) base (m : M A) (k : A -> M B) :
  counts exec p1 base m -> (forall a, counts exec p2 (p1 a) (k a)) ->
  counts exec p2 base (bind m k).
Proof.
  intros [Pm Cm] Hk. split; [apply pure_bind; [exact Pm | intros a; apply Hk]|].
  unfold bind. destruct (m []) as [t1 [a|e]] eqn:E; cbn [fst snd]; [|discriminate].
  destruct (Hk a) as [Pk Ck]. rewrite (Pk t1). cbn [fst snd]. intros b Hb.
  rewrite (Ck b Hb), accepted_app. specialize (Cm a).
  cbn [fst snd] in Cm. specialize (Cm eq_refl). lia.
Qed.

Section Snapshots.

Variable exec : op -> option (list dict).
Variable now : string.

Lemma take_market_snapshot_run market tr :
  take_market_snapshot exec now market tr =
  match market with
  | PDict m =>
      (tr ++ [EWrite (mk_op "market_snapshots" WInsert (One (snapshot_record now m)))],
       Ok (match exec (mk_op "market_snapshots" WInsert (One (snapshot_record now m))) with
           | Some _ => true
           | None => false
           end))
  | _ => (tr, Raise AttributeError)
  end.
Proof.
  unfold take_market_snapshot.
  destruct market as [| | | | |m]; cbv beta iota delta [try_ bind lift ret as_dict execute];
    try reflexivity.
  destruct (exec _); reflexivity.
Qed.

Lemma snapshot_step_counts count market :
  counts exec (fun z => z) count
    (ok <- take_market_snapshot exec now market ;; ret (if ok then count + 1 else count)).
Proof.
  split.
  - intros tr. unfold bind. rewrite !take_market_snapshot_run.
    destruct market; cbn [fst snd app]; rewrite ?app_nil_r; try reflexivity;
      destruct (exec _); reflexivity.
  - unfold bind. rewrite take_market_snapshot_run.
    destruct market as [| | | | |m]; cbn [fst snd]; try discriminate.
    destruct (exec _) eqn:Ex; cbv beta iota delta [ret]; cbn [fst snd app];
      intros z H; injection H as <-; rewrite accepted_one, Ex; lia.
Qed.

Lemma take_market_snapshot_ta market :
  trace_all (snapshot_insert now) (take_market_snapshot exec now market).
Proof.
  unfold take_market_snapshot. apply ta_try.
  - apply ta_bind; [apply ta_lift|]. intros m.
    apply ta_bind; [apply ta_execute; exists m; reflexivity | intros; apply ta_ret].
  - intros. apply ta_bind; [apply ta_lift | intros; apply ta_ret].
Qed.

End Snapshots.

(** X15. [take_snapshots_for_active_markets] sends only inserts of snapshot
    records into [market_snapshots], and the count it returns is the number
    of those inserts the backend accepted. *)
Theorem take_snapshots_counts exec events now :
  counts exec (fun z => z) 0 (take_snapshots_for_active_markets exec events now) /\
  trace_all (snapshot_insert now) (take_snapshots_for_active_markets exec events now).
Proof.
  unfold take_snapshots_for_active_markets. split.
  - apply counts_lift_bind. intros evs. apply (counts_bind _ fst).
    + apply (counts_foldM exec fst). intros [count tm] event. cbv beta iota zeta.
      apply counts_lift_bind. intros n. apply counts_lift_bind. intros ms.
      apply (counts_bind _ (fun z => z)).
      * apply (counts_foldM exec (fun z => z)). intros c market. apply snapshot_step_counts.
      * intros c. exact (counts_ret exec fst (c, tm + n)).
    + intros p. exact (counts_ret exec (fun z => z) (fst p)).
  - apply ta_bind; [apply ta_lift|]. intros evs.
    apply ta_bind; [|intros; apply ta_ret].
    apply ta_foldM. intros [count tm] event _. cbv beta iota zeta.
    apply ta_bind; [apply ta_lift|]. intros n. apply ta_bind; [apply ta_lift|]. intros ms.
    apply ta_bind; [|intros; apply ta_ret].
    apply ta_foldM. intros c market _.
    apply ta_bind; [apply take_market_snapshot_ta | intros; apply ta_ret].
Qed.

(** ** The async trade driver *)

Lemma foldM_bounded_proj {A S} (f : S -> A -> M S) (p : S -> Z) (h : A -> Z) :
  (forall s x tr, exists tr' s', f s x tr = (tr', Ok s') /\ p s <= p s' <= p s + h x) ->
  forall xs s tr, exists tr' s', foldM f s xs tr = (tr', Ok s')
    /\ p s <= p s' <= p s + fold_right (fun x z => h x + z) 0 xs.
Proof.
  intros Hf xs. induction xs as [|x xs IH]; intros s tr; cbn [foldM fold_right].
  - exists tr, s. split; [reflexivity | lia].
  - destruct (Hf s x tr) as [tr1 [s1 [E1 B1]]]. rewrite (bind_ok _ _ _ _ _ E1).
    destruct (IH s1 tr1) as [tr2 [s2 [E2 B2]]]. exists tr2, s2. split; [exact E2 | lia].
Qed.

Lemma len_filter_le {A} (f : A -> bool) (l : list A) : len (filter f l) <= len l.
Proof.
  unfold len. induction l as [|x l IH]; cbn [filter List.length]; [lia|].
  destruct (f x); cbn [List.length]; lia.
Qed.

Lemma len_combine_le {A B} (l : list A) (l' : list B) : len (combine l l') <= len l.
Proof.
  unfold len. revert l'. induction l as [|x l IH]; intros [|y l']; cbn [combine List.length];
    try lia. specialize (IH l'). lia.
Qed.

Section AsyncTrades.

Variable exec : op -> option (list dict).

Lemma pure_insert_trades_batch trades : pure_trace (insert_trades_batch exec trades).
Proof.
  unfold insert_trades_batch. destruct trades; [apply pure_ret|]. cbv zeta.
  apply pure_bind; [apply pure_lift|]. intros.
  apply pure_bind; [apply pure_bulk_upsert|]. intros.
  apply pure_bind; [apply pure_lift|]. intros.
  apply pure_bind; [apply pure_bulk_insert | intros; apply pure_ret].
Qed.

Lemma ubt_insert_trades_batch_comp trades : ubt_comp (insert_trades_batch exec trades).
Proof. split; [apply pure_insert_trades_batch | apply ubt_insert_trades_batch]. Qed.

Lemma process_market_batch_unfold mb rs :
  process_market_batch exec mb (Some rs) = foldM (process_result_step exec) (0, 0, 0) (combine mb rs).
Proof. reflexivity. Qed.

Lemma process_result_step_ubt acc r : ubt_comp (process_result_step exec acc r).
Proof.
  destruct acc as [[u t] m]. destruct r as [cid [[trades count]|]];
    unfold process_result_step; cbv beta iota zeta delta [fst snd]; [|apply ubt_ret].
  apply ubt_bind; [apply ubt_lift|]. intros _.
  destruct (0 <? count); [|apply ubt_ret].
  apply ubt_bind; [apply ubt_insert_trades_batch_comp | intros; apply ubt_ret].
Qed.

Lemma ubt_process_market_batch mb res : ubt_comp (process_market_batch exec mb res).
Proof.
  destruct res as [rs|]; [|apply ubt_ret].
  rewrite process_market_batch_unfold. apply ubt_foldM. apply process_result_step_ubt.
Qed.

Lemma process_result_step_markets acc r tr tr1 acc1 :
  process_result_step exec acc r tr = (tr1, Ok acc1) ->
  snd acc1 = snd acc + (if positive_result r then 1 else 0).
Proof.
  destruct acc as [[u t] m]. destruct r as [cid [[trades count]|]];
    unfold process_result_step, positive_result; cbv beta iota zeta delta [fst snd].
  2: { cbv delta [ret]. intros H. injection H as _ <-. cbn [snd]. lia. }
  cbv beta iota delta [bind lift ret].
  destruct (slice_head cid); [|discriminate].
  destruct (0 <? count).
  - destruct (insert_trades_batch exec trades tr) as [tr2 [p|e]]; [|discriminate].
    intros H. injection H as _ <-. cbn [snd]. lia.
  - intros H. injection H as _ <-. cbn [snd]. lia.
Qed.

Lemma process_fold_markets l : forall acc tr u t m,
  snd (foldM (process_result_step exec) acc l tr) = Ok (u, t, m) ->
  m = snd acc + len (filter positive_result l).
Proof.
  induction l as [|x l IH]; intros acc tr u t m; cbn [foldM].
  - cbv delta [ret]. cbn [snd]. intros H. injection H as ->. unfold len. cbn. lia.
  - unfold bind.
    destruct (process_result_step exec acc x tr) as [tr1 [acc1|e]] eqn:E;
      cbn [snd]; [|discriminate].
    intros H. apply IH in H. apply process_result_step_markets in E.
    cbn [filter]. destruct (positive_result x); unfold len in *; cbn [List.length]; lia.
Qed.

Lemma process_market_batch_bound mb res tr tr1 u t m :
  process_market_batch exec mb res tr = (tr1, Ok (u, t, m)) -> 0 <= m <= len mb.
Proof.
  destruct res as [rs|].
  - rewrite process_market_batch_unfold. intros H.
    assert (Hm := process_fold_markets (combine mb rs) (0, 0, 0) tr u t m).
    rewrite H in Hm. specialize (Hm eq_refl). cbn [snd] in Hm.
    pose proof (len_filter_le positive_result (combine mb rs)).
    pose proof (len_combine_le mb rs). unfold len in *. lia.
  - cbv delta [process_market_batch ret]. intros H. injection H as _ _ _ <-. unfold len. lia.
Qed.

Variable run_batch : list pyval -> option (list (option (list dict * Z))).

Lemma trades_batch_step_bound acc b tr :
  exists tr' acc', trades_batch_step exec run_batch acc b tr = (tr', Ok acc')
    /\ snd acc <= snd acc' <= snd acc + len b.
Proof.
  destruct acc as [[u t] m]. unfold trades_batch_step.
  cbv beta iota zeta delta [try_ bind ret].
  assert (0 <= len b) by (unfold len; lia).
  destruct (process_market_batch exec b (run_batch b) tr) as [tr1 [[[u' t'] m']|e]] eqn:E.
  - apply process_market_batch_bound in E.
    exists tr1, (u + u', t + t', m + m'). split; [reflexivity | cbn [snd]; lia].
  - exists tr1, (u, t, m). split; [reflexivity | cbn [snd]; lia].
Qed.

Lemma init_trades_async_unfold ids mpb start :
  init_load_all_trades_async exec (Some (Ok ids)) mpb start run_batch =
  match skipn start (filter (fun cid => negb (is_none cid)) ids) with
  | [] => ret (Some (0, 0, 0))
  | cids =>
      if mpb =? 0 then raise ValueError
      else r <- foldM (trades_batch_step exec run_batch) (0, 0, 0)
                      (if mpb <? 0 then [] else chunks (Z.to_nat mpb) cids) ;;
           ret (Some r)
  end.
Proof.
  unfold init_load_all_trades_async. cbv zeta.
  destruct (skipn start (filter (fun cid => negb (is_none cid)) ids)); reflexivity.
Qed.

Lemma ubt_init_trades_async distinct mpb start :
  ubt_comp (init_load_all_trades_async exec distinct mpb start run_batch).
Proof.
  destruct distinct as [[ids|e]|]; [|apply ubt_ret | apply ubt_ret].
  rewrite init_trades_async_unfold.
  destruct (skipn start (filter (fun cid => negb (is_none cid)) ids)); [apply ubt_ret|].
  destruct (mpb =? 0); [split; [apply pure_raise | reflexivity]|].
  apply ubt_bind; [|intros; apply ubt_ret]. apply ubt_foldM.
  intros [[u t] m] b. unfold trades_batch_step. cbv beta iota zeta.
  apply ubt_try; [|intros; apply ubt_ret].
  apply ubt_bind; [apply ubt_process_market_batch|]. intros [[u' t'] m']. apply ubt_ret.
Qed.

End AsyncTrades.

(** X16. When [process_market_batch] completes, its [markets_with_trades] is
    the number of markets of the batch whose fetch returned a result (not
    an exception) with a positive trade count, whatever that market's
    insert returned. *)
Theorem process_market_batch_markets exec mb rs u t m :
  snd (process_market_batch exec mb (Some rs) []) = Ok (u, t, m) ->
  m = len (filter positive_result (combine mb rs)).
Proof.
  rewrite process_market_batch_unfold. intros H.
  apply process_fold_markets in H. cbn [snd] in H. lia.
Qed.

(** X17. In the requests of [process_market_batch] and of
    [init_load_all_trades_async], every trade insert comes after an upsert
    of a user with an equal wallet. *)
Theorem async_trades_users_before_trades exec mb res distinct mpb start run_batch :
  users_before_trades (fst (process_market_batch exec mb res [])) = true /\
  users_before_trades
    (fst (init_load_all_trades_async exec distinct mpb start run_batch [])) = true.
Proof.
  split; [apply ubt_process_market_batch | apply ubt_init_trades_async].
Qed.

(** X18. When [init_load_all_trades_async] completes, the number of markets
    it reports as processed is between 0 and the number of condition ids
    it had to process (the non-[None] ids from [start_market_index] on). *)
Theorem init_trades_async_markets_bound exec ids mpb start run_batch u t m :
  snd (init_load_all_trades_async exec (Some (Ok ids)) mpb start run_batch [])
    = Ok (Some (u, t, m)) ->
  0 <= m <= len (skipn start (filter (fun cid => negb (is_none cid)) ids)).
Proof.
  rewrite init_trades_async_unfold.
  destruct (skipn start (filter (fun cid => negb (is_none cid)) ids)) as [|c0 cs].
  - cbv delta [ret]. cbn [snd]. intros H. injection H as _ _ <-. unfold len. lia.
  - destruct (Z.eqb_spec mpb 0) as [H0|H0]; [discriminate|].
    destruct (foldM_bounded_proj (trades_batch_step exec run_batch) snd len
                (trades_batch_step_bound exec run_batch)
                (if mpb <? 0 then [] else chunks (Z.to_nat mpb) (c0 :: cs)) (0, 0, 0) [])
      as [tr' [r [E B]]].
    unfold bind. rewrite E. cbv delta [ret]. cbn [snd]. intros H. injection H as ->.
    cbn [snd] in B. assert (0 <= len (c0 :: cs)) by (unfold len; lia).
    destruct (Z.ltb_spec mpb 0); cbn [fold_right] in B; [lia|].
    rewrite fold_len_concat, chunks_concat in B by lia. lia.
Qed.

(** ** The bulk trade load *)

Lemma fetch_count_app a b : fetch_count (a ++ b) = fetch_count a + fetch_count b.
Proof. unfold fetch_count, len. rewrite filter_app, length_app. lia. Qed.

Lemma fetch_count_nonneg tr : 0 <= fetch_count tr.
Proof. unfold fetch_count, len. lia. Qed.

Lemma fetch_count_writes tr : Forall is_write tr -> fetch_count tr = 0.
Proof.
  induction 1 as [|e tr He _ IH]; [reflexivity|].
  destruct e as [o|l o]; [|contradiction]. unfold fetch_count, len in *. exact IH.
Qed.

Lemma fl_weaken {A} n n' (m : M A) : n <= n' -> fetches_le n m -> fetches_le n' m.
Proof. intros H [P C]. split; [exact P | lia]. Qed.

Lemma fl_writes {A} (m : M A) : trace_all is_write m -> fetches_le 0 m.
Proof. intros [P F]. split; [exact P|]. rewrite (fetch_count_writes _ F). lia. Qed.

Lemma fl_bind {A B} n1 n2 (m : M A) (k : A -> M B) :
  0 <= n2 -> fetches_le n1 m -> (forall a, fetches_le n2 (k a)) ->
  fetches_le (n1 + n2) (bind m k).
Proof.
  intros H2 [Pm Cm] Hk. split; [apply pure_bind; [exact Pm | intros a; apply Hk]|].
  unfold bind. destruct (m []) as [t1 [a|e]]; cbn [fst] in *; [|lia].
  destruct (Hk a) as [Pk Ck]. rewrite (Pk t1). cbn [fst]. rewrite fetch_count_app. lia.
Qed.

Lemma ta_get_trades_m P fetch l o : P (EFetch l o) -> trace_all P (get_trades_m fetch l o).
Proof. intros H. split; [apply pure_get_trades_m | constructor; [exact H | constructor]]. Qed.

Section LoadTrades.

Variable exec : op -> option (list dict).
Variable fetch : Z -> Z -> result (list dict).
Variable limit : Z.

Lemma upsert_users_only_writes us : trace_all is_write (upsert_users exec us).
Proof.
  unfold upsert_users. apply ta_foldM. intros n u _. cbv zeta.
  apply ta_try; [|intros; apply ta_ret].
  destruct (negb _); [apply ta_ret|].
  apply ta_bind; [apply ta_execute; exact I | intros; apply ta_ret].
Qed.

Lemma insert_trades_only_writes ts : trace_all is_write (insert_trades exec ts).
Proof.
  unfold insert_trades. apply ta_foldM. intros n t _.
  apply ta_try; [|intros; apply ta_ret].
  apply ta_bind; [apply ta_lift|]. intros tr. cbv zeta.
  destruct (negb _); [apply ta_ret|].
  apply ta_bind; [apply ta_execute; exact I | intros; apply ta_ret].
Qed.

Lemma load_trades_fetch_ta fuel : forall o all, 0 <= o ->
  trace_all (fetch_within limit) (load_trades_fetch fetch limit fuel o all).
Proof.
  induction fuel as [|f IH]; intros o all Ho; cbn [load_trades_fetch]; [apply ta_ret|].
  destruct (Z.ltb_spec o limit); [|apply ta_ret]. cbv zeta.
  apply ta_bind; [apply ta_get_trades_m; cbn [fetch_within]; lia|].
  intros [|t ts]; [apply ta_ret | apply IH; lia].
Qed.

Lemma load_trades_fetch_count fuel : forall o all,
  fetches_le (Z.max 0 ((limit - o + 99) / 100)) (load_trades_fetch fetch limit fuel o all).
Proof.
  induction fuel as [|f IH]; intros o all; cbn [load_trades_fetch].
  - apply (fl_weaken 0); [lia|]. apply fl_writes, ta_ret.
  - destruct (Z.ltb_spec o limit) as [Hl|Hl].
    + cbv zeta.
      apply (fl_weaken (1 + Z.max 0 ((limit - (o + Z.min 100 (limit - o)) + 99) / 100)));
        [|apply fl_bind].
      * destruct (Z.le_gt_cases 100 (limit - o)).
        -- rewrite Z.min_l by lia.
           replace (limit - o + 99) with ((limit - (o + 100) + 99) + 1 * 100) by lia.
           rewrite Z.div_add by lia.
           assert (0 <= (limit - (o + 100) + 99) / 100) by (apply Z.div_pos; lia). lia.
        -- rewrite Z.min_r by lia. replace (limit - (o + (limit - o)) + 99) with 99 by lia.
           assert (1 <= (limit - o + 99) / 100).
           { apply Z.div_le_lower_bound; lia. }
           change (99 / 100) with 0. lia.
      * lia.
      * split; [apply pure_get_trades_m | reflexivity].
      * intros [|t ts]; [|apply IH].
        apply (fl_weaken 0); [lia | apply fl_writes, ta_ret].
    + apply (fl_weaken 0); [lia | apply fl_writes, ta_ret].
Qed.

Lemma load_trades_fetch_some fuel : forall o all tr,
  (Z.to_nat (limit - o) < fuel)%nat -> snd (load_trades_fetch fetch limit fuel o all tr) <> Ok None.
Proof.
  induction fuel as [|f IH]; intros o all tr Hf; [lia|]. cbn [load_trades_fetch].
  destruct (Z.ltb_spec o limit); [|discriminate]. cbv zeta.
  unfold bind, get_trades_m at 1.
  destruct (fetch (Z.min 100 (limit - o)) o) as [[|t ts]|e]; cbn [snd]; try discriminate.
  apply IH. lia.
Qed.

End LoadTrades.

(** X19. [load_trades(limit)] requests pages of at most 100 trades, each
    within the first [limit] trades (offset at least 0, offset plus page
    size at most [limit]); it makes at most [ceil(limit / 100)] page
    requests (none when [limit <= 0]), and its fetch loop always ends. *)
Theorem load_trades_requests exec fetch limit :
  trace_all (fetch_within limit) (load_trades exec fetch limit) /\
  fetch_count (fst (load_trades exec fetch limit [])) <= Z.max 0 ((limit + 99) / 100) /\
  snd (load_trades exec fetch limit []) <> Ok None.
Proof.
  split; [|split].
  - unfold load_trades.
    apply ta_bind; [apply load_trades_fetch_ta; lia|]. intros [all|]; [|apply ta_ret].
    cbv zeta. apply ta_bind; [apply ta_lift|]. intros uu.
    apply ta_bind.
    + eapply ta_impl; [|apply upsert_users_only_writes]. intros [o|l o] H; [exact I | contradiction].
    + intros _. apply ta_bind; [|intros; apply ta_ret].
      eapply ta_impl; [|apply insert_trades_only_writes]. intros [o|l o] H; [exact I | contradiction].
  - assert (H : fetches_le (Z.max 0 ((limit + 99) / 100)) (load_trades exec fetch limit)).
    { unfold load_trades.
      replace (Z.max 0 ((limit + 99) / 100)) with (Z.max 0 ((limit - 0 + 99) / 100) + 0)
        by (rewrite Z.sub_0_r, Z.add_0_r; reflexivity).
      apply fl_bind; [lia | apply load_trades_fetch_count |].
      intros [all|]; apply fl_writes; [|apply ta_ret]. cbv zeta.
      apply ta_bind; [apply ta_lift|]. intros uu.
      apply ta_bind; [apply upsert_users_only_writes|]. intros _.
      apply ta_bind; [apply insert_trades_only_writes | intros; apply ta_ret]. }
    exact (proj2 H).
  - unfold load_trades.
    pose proof (load_trades_fetch_some fetch limit (S (Z.to_nat limit)) 0 [] [] ltac:(lia)) as Hs.
    unfold bind at 1.
    destruct (load_trades_fetch fetch limit (S (Z.to_nat limit)) 0 [] []) as [tr1 [[all|]|e]];
      cbn [snd] in *; [|contradiction | discriminate].
    cbv beta iota zeta delta [bind lift ret].
    destruct (unique_users _) as [uu|e]; [|discriminate].
    destruct (upsert_users exec _ tr1) as [tr2 [n|e]]; [|discriminate].
    destruct (insert_trades exec all tr2) as [tr3 [c|e]]; discriminate.
Qed.

(** ** The one-by-one user and trade writers *)

Section OneByOneWriters.

Variable exec : op -> option (list dict).

Lemma upsert_users_counts us : counts exec (fun z => z) 0 (upsert_users exec us).
Proof.
  unfold upsert_users. apply (counts_foldM exec (fun z => z)). intros n u. cbv beta zeta.
  split; [pure_auto|].
  destruct (negb (truthy (get (drop_none u) "proxy_wallet"))).
  - cbv delta [try_ ret]. cbn [fst snd]. intros a H. injection H as <-.
    rewrite accepted_nil. lia.
  - cbv beta iota delta [try_ bind execute ret]. cbn [fst snd app].
    destruct (exec _) eqn:Ex; cbn [fst snd]; intros a H; injection H as <-;
      rewrite accepted_one, Ex; lia.
Qed.

Lemma insert_trades_counts ts : counts exec (fun z => z) 0 (insert_trades exec ts).
Proof.
  unfold insert_trades. apply (counts_foldM exec (fun z => z)). intros n t. cbv beta.
  split; [apply insert_trades_body_pure|].
  cbv beta iota zeta delta [try_ bind lift].
  destruct (transform_trade_data t) as [r|e].
  - destruct (negb (mandatory_ok (drop_none r))).
    + cbv delta [ret]. cbn [fst snd]. intros a H. injection H as <-.
      rewrite accepted_nil. lia.
    + cbv beta iota delta [execute ret]. cbn [fst snd app].
      destruct (exec _) eqn:Ex; cbn [fst snd]; intros a H; injection H as <-;
        rewrite accepted_one, Ex; lia.
  - cbv delta [ret]. cbn [fst snd]. intros a H. injection H as <-.
    rewrite accepted_nil. lia.
Qed.

End OneByOneWriters.

(** X20. [upsert_users] and [insert_trades] never raise, and the count each
    returns is the number of its requests the backend accepted (a rejected
    request is skipped by the handler, not counted). *)
Theorem one_by_one_writers_count exec us ts :
  snd (upsert_users exec us []) = Ok (accepted exec (fst (upsert_users exec us []))) /\
  snd (insert_trades exec ts []) = Ok (accepted exec (fst (insert_trades exec ts []))).
Proof.
  split.
  - destruct (upsert_users_run exec us) as [_ [_ [k Hk]]].
    destruct (upsert_users_counts exec us) as [_ C].
    rewrite Hk. f_equal. specialize (C k Hk). lia.
  - destruct (insert_trades_run exec ts) as [_ [_ [k Hk]]].
    destruct (insert_trades_counts exec ts) as [_ C].
    rewrite Hk. f_equal. specialize (C k Hk). lia.
Qed.

End Ingestion.

(** * Examples

    Runs of the pipeline with the whole-second instance of the timestamp
    conversion. *)

#[local] Existing Instance seconds_pandas.

Lemma trades_written_have_mandatory_fields_witness :
  let exec := fun _ : op => Some ([] : list dict) in
  let trades := [sample_trade 0; [("side", PStr "SELL")]] in
  let r := drop_none (match transform_trade_data (sample_trade 0) with
                      | Ok d => d | Raise _ => [] end) in
  (In r (trade_writes (fst (insert_trades exec trades [])))
   \/ In r (trade_writes (fst (insert_trades_batch exec trades [])))) /\
  exists v, dict_lookup r "size" = Some v /\ v <> PNone /\ truthy v = true.
Proof.
  intros exec trades r. split; [left; vm_compute; left; reflexivity|].
  apply (trades_written_have_mandatory_fields exec trades trades r).
  - left. vm_compute. left. reflexivity.
  - simpl. auto.
Defined.

Lemma falsy_mandatory_dropped_witness :
  let trade := [("proxyWallet", PStr "0xa11ce"); ("side", PStr "BUY");
                ("size", PInt 10); ("price", PInt 1); ("timestamp", PInt 0)] in
  get trade "timestamp" = PInt 0 /\
  written_trade trade = None
  /\ fst (insert_trades (fun _ => Some []) ([sample_trade 0] ++ trade :: [sample_trade 1]) [])
     = fst (insert_trades (fun _ => Some []) ([sample_trade 0] ++ [sample_trade 1]) [])
  /\ (valid_trades ([sample_trade 0] ++ trade :: [sample_trade 1])
      = valid_trades ([sample_trade 0] ++ [sample_trade 1])
      \/ exists e, valid_trades ([sample_trade 0] ++ trade :: [sample_trade 1]) = Raise e)
  /\ (get trade "timestamp" = PInt 0 ->
      exists r, transform_trade_data trade = Ok r
                /\ dict_lookup (drop_none r) "datetime" = None).
Proof.
  intros trade. split; [reflexivity|].
  apply (falsy_mandatory_dropped (fun _ => Some []) [sample_trade 0] [sample_trade 1] trade).
  right. right. reflexivity.
Defined.

(** C5 (counterexample): after a page of 37 trades with a batch size of 100
    both drivers have advanced the offset to 100, not 37 (and stop). *)
Lemma offset_not_advanced_by_count :
  let page := sample_trades 37 in
  snd (trades_page_step (fun _ => Some []) (fun _ _ => Ok page) 100 cursor0 [])
  = Ok (Break (mk_cursor 100 37 2))
  /\ fetch_all_loop (fun _ _ => page) 100 10000 1 fcursor0
     = Some (mk_fcursor page 100 1).
Proof. split; vm_compute; reflexivity. Qed.

Lemma offset_advances_by_batch_size_witness :
  let page := sample_trades 37 in
  (fun (_ _ : Z) => Ok page) 100 (offset cursor0) = Ok (sample_trade 0 :: tl page) /\
  collect_users (map transform_user_data (sample_trade 0 :: tl page)) = Ok tt /\
  (fun (_ _ : Z) => page) 100 (f_offset fcursor0) = sample_trade 0 :: tl page /\
  exists c', snd (trades_page_step (fun _ => Some []) (fun _ _ => Ok page) 100 cursor0 [])
             = Ok (if len (sample_trade 0 :: tl page) <? 100 then Break c' else Continue c')
             /\ offset c' = offset cursor0 + 100.
Proof.
  intros page.
  assert (H1 : (fun (_ _ : Z) => Ok page) 100 (offset cursor0)
               = Ok (sample_trade 0 :: tl page)) by reflexivity.
  assert (H2 : collect_users (map transform_user_data (sample_trade 0 :: tl page)) = Ok tt)
    by (vm_compute; reflexivity).
  assert (H3 : (fun (_ _ : Z) => page) 100 (f_offset fcursor0)
               = sample_trade 0 :: tl page) by reflexivity.
  split; [exact H1|]. split; [exact H2|]. split; [exact H3|].
  exact (proj1 (offset_advances_by_batch_size (fun _ => Some []) (fun _ _ => Ok page)
                  (fun _ _ => page) 100 10000 1 cursor0 fcursor0
                  (sample_trade 0) (tl page) (sample_trade 0) (tl page) H1 H2 H3)).
Defined.

(** C6 (counterexample): pages of 100, 50, 20 and 0 trades with a batch
    size of 100: the loop stops after the short page of 50 and reports 150
    trades, while the non-empty pages hold 170 (all of them writable). *)
Lemma pagination_stops_at_first_short_page :
  let pages := [sample_trades 100; sample_trades 50; sample_trades 20; []] in
  snd (init_load_all_trades_by_market (fun _ => Some []) (fun _ => page_source pages)
         100 0 ["0xmarket"] 10 [])
  = Ok (Some (150, 1))
  /\ sum_written pages = 170.
Proof. split; vm_compute; reflexivity. Qed.

(** The scenario of the specification: pages of 100 and 37 trades, two
    requests (offsets 0 and 100), 137 trades reported. *)
Lemma pagination_total_witness :
  let pages := [sample_trades 100; sample_trades 37] in
  0 < 100 /\ (forall o : op, Some [] <> @None (list dict)) /\
  (forall p, In p pages -> collect_users (map transform_user_data p) = Ok tt) /\
  (List.length pages < 3)%nat /\
  sum_written (pages_read 100 pages) = 137 /\
  map (fun j => 100 * Z.of_nat j) (seq 0 (List.length (pages_read 100 pages))) = [0; 100] /\
  snd (init_load_all_trades_by_market (fun _ => Some []) (fun _ => page_source pages)
         100 0 ["0xmarket"] 3 [])
  = Ok (Some (sum_written (pages_read 100 pages), 1))
  /\ fetch_offsets (fst (init_load_all_trades_by_market (fun _ => Some [])
                          (fun _ => page_source pages) 100 0 ["0xmarket"] 3 []))
     = map (fun j => 100 * Z.of_nat j) (seq 0 (List.length (pages_read 100 pages))).
Proof.
  intros pages.
  assert (H1 : 0 < 100) by lia.
  assert (H2 : forall o : op, (fun _ : op => Some []) o <> @None (list dict))
    by discriminate.
  assert (H3 : forall p, In p pages -> collect_users (map transform_user_data p) = Ok tt).
  { intros p [<- | [<- | []]]; vm_compute; reflexivity. }
  assert (H4 : (List.length pages < 3)%nat) by (simpl; lia).
  split; [exact H1|]. split; [exact H2|]. split; [exact H3|]. split; [exact H4|].
  split; [vm_compute; reflexivity|]. split; [vm_compute; reflexivity|].
  exact (pagination_total (fun _ => Some []) pages 100 "0xmarket" 3 H1 H2 H3 H4).
Defined.

(** C7 (counterexample): the cap is checked only after a page has been
    added; with a batch size of 300 (not dividing the default cap of
    10,000) and a market answering full pages, the fetch stops with 10,200
    trades. *)
Lemma fetch_cap_overshoot :
  match fetch_all_trades_for_market full_pages 300 10000 100 with
  | Some (_, n) => n
  | None => 0
  end = 10200.
Proof. vm_compute. reflexivity. Qed.

Lemma fetch_cap_bound_witness :
  0 < 100 /\ 0 < 10000 /\ (forall o, len (full_pages 100 o) <= 100) /\
  (Z.to_nat 10000 < S (Z.to_nat 10000))%nat /\
  exists ts, fetch_all_trades_for_market full_pages 100 10000 (S (Z.to_nat 10000)) = Some (ts, len ts)
    /\ len ts < 10000 + 100
    /\ ((100 | 10000) -> len ts <= 10000).
Proof.
  assert (H1 : 0 < 100) by lia. assert (H2 : 0 < 10000) by lia.
  assert (H3 : forall o, len (full_pages 100 o) <= 100).
  { intros o. unfold full_pages, len. rewrite length_map, length_seq. simpl. lia. }
  assert (H4 : (Z.to_nat 10000 < S (Z.to_nat 10000))%nat) by lia.
  split; [exact H1|]. split; [exact H2|]. split; [exact H3|]. split; [exact H4|].
  exact (fetch_cap_bound full_pages 100 10000 (S (Z.to_nat 10000)) H1 H2 H3 H4).
Defined.

Lemma process_market_batch_markets_witness :
  snd (process_market_batch (fun _ => None) [PStr "c1"; PStr "c2"; PStr "c3"]
         (Some [Some ([], 3); None; Some ([], 0)]) []) = Ok (0, 0, 1) /\
  1 = len (filter positive_result (combine [PStr "c1"; PStr "c2"; PStr "c3"]
                                           [Some ([], 3); None; Some ([], 0)])).
Proof.
  split; [vm_compute; reflexivity|].
  apply (process_market_batch_markets (fun _ => None)
           [PStr "c1"; PStr "c2"; PStr "c3"] [Some ([], 3); None; Some ([], 0)] 0 0).
  vm_compute. reflexivity.
Defined.

Lemma init_trades_async_markets_bound_witness :
  snd (init_load_all_trades_async (fun _ => None) (Some (Ok [PStr "a"; PStr "b"; PStr "c"])) 2 0
         (fun mb => Some (map (fun _ => Some ([], 1)) mb)) []) = Ok (Some (0, 0, 3)) /\
  0 <= 3 <= len (skipn 0 (filter (fun cid => negb (is_none cid)) [PStr "a"; PStr "b"; PStr "c"])).
Proof.
  split; [vm_compute; reflexivity|].
  apply (init_trades_async_markets_bound (fun _ => None) [PStr "a"; PStr "b"; PStr "c"] 2 0
           (fun mb => Some (map (fun _ => Some ([], 1)) mb)) 0 0 3).
  vm_compute. reflexivity.
Defined.
